(** * Paired patch extraction and the CARE dataset

    A shallow embedding of the data pipeline of [01_CARE/care_solution.ipynb]:
    [create_patches] (random paired patch extraction), the statistics of the
    training stacks, and the [CAREDataset] class with [__len__] and
    [__getitem__].

    Conventions of the embedding.
    - An [ndarray] is its shape, its dtype and its buffer in row-major order.
      Pixel values are rationals; the conversion of a value to a dtype
      ([astype]) is a parameter [cast] of the development, so every result
      about arrays holds for any rounding behaviour.
    - The statistics of a stack ([mean()], [std()]) are computed as numpy
      computes them, in binary64 floating point, on the kernel's primitive
      floats.
    - Python exceptions are values of [exception]; a computation that can
      raise returns a [result].
    - [np.random.default_rng()] is a [Generator]: an arbitrary stream of raw
      entropy and the number of draws made so far.  Code that draws runs in
      the monad [M], in which the generator survives an exception, so that
      the draws made before a failure can be counted. *)

From Stdlib Require Import String List ZArith QArith Qround Lia Bool Arith.
From Stdlib Require Import Qabs Permutation Floats.
Import ListNotations.

(** ** Exceptions and results *)

Inductive exception : Type :=
| ValueError
| IndexError
| DegenerateStatisticsError.

Inductive result (A : Type) : Type :=
| Ok (a : A)
| Raise (e : exception).

Arguments Ok {A} a.
Arguments Raise {A} e.

Definition rbind {A B : Type} (r : result A) (k : A -> result B) : result B :=
  match r with
  | Ok a => k a
  | Raise e => Raise e
  end.

(** ** The random generator *)

Record Generator : Type := mkGenerator {
  raw : nat -> Z;     (* the entropy the generator will consume *)
  pos : nat           (* number of draws made so far *)
}.

Definition M (A : Type) : Type := Generator -> result A * Generator.

Definition ret {A : Type} (a : A) : M A := fun g => (Ok a, g).

Definition bind {A B : Type} (m : M A) (k : A -> M B) : M B :=
  fun g =>
    match m g with
    | (Ok a, g') => k a g'
    | (Raise e, g') => (Raise e, g')
    end.

Definition lift {A : Type} (r : result A) : M A := fun g => (r, g).

Declare Scope py_scope.
Delimit Scope py_scope with py.
Notation "x <- m ;; k" := (bind m (fun x => k))
  (at level 61, m at next level, right associativity) : py_scope.
Notation "' p <- m ;; k" := (bind m (fun x => match x with p => k end))
  (at level 61, p pattern, m at next level, right associativity) : py_scope.

Definition int64_min : Z := (- 2 ^ 63)%Z.

Definition int64_max : Z := (2 ^ 63 - 1)%Z.

(** [rng.integers(low, high, endpoint=True)], of dtype int64: a value of the
    closed interval [[low, high]]; [ValueError] when [low > high] or when a
    bound is not a 64-bit integer.  One draw is consumed in the first case
    only. *)
Definition integers (low high : Z) : M Z :=
  fun g =>
    if ((high <? low) || (low <? int64_min) || (int64_max <? high))%Z
    then (Raise ValueError, g)
    else (Ok (low + (raw g (pos g)) mod (high - low + 1))%Z,
          mkGenerator (raw g) (S (pos g))).

(** ** Arrays *)

Inductive np_dtype : Type := int64 | float32 | float64.

Record ndarray : Type := mk_ndarray {
  shape : list nat;
  dtype : np_dtype;
  data : list Q
}.

(** Number of elements of an array of a given shape. *)
Definition size_of (sh : list nat) : nat := fold_right Nat.mul 1%nat sh.

(** The invariant of every array held in memory: the buffer has as many
    elements as the shape says. *)
Definition well_formed (a : ndarray) : Prop :=
  length (data a) = size_of (shape a).

(** [a.shape[i]] *)
Definition shape_at (sh : list nat) (i : nat) : result nat :=
  match nth_error sh i with
  | Some d => Ok d
  | None => Raise IndexError
  end.

(** [a[index]] for an integer [index]: the sub-array at position [index] of
    the first axis; a negative index counts from the end. *)
Definition getitem0 (a : ndarray) (index : Z) : result ndarray :=
  match shape a with
  | [] => Raise IndexError
  | n :: rest =>
      let i := (if index <? 0 then index + Z.of_nat n else index)%Z in
      if ((0 <=? i) && (i <? Z.of_nat n))%Z then
        let sz := size_of rest in
        Ok (mk_ndarray rest (dtype a)
              (firstn sz (skipn (Z.to_nat i * sz) (data a))))
      else Raise IndexError
  end.

(** [slice(start, stop).indices(d)] for step 1: both ends are clipped to
    [[0, d]], negative ones after [d] was added. *)
Definition slice_bound (d : nat) (x : Z) : nat :=
  if (x <? 0)%Z then Z.to_nat (Z.max (x + Z.of_nat d) 0)
  else Z.to_nat (Z.min x (Z.of_nat d)).

(** First position and length of what [slice(start, stop)] selects on an
    axis of length [d]. *)
Definition slice_range (d : nat) (s : Z * Z) : nat * nat :=
  let lo := slice_bound d (fst s) in
  let hi := slice_bound d (snd s) in
  (lo, (hi - lo)%nat).

(** An index of a basic-slicing tuple once the Ellipsis is expanded:
    a full slice [:] or [slice(start, stop)]. *)
Definition axis_range (d : nat) (s : option (Z * Z)) : nat * nat :=
  match s with
  | None => (0%nat, d)
  | Some r => slice_range d r
  end.

(** [n] consecutive blocks of [sz] elements. *)
Fixpoint chunks (sz n : nat) (l : list Q) : list (list Q) :=
  match n with
  | O => []
  | S n' => firstn sz l :: chunks sz n' (skipn sz l)
  end.

Fixpoint slice_data (sh : list nat) (sl : list (option (Z * Z))) (l : list Q)
  : list Q :=
  match sh, sl with
  | d :: sh', s :: sl' =>
      let sz := size_of sh' in
      let '(lo, len) := axis_range d s in
      flat_map (slice_data sh' sl') (chunks sz len (skipn (lo * sz) l))
  | _, _ => l
  end.

Fixpoint slice_shape (sh : list nat) (sl : list (option (Z * Z))) : list nat :=
  match sh, sl with
  | d :: sh', s :: sl' => snd (axis_range d s) :: slice_shape sh' sl'
  | _, _ => sh
  end.

(** [a[(..., *slices)]]: the slices apply to the trailing axes, the
    Ellipsis stands for full slices on the leading ones; more slices than
    axes is an [IndexError]. *)
Definition getitem_ellipsis (a : ndarray) (slices : list (Z * Z))
  : result ndarray :=
  let rank := length (shape a) in
  let k := length slices in
  if (rank <? k)%nat then Raise IndexError
  else
    let sl := repeat None (rank - k) ++ map Some slices in
    Ok (mk_ndarray (slice_shape (shape a) sl) (dtype a)
          (slice_data (shape a) sl (data a))).

(** [np.stack(arrays)]: a new first axis; [ValueError] on an empty list and
    on arrays of different shapes.  The arrays stacked in this program all
    have the same dtype, which is the dtype of the result. *)
Definition np_stack (arrays : list ndarray) : result ndarray :=
  match arrays with
  | [] => Raise ValueError
  | a :: rest =>
      if forallb (fun b => if list_eq_dec Nat.eq_dec (shape b) (shape a)
                           then true else false) rest
      then Ok (mk_ndarray (length arrays :: shape a) (dtype a)
                 (flat_map data arrays))
      else Raise ValueError
  end.

(** [a[np.newaxis]] *)
Definition newaxis (a : ndarray) : ndarray :=
  mk_ndarray (1%nat :: shape a) (dtype a) (data a).

(** 64-bit signed wrap-around of numpy's integer arithmetic. *)
Definition wrap64 (z : Z) : Z := ((z + 2 ^ 63) mod 2 ^ 64 - 2 ^ 63)%Z.

(** [np.prod] of a tuple of integers that all fit a 64-bit signed integer,
    as the shape of an array does: numpy holds such a tuple as an int64
    array, and the product wraps around.  A tuple with an entry beyond
    int64 is held as a uint64, float64 or object array and multiplied
    there, which this definition does not describe.  No run of
    [create_patches] that returns has such a patch size (an offset was
    drawn on every axis, so every entry lies between the axis length minus
    2^63 and the axis length); the statement about patch sizes that do not
    fit the sample carries the bound ([int64_tuple]). *)
Definition np_prod (l : list Z) : Z :=
  fold_left (fun acc x => wrap64 (acc * x)) l 1%Z.

(** [n_patches = np.ceil(np.prod(sample.shape) / np.prod(patch_size)).astype(int)].
    The quotient of the two 64-bit products is a float64; it is modelled by
    the exact rational quotient, which has the same ceiling as long as both
    products are below 2^53 in absolute value, and the same sign always.  A
    zero divisor gives [inf] or [nan], whose conversion to an integer is the
    smallest 64-bit integer on x86-64.  The patch size is a tuple of
    integers that fit int64, see [np_prod]. *)
Definition n_patches (sample_shape : list nat) (patch_size : list Z) : Z :=
  let a := np_prod (map Z.of_nat sample_shape) in
  let b := np_prod patch_size in
  if (b =? 0)%Z then int64_min
  else Qceiling (inject_Z a / inject_Z b).

(** The module-level statistics read by [CAREDataset.__getitem__]. *)
Record Globals : Type := mkGlobals {
  train_mean : Q;
  train_std : Q;
  target_mean : Q;
  target_std : Q
}.

Record CAREDataset : Type := mkCAREDataset {
  image_data : ndarray;
  target_data : ndarray;
  patch_augment : bool
}.

(** Modelled from the spec: [normalize] of the module [transforms], which the
    notebook imports and which is not among the sources.  The spec gives
    [(array - mean) / std], and a failure with [DegenerateStatisticsError]
    for a zero [std].  The dtype of the result is not specified; the only
    caller converts it. *)
Definition normalize (array : ndarray) (mean std : Q) : result ndarray :=
  if Qeq_bool std 0 then Raise DegenerateStatisticsError
  else Ok (mk_ndarray (shape array) float64
             (map (fun x => (x - mean) / std) (data array))).

(** Modelled from the spec: [denormalize] of the module [transforms], which
    is not among the sources.  The spec gives [array * std + mean]. *)
Definition denormalize (array : ndarray) (mean std : Q) : ndarray :=
  mk_ndarray (shape array) float64
    (map (fun x => x * std + mean) (data array)).

(** ** The statistics of a stack *)

(** [ndarray.mean()] and [ndarray.std()] work in float64, on a float64
    stack as it is and on a stack of integers after its conversion.  A
    stack is given here by its elements as float64 values, in row-major
    order, and the arithmetic is that of binary64. *)


(** [r[j] += a[i + j]] for the eight accumulators. *)
Definition add_pointwise (r chunk : list float) : list float :=
  map (fun p => PrimFloat.add (fst p) (snd p)) (combine r chunk).

(** [for (i = 8; i < n - (n % 8); i += 8)]: the accumulators and the
    values that are left. *)
Fixpoint unrolled_loop (blocks : nat) (r l : list float)
  : list float * list float :=
  match blocks with
  | O => (r, l)
  | S k => unrolled_loop k (add_pointwise r (firstn 8 l)) (skipn 8 l)
  end.

(** The sum of 8 to 128 values: eight accumulators, added as a tree, and
    then the values beyond the last multiple of 8, one by one. *)
Definition block_sum (l : list float) : float :=
  let '(r, rest) :=
    unrolled_loop (length l / 8 - 1) (firstn 8 l) (skipn 8 l) in
  match r with
  | [r0; r1; r2; r3; r4; r5; r6; r7] =>
      fold_left PrimFloat.add rest
        (((r0 + r1) + (r2 + r3)) + ((r4 + r5) + (r6 + r7)))%float
  | _ => nan
  end.

(** numpy's pairwise summation of a contiguous buffer: fewer than 8 values
    are added one by one, up to 128 values by [block_sum], and a longer
    buffer is split in two, the first part being half of it rounded down
    to a multiple of 8.  The recursion is bounded by [fuel]; the length of
    the buffer is enough ([pairwise_sum_fuel]). *)
Fixpoint pairwise_sum (fuel : nat) (l : list float) : float :=
  let n := length l in
  if (n <? 8)%nat then fold_left PrimFloat.add l 0%float
  else if (n <=? 128)%nat then block_sum l
  else
    match fuel with
    | O => nan
    | S fuel' =>
        let n2 := (n / 2 - (n / 2) mod 8)%nat in
        (pairwise_sum fuel' (firstn n2 l)
         + pairwise_sum fuel' (skipn n2 l))%float
    end.







Section Notebook.

(** [cast dt x]: the value [x] converted to dtype [dt]. *)
Variable cast : np_dtype -> Q -> Q.

(** [augment_batch] of the module [transforms], which is not among the
    sources: it draws a transform and returns the transformed pair. *)
Variable augment_batch : ndarray -> ndarray -> M (ndarray * ndarray).

Local Open Scope py_scope.

(** [a.astype(dt)] *)
Definition astype (dt : np_dtype) (a : ndarray) : ndarray :=
  mk_ndarray (shape a) dt (map (cast dt) (data a)).

(** [a.copy()] *)
Definition copy (a : ndarray) : ndarray := a.

(** *** create_patches *)

(** [[rng.integers(0, sample.shape[i] - patch_size[i], endpoint=True)
     for i in range(len(patch_size))]], from axis [i] on. *)
Fixpoint crop_coords_from (i : nat) (sample_shape : list nat)
    (patch_size : list Z) : M (list Z) :=
  match patch_size with
  | [] => ret []
  | p :: rest =>
      d <- lift (shape_at sample_shape i) ;;
      c <- integers 0 (Z.of_nat d - p) ;;
      cs <- crop_coords_from (S i) sample_shape rest ;;
      ret (c :: cs)
  end.

Definition crop_coords (sample_shape : list nat) (patch_size : list Z)
  : M (list Z) :=
  crop_coords_from 0 sample_shape patch_size.

(** [[slice(c, c + patch_size[i]) for i, c in enumerate(crop_coords)]];
    [crop_coords] is never longer than [patch_size]. *)
Definition crop_slices (crop : list Z) (patch_size : list Z)
  : list (Z * Z) :=
  map (fun cp => (fst cp, (fst cp + snd cp)%Z)) (combine crop patch_size).

(** [sample[(..., *slices)].copy().astype(np.float32)] *)
Definition extract_patch (sample : ndarray) (crop : list Z)
    (patch_size : list Z) : result ndarray :=
  rbind (getitem_ellipsis sample (crop_slices crop patch_size))
        (fun sub => Ok (astype float32 (copy sub))).

(** The body of the loop over the patches of one sample. *)
Definition patch_pair (sample target_sample : ndarray)
    (patch_size : list Z) : M (ndarray * ndarray) :=
  crop <- crop_coords (shape sample) patch_size ;;
  patch <- lift (extract_patch sample crop patch_size) ;;
  target_patch <- lift (extract_patch target_sample crop patch_size) ;;
  ret (patch, target_patch).

(** [for _ in range(n)], appending to the two lists. *)
Fixpoint patches_loop (n : nat) (sample target_sample : ndarray)
    (patch_size : list Z) (acc : list ndarray * list ndarray)
  : M (list ndarray * list ndarray) :=
  match n with
  | O => ret acc
  | S n' =>
      '(patch, target_patch) <- patch_pair sample target_sample patch_size ;;
      patches_loop n' sample target_sample patch_size
        (fst acc ++ [patch], snd acc ++ [target_patch])
  end.

(** [for s in range(image_array.shape[0])], over the remaining values of
    [s]. *)
Fixpoint samples_loop (ss : list nat) (image_array target_array : ndarray)
    (patch_size : list Z) (acc : list ndarray * list ndarray)
  : M (list ndarray * list ndarray) :=
  match ss with
  | [] => ret acc
  | s :: ss' =>
      sample <- lift (getitem0 image_array (Z.of_nat s)) ;;
      target_sample <- lift (getitem0 target_array (Z.of_nat s)) ;;
      acc' <- patches_loop
                (Z.to_nat (n_patches (shape sample) patch_size))
                sample target_sample patch_size acc ;;
      samples_loop ss' image_array target_array patch_size acc'
  end.

(** The generator in which [create_patches] runs is the fresh
    [rng = np.random.default_rng()] of its first line. *)
Definition create_patches (image_array target_array : ndarray)
    (patch_size : list Z) : M (ndarray * ndarray) :=
  n_samples <- lift (shape_at (shape image_array) 0) ;;
  '(image_patches, target_patches) <-
     samples_loop (seq 0 n_samples) image_array target_array patch_size
       ([], []) ;;
  image_stack <- lift (np_stack image_patches) ;;
  target_stack <- lift (np_stack target_patches) ;;
  ret (image_stack, target_stack).

(** *** CAREDataset *)

Definition __init__ (image_data target_data : ndarray)
    (apply_augmentations : bool) : CAREDataset :=
  mkCAREDataset image_data target_data apply_augmentations.

Definition __len__ (self : CAREDataset) : result nat :=
  shape_at (shape (image_data self)) 0.

(** The generator in which [__getitem__] runs is the random state that
    [augment_batch] draws from; [env] holds the statistics of the notebook. *)
Definition __getitem__ (env : Globals) (self : CAREDataset) (index : Z)
  : M (ndarray * ndarray) :=
  patch <- lift (getitem0 (image_data self) index) ;;
  target <- lift (getitem0 (target_data self) index) ;;
  '(patch, target) <-
     (if patch_augment self then augment_batch patch target
      else ret (patch, target)) ;;
  patch <- lift (normalize patch (train_mean env) (train_std env)) ;;
  target <- lift (normalize target (target_mean env) (target_std env)) ;;
  ret (astype float32 (newaxis patch), astype float32 (newaxis target)).

End Notebook.

(** ** The prediction loop *)

Section Prediction.

Variable cast : np_dtype -> Q -> Q.
Variable augment_batch : ndarray -> ndarray -> M (ndarray * ndarray).

(** [model(image_batch)], in evaluation mode and without gradients. *)
Variable model : ndarray -> ndarray.

Local Open Scope py_scope.

(** Batch [i] of [DataLoader(test_dataset, batch_size=1, shuffle=False)]:
    item [i] of the dataset, each of its two arrays collated into a batch
    of one, that is, given a leading axis of length 1. *)
Definition load_batch (env : Globals) (test_dataset : CAREDataset) (i : nat)
  : M (ndarray * ndarray) :=
  '(image, target) <- __getitem__ cast augment_batch env test_dataset
                        (Z.of_nat i) ;;
  ret (newaxis image, newaxis target).

(** [for i, (image_batch, target_batch) in enumerate(test_dataloader)],
    over the remaining batches. *)
Fixpoint prediction_loop_over (batches : list nat) (env : Globals)
    (test_dataset : CAREDataset) (acc : list ndarray * list ndarray)
  : M (list ndarray * list ndarray) :=
  match batches with
  | [] => ret acc
  | i :: rest =>
      '(image_batch, target_batch) <- load_batch env test_dataset i ;;
      let output := model image_batch in
      prediction_loop_over rest env test_dataset
        (fst acc ++ [denormalize image_batch (train_mean env) (train_std env)],
         snd acc ++ [denormalize output (train_mean env) (train_std env)])
  end.

(** The prediction cell: it returns [(test_images, predictions)]. *)
Definition prediction_loop (env : Globals) (test_dataset : CAREDataset)
  : M (list ndarray * list ndarray) :=
  n <- lift (__len__ test_dataset) ;;
  prediction_loop_over (seq 0 n) env test_dataset ([], []).

End Prediction.

(** ** The split into training and validation files *)

(** The four assertions of the cell, by their messages. *)
Inductive assertion : Type :=
| Number_of_images_and_targets_do_not_match
| Files_do_not_match
| Train_files_do_not_match
| Val_files_do_not_match.

Inductive cell_error : Type :=
| AssertionError (message : assertion)
| FancyIndexError.

Inductive checked (A : Type) : Type :=
| Passed (a : A)
| Failed (e : cell_error).

Arguments Passed {A} a.
Arguments Failed {A} e.

(** [a[:k]] and [a[k:]] on a sequence. *)
Definition slice_to {A : Type} (a : list A) (k : Z) : list A :=
  firstn (slice_bound (List.length a) k) a.

Definition slice_from {A : Type} (a : list A) (k : Z) : list A :=
  skipn (slice_bound (List.length a) k) a.

(** [np.array(a)[indices]] for a list of indices that are not negative:
    [IndexError] when one of them is out of bounds. *)
Fixpoint take {A : Type} (a : list A) (indices : list nat)
  : checked (list A) :=
  match indices with
  | [] => Passed []
  | i :: rest =>
      match nth_error a i, take a rest with
      | Some x, Passed xs => Passed (x :: xs)
      | None, _ => Failed FancyIndexError
      | _, Failed e => Failed e
      end
  end.

Record file_split (Path : Type) : Type := mk_file_split {
  train_image_files : list Path;
  train_target_files : list Path;
  val_image_files : list Path;
  val_target_files : list Path
}.

Arguments mk_file_split {Path}.
Arguments train_image_files {Path}.
Arguments train_target_files {Path}.
Arguments val_image_files {Path}.
Arguments val_target_files {Path}.

Section SplitFiles.

(** The paths that [rglob] lists, and [Path.name]. *)
Variable Path : Type.
Variable name : Path -> string.

(** [int(train_files_percentage * n)], a floating-point product. *)
Variable split_index : nat -> Z.

(** [all([i.name == j.name for i, j in zip(a, b)])] *)
Definition names_match (a b : list Path) : bool :=
  forallb (fun ij => String.eqb (name (fst ij)) (name (snd ij)))
    (combine a b).

(** The cell that shuffles and splits the training files;
    [shuffled_indices] is [np.random.permutation(len(image_files))]. *)
Definition split_files (image_files target_files : list Path)
    (shuffled_indices : list nat) : checked (file_split Path) :=
  if negb (List.length image_files =? List.length target_files)%nat
  then Failed (AssertionError Number_of_images_and_targets_do_not_match)
  else
    match take image_files shuffled_indices with
    | Failed e => Failed e
    | Passed image_files =>
        match take target_files shuffled_indices with
        | Failed e => Failed e
        | Passed target_files =>
            if negb (names_match image_files target_files)
            then Failed (AssertionError Files_do_not_match)
            else
              let train_image_files :=
                slice_to image_files
                  (split_index (List.length image_files)) in
              let train_target_files :=
                slice_to target_files
                  (split_index (List.length target_files)) in
              let val_image_files :=
                slice_from image_files
                  (split_index (List.length image_files)) in
              let val_target_files :=
                slice_from target_files
                  (split_index (List.length target_files)) in
              if negb (names_match train_image_files train_target_files)
              then Failed (AssertionError Train_files_do_not_match)
              else if negb (names_match val_image_files val_target_files)
              then Failed (AssertionError Val_files_do_not_match)
              else Passed (mk_file_split train_image_files
                             train_target_files val_image_files
                             val_target_files)
        end
    end.

End SplitFiles.

Arguments names_match {Path}.
Arguments split_files {Path}.

(** ** The training loop *)

(** What [tb_logger.add_scalar] is given: the integer 0 that [val_loss]
    starts from, or a loss tensor. *)
Inductive py_scalar : Type :=
| PyInt (z : Z)
| LossTensor (q : Q).

Inductive tb_event : Type :=
| add_scalar (tag : string) (scalar_value : py_scalar) (global_step : nat)
| add_images (tag : string) (img_tensor : ndarray) (global_step : nat).

Inductive loop_error : Type :=
| NameError (variable : string)
| AttributeError (attribute : string).

Section Training.

(** The weights of the model together with the state of the optimizer. *)
Variable Params : Type.

(** [optimizer.zero_grad(); output = model(batch); loss(output,
    target).backward(); optimizer.step()] in training mode: the new
    weights and the output. *)
Variable train_step : Params -> ndarray -> ndarray -> Params * ndarray.

(** [model(batch)] in evaluation mode. *)
Variable forward_eval : Params -> ndarray -> ndarray.

(** [loss(output, target).item()] *)
Variable loss : ndarray -> ndarray -> Q.

(** The batches that [train_dataloader] yields in each epoch (it
    shuffles), those of [val_dataloader] (it does not), and
    [len(train_dataloader)]. *)
Variable train_dataloader : nat -> list (ndarray * ndarray).
Variable val_dataloader : list (ndarray * ndarray).
Variable len_train_dataloader : nat.

(** The variables of the cell.  [batch], [target] and [output] are
    assigned together, in the training loop and in the validation loop;
    they and [train_loss] are unbound before the first assignment. *)
Record loop_vars : Type := mk_loop_vars {
  model_params : Params;
  train_loss : option Q;
  batch_target_output : option (ndarray * ndarray * ndarray);
  tb_logger : list tb_event;
  train_losses : list Q;
  val_losses : list Q
}.

Inductive loop_result : Type :=
| Finished (vars : loop_vars)
| Crashed (e : loop_error) (vars : loop_vars).

(** [for i, (image_batch, target_batch) in enumerate(train_dataloader)] *)
Fixpoint train_epoch (batches : list (ndarray * ndarray)) (vars : loop_vars)
  : loop_vars :=
  match batches with
  | [] => vars
  | (image_batch, target_batch) :: rest =>
      let '(params, output) :=
        train_step (model_params vars) image_batch target_batch in
      train_epoch rest
        (mk_loop_vars params (Some (loss output target_batch))
           (Some (image_batch, target_batch, output))
           (tb_logger vars) (train_losses vars) (val_losses vars))
  end.

(** [for i, (batch, target) in enumerate(val_dataloader)], with the
    current [val_loss]. *)
Fixpoint validate (batches : list (ndarray * ndarray)) (vars : loop_vars)
    (val_loss : py_scalar) : loop_vars * py_scalar :=
  match batches with
  | [] => (vars, val_loss)
  | (batch, target) :: rest =>
      let output := forward_eval (model_params vars) batch in
      validate rest
        (mk_loop_vars (model_params vars) (train_loss vars)
           (Some (batch, target, output))
           (tb_logger vars) (train_losses vars) (val_losses vars))
        (LossTensor (loss output target))
  end.

(** The body of [for epoch in range(n_epochs)]. *)
Definition run_epoch (epoch : nat) (vars : loop_vars) : loop_result :=
  let vars := train_epoch (train_dataloader epoch) vars in
  let '(vars, val_loss) := validate val_dataloader vars (PyInt 0) in
  let step := (epoch * len_train_dataloader)%nat in
  match train_loss vars with
  | None => Crashed (NameError "train_loss") vars
  | Some train_loss_item =>
      let log1 :=
        tb_logger vars
        ++ [add_scalar "train_loss" (LossTensor train_loss_item) step;
            add_scalar "val_loss" val_loss step] in
      match batch_target_output vars with
      | None =>
          Crashed (NameError "batch")
            (mk_loop_vars (model_params vars) (train_loss vars)
               (batch_target_output vars) log1
               (train_losses vars) (val_losses vars))
      | Some (batch, target, output) =>
          let log2 :=
            log1 ++ [add_images "val_input" batch step;
                     add_images "val_target" target step;
                     add_images "val_prediction" output step] in
          let vars :=
            mk_loop_vars (model_params vars) (train_loss vars)
              (batch_target_output vars) log2
              (train_losses vars) (val_losses vars) in
          match val_loss with
          | PyInt _ => Crashed (AttributeError "item") vars
          | LossTensor val_loss_item =>
              Finished
                (mk_loop_vars (model_params vars) (train_loss vars)
                   (batch_target_output vars) log2
                   (train_losses vars ++ [train_loss_item])
                   (val_losses vars ++ [val_loss_item]))
          end
      end
  end.

Fixpoint epochs_loop (epochs : list nat) (vars : loop_vars) : loop_result :=
  match epochs with
  | [] => Finished vars
  | epoch :: rest =>
      match run_epoch epoch vars with
      | Finished vars => epochs_loop rest vars
      | Crashed e vars => Crashed e vars
      end
  end.

(** The training cell, from the weights it starts with. *)
Definition training_loop (n_epochs : nat) (params : Params) : loop_result :=
  epochs_loop (seq 0 n_epochs) (mk_loop_vars params None None [] [] []).

(** The weights after the training batches of one epoch, and after the
    first [k] epochs. *)
Definition params_after_epoch (epoch : nat) (params : Params) : Params :=
  fold_left (fun p b => fst (train_step p (fst b) (snd b)))
    (train_dataloader epoch) params.

Fixpoint params_after (k : nat) (params : Params) : Params :=
  match k with
  | O => params
  | S k' => params_after_epoch k' (params_after k' params)
  end.

End Training.

Arguments model_params {Params}.
Arguments train_loss {Params}.
Arguments batch_target_output {Params}.
Arguments tb_logger {Params}.
Arguments train_losses {Params}.
Arguments val_losses {Params}.
Arguments Finished {Params}.
Arguments Crashed {Params}.

(** ** Specification vocabulary *)

(** Every offset lies between 0 and the axis length minus the patch length,
    axis by axis from axis [i] on. *)
Fixpoint offsets_in_range (i : nat) (sample_shape : list nat)
    (crop patch_size : list Z) : Prop :=
  match crop, patch_size with
  | [], [] => True
  | c :: crop', p :: rest =>
      (exists d, nth_error sample_shape i = Some d
                 /\ (0 <= c <= Z.of_nat d - p)%Z)
      /\ offsets_in_range (S i) sample_shape crop' rest
  | _, _ => False
  end.

(** The patch sizes the spec calls valid for samples of a given shape: one
    positive size per axis, none larger than the axis. *)
Definition valid_patch_size (sample_shape : list nat) (patch_size : list Z)
  : Prop :=
  Forall2 (fun d p => (1 <= p <= Z.of_nat d)%Z) sample_shape patch_size.

(** The offsets can be drawn on every axis: the patch is not longer than
    the axis, and the largest offset is a 64-bit integer. *)
Definition drawable (sample_shape : list nat) (patch_size : list Z) : Prop :=
  Forall2 (fun d p => (p <= Z.of_nat d <= p + int64_max)%Z)
    sample_shape patch_size.

(** One extraction event: the sample, the offsets drawn, and the two
    patches appended to the output lists. *)
Record extraction : Type := mkExtraction {
  ex_sample : nat;
  ex_crop : list Z;
  ex_patch : ndarray;
  ex_target : ndarray
}.

(** The product of the entries of a shape or of a patch size, as an
    integer without bound. *)
Definition prodZ (l : list Z) : Z := fold_right Z.mul 1%Z l.

(** [n] is the ceiling of [a / b]: the least integer with [a <= n * b]. *)
Definition is_ceiling (n a b : Z) : Prop :=
  ((n - 1) * b < a <= n * b)%Z.

Section Specification.

Variable cast : np_dtype -> Q -> Q.

(** The offsets were drawn for [sample] and both patches were cut at
    them, the first from [sample], the second from [target_sample]. *)
Definition drawn_pair (sample target_sample : ndarray)
    (patch_size crop : list Z) (patch target_patch : ndarray) : Prop :=
  (exists g g', crop_coords (shape sample) patch_size g = (Ok crop, g'))
  /\ extract_patch cast sample crop patch_size = Ok patch
  /\ extract_patch cast target_sample crop patch_size = Ok target_patch.

Definition extraction_ok (image_array target_array : ndarray)
    (patch_size : list Z) (e : extraction) : Prop :=
  exists sample target_sample,
    getitem0 image_array (Z.of_nat (ex_sample e)) = Ok sample
    /\ getitem0 target_array (Z.of_nat (ex_sample e)) = Ok target_sample
    /\ drawn_pair sample target_sample patch_size
         (ex_crop e) (ex_patch e) (ex_target e).

End Specification.




(** An augmentation that returns, whatever it draws, and keeps the shapes
    of the two patches. *)
Definition shape_preserving
    (augment : ndarray -> ndarray -> M (ndarray * ndarray)) : Prop :=
  forall patch target g,
    exists patch' target' g',
      augment patch target g = (Ok (patch', target'), g')
      /\ shape patch' = shape patch /\ shape target' = shape target.

(** Number of patches taken from each sample of a stack. *)
Definition patch_count (image_array : ndarray) (patch_size : list Z)
  : nat :=
  Z.to_nat (n_patches (tl (shape image_array)) patch_size).

(** The sum, over the samples of the stack, of the number of patches
    taken from each. *)
Definition total_patch_count (image_array : ndarray)
    (patch_size : list Z) (n_samples : nat) : nat :=
  list_sum (map (fun _ => patch_count image_array patch_size)
              (seq 0 n_samples)).

(** Every entry of the tuple fits a 64-bit signed integer. *)
Definition int64_tuple (l : list Z) : Prop :=
  Forall (fun z => (int64_min <= z <= int64_max)%Z) l.


(** ** Example inputs *)

(** [np.arange(5 * 5).reshape((5, 5))[np.newaxis, ...]], the array of the
    notebook's patching exercise. *)
Definition arange25 : ndarray :=
  mk_ndarray [1; 5; 5]%nat int64
    (map (fun k => inject_Z (Z.of_nat k)) (seq 0 25)).

(** A stack of one sample with two channels, of shape (1, 2, 5, 5). *)
Definition two_channels : ndarray :=
  mk_ndarray [1; 2; 5; 5]%nat int64
    (map (fun k => inject_Z (Z.of_nat k)) (seq 0 50)).

(** Two stored patches of shape (2, 2), and three of them. *)
Definition two_patches : ndarray :=
  mk_ndarray [2; 2; 2]%nat float32
    (map (fun k => inject_Z (Z.of_nat k)) (seq 0 8)).

Definition three_patches : ndarray :=
  mk_ndarray [3; 2; 2]%nat float32
    (map (fun k => inject_Z (Z.of_nat k)) (seq 0 12)).





(** The small integers of the examples are values of every dtype. *)
Definition exact_cast : np_dtype -> Q -> Q := fun _ x => x.

(** A conversion that rounds: to float32, the nearest value of 24
    significant bits, ties to even (for values in the normal range of
    float32); the other dtypes as [exact_cast]. *)
Definition round_half_even (q : Q) : Z :=
  let f := Qfloor q in
  match Qcompare (q - inject_Z f) (1 # 2) with
  | Lt => f
  | Gt => (f + 1)%Z
  | Eq => if Z.even f then f else (f + 1)%Z
  end.

Definition binade (q : Q) : Z :=
  let e := (Z.log2 (Z.abs (Qnum q)) - Z.log2 (Z.pos (Qden q)))%Z in
  if Qle_bool (Qpower 2 e) (Qabs q) then e else (e - 1)%Z.

Definition round_float32 (q : Q) : Q :=
  if Qeq_bool q 0 then 0
  else
    let ulp := Qpower 2 (binade q - 23) in
    inject_Z (round_half_even (q / ulp)) * ulp.

Definition rounding_cast (dt : np_dtype) (x : Q) : Q :=
  match dt with
  | float32 => round_float32 x
  | _ => x
  end.

(** Statistics with a mean of 1 and a standard deviation of 2. *)
Definition odd_stats : Globals := mkGlobals 1 2 1 2.

Definition no_augment : ndarray -> ndarray -> M (ndarray * ndarray) :=
  fun patch target => ret (patch, target).

Definition rng_example : Generator :=
  mkGenerator (fun k => Z.of_nat (7 * k + 3)) 0.

Definition unit_stats : Globals := mkGlobals 0 1 0 1.

Definition two_patch_dataset : CAREDataset :=
  __init__ two_patches two_patches false.

(** The seven patches that [create_patches] cuts from [arange25] with patch
    size (2, 2) and the generator [rng_example]. *)
Definition arange25_patches : ndarray :=
  Eval vm_compute in
    match fst (create_patches exact_cast arange25 arange25 [2; 2]%Z
                 rng_example) with
    | Ok (image_stack, _) => image_stack
    | Raise _ => arange25
    end.

(** A stack of two (3, 3) samples, and the six patches that
    [create_patches] cuts from it with patch size (2, 2) and the generator
    [rng_example], three from each sample. *)
Definition two_samples : ndarray :=
  mk_ndarray [2; 3; 3]%nat int64
    (map (fun k => inject_Z (Z.of_nat k)) (seq 0 18)).

Definition two_samples_patches : ndarray :=
  Eval vm_compute in
    match fst (create_patches exact_cast two_samples two_samples [2; 2]%Z
                 rng_example) with
    | Ok (image_stack, _) => image_stack
    | Raise _ => two_samples
    end.

(** A stack of (5, 5) samples without any sample, and a stack of two
    (6, 6) samples. *)
Definition no_samples : ndarray := mk_ndarray [0; 5; 5]%nat int64 [].

Definition two_larger_samples : ndarray :=
  mk_ndarray [2; 6; 6]%nat int64
    (map (fun k => inject_Z (Z.of_nat k)) (seq 0 72)).

(** A model that returns its input. *)
Definition identity_model : ndarray -> ndarray := fun image_batch => image_batch.

(** Two listings of the same two file names, a split fraction of 0.8 in
    integers, and a toy training set-up: the weights count the steps. *)
Definition low_files : list string := ["img_0.tif"; "img_1.tif"]%string.

Definition gt_files : list string := ["img_0.tif"; "img_1.tif"]%string.

Definition four_fifths (n : nat) : Z := Z.of_nat (n * 4 / 5).

Definition counting_step (params : nat) (batch target : ndarray)
  : nat * ndarray :=
  (S params, batch).

Definition first_pixel_loss (output target : ndarray) : Q :=
  hd 0 (data output) - hd 0 (data target).

Definition one_batch : list (ndarray * ndarray) :=
  [(two_patches, two_patches)].

(** A training step whose output depends on the weights: the batch
    multiplied by the number of steps made so far.  Two batches of one
    (2, 2) image each, of first pixels 1 and 5, and the variables of the
    training cell after three epochs over them. *)
Definition scaling_step (params : nat) (batch target : ndarray)
  : nat * ndarray :=
  (S params,
   mk_ndarray (shape batch) (dtype batch)
     (map (Qmult (inject_Z (Z.of_nat params))) (data batch))).

Definition first_batch : ndarray :=
  mk_ndarray [1; 1; 2; 2]%nat float32 [1; 2; 3; 4].

Definition last_batch : ndarray :=
  mk_ndarray [1; 1; 2; 2]%nat float32 [5; 6; 7; 8].

Definition two_batches : list (ndarray * ndarray) :=
  [(first_batch, first_batch); (last_batch, last_batch)].

Definition three_epochs_vars : loop_vars nat :=
  Eval vm_compute in
    match training_loop nat scaling_step (fun _ b => b) first_pixel_loss
            (fun _ => two_batches) one_batch 2 3 0%nat with
    | Finished vars => vars
    | Crashed _ vars => vars
    end.

(** * Lemmas *)

(** ** The monad *)

Lemma bind_Ok {A B : Type} (m : M A) (k : A -> M B) g b g' :
  bind m k g = (Ok b, g') ->
  exists a g1, m g = (Ok a, g1) /\ k a g1 = (Ok b, g').
Proof.
  unfold bind. destruct (m g) as [[a | e] g1]; intros H.
  - exists a, g1. split; [reflexivity | exact H].
  - discriminate H.
Qed.

Lemma bind_run_Ok {A B : Type} (m : M A) (k : A -> M B) g a g1 :
  m g = (Ok a, g1) -> bind m k g = k a g1.
Proof. unfold bind. intros ->. reflexivity. Qed.

Lemma bind_run_Raise {A B : Type} (m : M A) (k : A -> M B) g e g1 :
  m g = (Raise e, g1) -> bind m k g = (Raise e, g1).
Proof. unfold bind. intros ->. reflexivity. Qed.

Lemma lift_Ok {A : Type} (r : result A) g a g' :
  lift r g = (Ok a, g') -> r = Ok a /\ g' = g.
Proof. unfold lift. intros H. inversion H. split; reflexivity. Qed.

Lemma ret_Ok {A : Type} (x a : A) g g' :
  ret x g = (Ok a, g') -> a = x /\ g' = g.
Proof. unfold ret. intros H. inversion H. split; reflexivity. Qed.

Lemma integers_Ok low high g c g' :
  integers low high g = (Ok c, g') ->
  (low <= c <= high)%Z /\ raw g' = raw g /\ pos g' = S (pos g).
Proof.
  unfold integers. destruct (Z.ltb_spec high low) as [Hlt | Hle]; intros H.
  - discriminate H.
  - destruct (_ || _)%bool; [discriminate H |].
    inversion H; subst; clear H. simpl. split; [| split; reflexivity].
    pose proof (Z.mod_pos_bound (raw g (pos g)) (high - low + 1)) as Hm.
    lia.
Qed.

Lemma integers_run_Ok low high g :
  (int64_min <= low <= high)%Z -> (high <= int64_max)%Z ->
  exists c, integers low high g
            = (Ok c, mkGenerator (raw g) (S (pos g))) /\ (low <= c <= high)%Z.
Proof.
  intros Hle Hhi. unfold integers.
  destruct (Z.ltb_spec high low) as [Hlt | _]; [lia |].
  destruct (Z.ltb_spec low int64_min) as [Hlt | _]; [lia |].
  destruct (Z.ltb_spec int64_max high) as [Hlt | _]; [lia |]. cbn [orb].
  eexists. split; [reflexivity |].
  pose proof (Z.mod_pos_bound (raw g (pos g)) (high - low + 1)) as Hm.
  lia.
Qed.

Lemma integers_run_Raise low high g :
  (high < low)%Z -> integers low high g = (Raise ValueError, g).
Proof.
  intros Hlt. unfold integers.
  destruct (Z.ltb_spec high low) as [_ | Hle]; [reflexivity | lia].
Qed.

(** ** The offsets drawn for one patch *)

Lemma crop_coords_from_Ok i sample_shape patch_size g crop g' :
  crop_coords_from i sample_shape patch_size g = (Ok crop, g') ->
  offsets_in_range i sample_shape crop patch_size
  /\ raw g' = raw g /\ pos g' = (pos g + length patch_size)%nat.
Proof.
  revert i g crop g'.
  induction patch_size as [| p rest IH]; intros i g crop g' H; simpl in H.
  - apply ret_Ok in H as [-> ->]. simpl. repeat split. lia.
  - apply bind_Ok in H as (d & g1 & Hd & H).
    apply lift_Ok in Hd as [Hd ->].
    apply bind_Ok in H as (c & g2 & Hc & H).
    apply bind_Ok in H as (cs & g3 & Hcs & H).
    apply ret_Ok in H as [-> ->].
    apply integers_Ok in Hc as (Hc & Hraw & Hpos).
    apply IH in Hcs as (Hcs & Hraw' & Hpos').
    unfold shape_at in Hd.
    destruct (nth_error sample_shape i) as [d' |] eqn:Hnth; [| discriminate].
    inversion Hd; subst d'. simpl. repeat split.
    + exists d. split; [exact Hnth | exact Hc].
    + exact Hcs.
    + congruence.
    + lia.
Qed.

Lemma offsets_in_range_length i sample_shape crop patch_size :
  offsets_in_range i sample_shape crop patch_size ->
  length crop = length patch_size.
Proof.
  revert i patch_size.
  induction crop as [| c crop IH]; intros i [| p rest] H; simpl in *;
    try contradiction; try reflexivity.
  destruct H as [_ H]. f_equal. eapply IH, H.
Qed.

Lemma offsets_in_range_nth i sample_shape crop patch_size j c p d :
  offsets_in_range i sample_shape crop patch_size ->
  nth_error crop j = Some c ->
  nth_error patch_size j = Some p ->
  nth_error sample_shape (i + j) = Some d ->
  (0 <= c <= Z.of_nat d - p)%Z.
Proof.
  revert i patch_size j.
  induction crop as [| c0 crop IH]; intros i [| p0 rest] j H Hc Hp Hd;
    simpl in H; try contradiction.
  - destruct j; discriminate Hc.
  - destruct H as [(d0 & Hd0 & Hr) H]. destruct j as [| j]; simpl in *.
    + inversion Hc; inversion Hp; subst.
      rewrite Nat.add_0_r in Hd. rewrite Hd in Hd0. inversion Hd0; subst.
      exact Hr.
    + eapply IH; eauto. rewrite <- Hd. f_equal. lia.
Qed.

Lemma nth_error_middle {A : Type} (pre : list A) x post :
  nth_error (pre ++ x :: post) (length pre) = Some x.
Proof.
  rewrite nth_error_app2 by lia. rewrite Nat.sub_diag. reflexivity.
Qed.

Lemma crop_coords_from_run pre sh patch_size g :
  drawable sh patch_size ->
  exists crop g',
    crop_coords_from (length pre) (pre ++ sh) patch_size g = (Ok crop, g').
Proof.
  intros Hv. revert pre g.
  induction Hv as [| d p sh rest Hp Hv IH]; intros pre g; simpl.
  - eexists _, _. reflexivity.
  - unfold shape_at. rewrite nth_error_middle.
    unfold bind at 1. unfold lift at 1.
    destruct (integers_run_Ok 0 (Z.of_nat d - p) g)
      as (c & Hc & _); [unfold int64_min; lia | lia |].
    rewrite (bind_run_Ok _ _ _ _ _ Hc).
    specialize (IH (pre ++ [d]) (mkGenerator (raw g) (S (pos g)))).
    rewrite <- app_assoc in IH. simpl in IH.
    rewrite length_app in IH. simpl in IH. rewrite Nat.add_1_r in IH.
    destruct IH as (cs & g' & IH).
    rewrite (bind_run_Ok _ _ _ _ _ IH). eexists _, _. reflexivity.
Qed.

Lemma crop_coords_run sample_shape patch_size g :
  drawable sample_shape patch_size ->
  exists crop g', crop_coords sample_shape patch_size g = (Ok crop, g').
Proof.
  intros Hv. unfold crop_coords.
  apply (crop_coords_from_run [] sample_shape), Hv.
Qed.

(** ** A patch that fits has the shape of the patch size *)

Lemma slice_bound_inside d x :
  (0 <= x <= Z.of_nat d)%Z -> slice_bound d x = Z.to_nat x.
Proof.
  intros H. unfold slice_bound.
  destruct (Z.ltb_spec x 0); [lia |]. f_equal. lia.
Qed.

Lemma slice_range_inside d c p :
  (0 <= p)%Z -> (0 <= c <= Z.of_nat d - p)%Z ->
  slice_range d (c, (c + p)%Z) = (Z.to_nat c, Z.to_nat p).
Proof.
  intros Hp Hc. unfold slice_range. simpl.
  rewrite !slice_bound_inside by lia. f_equal. lia.
Qed.

Lemma slice_shape_fits pre sh crop patch_size :
  offsets_in_range (length pre) (pre ++ sh) crop patch_size ->
  length sh = length patch_size ->
  Forall (fun p => (0 <= p)%Z) patch_size ->
  slice_shape sh (map Some (crop_slices crop patch_size))
  = map Z.to_nat patch_size.
Proof.
  revert pre crop patch_size.
  induction sh as [| d sh IH]; intros pre crop patch_size Hr Hlen Hpos.
  - destruct patch_size; [| discriminate Hlen].
    destruct crop; reflexivity.
  - destruct patch_size as [| p rest]; [discriminate Hlen |].
    destruct crop as [| c crop]; [contradiction Hr |].
    simpl in Hr. destruct Hr as [(d0 & Hd0 & Hc) Hr].
    rewrite nth_error_middle in Hd0. inversion Hd0; subst d0.
    inversion Hpos; subst.
    unfold crop_slices. cbn [combine map slice_shape axis_range fst snd].
    rewrite slice_range_inside by assumption.
    cbn [snd map]. f_equal.
    apply (IH (pre ++ [d])).
    + rewrite length_app, <- app_assoc. simpl. rewrite Nat.add_1_r. exact Hr.
    + simpl in Hlen. lia.
    + assumption.
Qed.

Lemma valid_patch_size_length sample_shape patch_size :
  valid_patch_size sample_shape patch_size ->
  length sample_shape = length patch_size.
Proof. intros Hv. induction Hv; simpl; congruence. Qed.

Lemma valid_patch_size_nonneg sample_shape patch_size :
  valid_patch_size sample_shape patch_size ->
  Forall (fun p => (0 <= p)%Z) patch_size.
Proof. intros Hv. induction Hv; constructor; [lia | assumption]. Qed.

Section ExtractPatch.

Variable cast : np_dtype -> Q -> Q.

Lemma extract_patch_dtype sample crop patch_size patch :
  extract_patch cast sample crop patch_size = Ok patch ->
  dtype patch = float32.
Proof.
  unfold extract_patch, getitem_ellipsis.
  destruct (_ <? _)%nat; simpl; intros H; inversion H. reflexivity.
Qed.

(** With as many patch sizes as axes and offsets in range, the slices
    select exactly [patch_size] elements on every axis. *)
Lemma extract_patch_fits sample crop patch_size :
  offsets_in_range 0 (shape sample) crop patch_size ->
  length (shape sample) = length patch_size ->
  Forall (fun p => (0 <= p)%Z) patch_size ->
  exists patch,
    extract_patch cast sample crop patch_size = Ok patch
    /\ shape patch = map Z.to_nat patch_size.
Proof.
  intros Hr Hlen Hpos.
  pose proof (offsets_in_range_length _ _ _ _ Hr) as Hcl.
  unfold extract_patch, getitem_ellipsis, crop_slices.
  rewrite length_map, length_combine, Hcl, Nat.min_id, Hlen.
  rewrite Nat.ltb_irrefl, Nat.sub_diag. simpl.
  eexists. split; [reflexivity |]. simpl.
  apply (slice_shape_fits []); assumption.
Qed.

End ExtractPatch.

(** ** Arrays: indexing and stacking *)

Lemma getitem0_Ok a index b :
  getitem0 a index = Ok b ->
  shape b = tl (shape a) /\ dtype b = dtype a.
Proof.
  unfold getitem0. destruct (shape a) as [| n rest]; [discriminate |].
  destruct (_ && _); [| discriminate].
  intros H. inversion H. split; reflexivity.
Qed.

Lemma getitem0_run a n rest s :
  shape a = n :: rest -> (s < n)%nat ->
  exists b, getitem0 a (Z.of_nat s) = Ok b /\ shape b = rest.
Proof.
  intros Hsh Hs. unfold getitem0. rewrite Hsh.
  destruct (Z.ltb_spec (Z.of_nat s) 0); [lia |].
  destruct (Z.leb_spec 0 (Z.of_nat s)); [| lia].
  destruct (Z.ltb_spec (Z.of_nat s) (Z.of_nat n)); [| lia].
  simpl. eexists. split; reflexivity.
Qed.

Lemma np_stack_run arrays sh :
  arrays <> [] ->
  Forall (fun a => shape a = sh) arrays ->
  exists stacked,
    np_stack arrays = Ok stacked
    /\ shape stacked = length arrays :: sh
    /\ data stacked = flat_map data arrays.
Proof.
  intros Hne Hall. destruct arrays as [| a rest]; [congruence |].
  inversion Hall as [| ? ? Ha Hrest]; subst. unfold np_stack.
  replace (forallb _ rest) with true.
  - eexists. repeat split.
  - symmetry. apply forallb_forall. intros b Hb.
    rewrite Forall_forall in Hrest. rewrite (Hrest b Hb).
    destruct (list_eq_dec Nat.eq_dec (shape a) (shape a)); congruence.
Qed.

Lemma np_stack_Ok arrays stacked :
  np_stack arrays = Ok stacked ->
  shape stacked = length arrays :: tl (shape stacked)
  /\ data stacked = flat_map data arrays
  /\ dtype stacked = dtype (hd stacked arrays).
Proof.
  unfold np_stack. destruct arrays as [| a rest]; [discriminate |].
  destruct (forallb _ rest); [| discriminate].
  intros H. inversion H. simpl. repeat split.
Qed.

(** ** The run of create_patches *)

Section CreatePatches.

Variable cast : np_dtype -> Q -> Q.

Lemma patch_pair_Ok sample target_sample patch_size g patch target_patch g' :
  patch_pair cast sample target_sample patch_size g
  = (Ok (patch, target_patch), g') ->
  exists crop,
    drawn_pair cast sample target_sample patch_size crop patch target_patch.
Proof.
  unfold patch_pair. intros H.
  apply bind_Ok in H as (crop & g1 & Hcrop & H).
  apply bind_Ok in H as (p & g2 & Hp & H).
  apply lift_Ok in Hp as [Hp ->].
  apply bind_Ok in H as (t & g3 & Ht & H).
  apply lift_Ok in Ht as [Ht ->].
  apply ret_Ok in H as [H ->]. inversion H; subst.
  exists crop. split; [| split]; eauto.
Qed.

Lemma patches_loop_Ok n sample target_sample patch_size acc g acc' g' :
  patches_loop cast n sample target_sample patch_size acc g
  = (Ok acc', g') ->
  exists es : list (list Z * (ndarray * ndarray)),
    length es = n
    /\ Forall (fun e => drawn_pair cast sample target_sample patch_size
                          (fst e) (fst (snd e)) (snd (snd e))) es
    /\ fst acc' = fst acc ++ map (fun e => fst (snd e)) es
    /\ snd acc' = snd acc ++ map (fun e => snd (snd e)) es.
Proof.
  revert acc g.
  induction n as [| n IH]; intros acc g H; simpl in H.
  - apply ret_Ok in H as [-> _]. exists [].
    simpl. rewrite !app_nil_r. repeat split. constructor.
  - apply bind_Ok in H as ([p t] & g1 & Hpair & H).
    apply patch_pair_Ok in Hpair as (crop & Hpair).
    apply IH in H as (es & Hlen & Hall & Hfst & Hsnd). simpl in Hfst, Hsnd.
    exists ((crop, (p, t)) :: es). simpl. repeat split.
    + congruence.
    + constructor; assumption.
    + rewrite Hfst, <- app_assoc. reflexivity.
    + rewrite Hsnd, <- app_assoc. reflexivity.
Qed.

Lemma samples_loop_Ok ss image_array target_array patch_size acc g acc' g' :
  samples_loop cast ss image_array target_array patch_size acc g
  = (Ok acc', g') ->
  exists es : list extraction,
    Forall (extraction_ok cast image_array target_array patch_size) es
    /\ map ex_sample es
       = flat_map (fun s => repeat s (patch_count image_array patch_size))
           ss
    /\ fst acc' = fst acc ++ map ex_patch es
    /\ snd acc' = snd acc ++ map ex_target es.
Proof.
  revert acc g.
  induction ss as [| s ss IH]; intros acc g H; simpl in H.
  - apply ret_Ok in H as [-> _]. exists [].
    simpl. rewrite !app_nil_r. repeat split. constructor.
  - apply bind_Ok in H as (sample & g1 & Hs & H).
    apply lift_Ok in Hs as [Hs ->].
    apply bind_Ok in H as (tsample & g2 & Ht & H).
    apply lift_Ok in Ht as [Ht ->].
    apply bind_Ok in H as (acc1 & g3 & Hloop & H).
    apply patches_loop_Ok in Hloop as (ps & Hlen & Hall & Hfst & Hsnd).
    apply IH in H as (es & Hes & Hidx & Hfst' & Hsnd').
    destruct (getitem0_Ok _ _ _ Hs) as [Hshape _]. rewrite Hshape in Hlen.
    exists (map (fun e => mkExtraction s (fst e) (fst (snd e))
                            (snd (snd e))) ps ++ es).
    repeat split.
    + apply Forall_app. split; [| exact Hes].
      apply Forall_map. eapply Forall_impl; [| exact Hall].
      intros e He. exists sample, tsample. simpl. auto.
    + rewrite map_app, map_map. simpl. rewrite Hidx. f_equal.
      unfold patch_count. rewrite <- Hlen.
      clear. induction ps; simpl; congruence.
    + rewrite Hfst', Hfst, map_app, map_map, <- app_assoc. reflexivity.
    + rewrite Hsnd', Hsnd, map_app, map_map, <- app_assoc. reflexivity.
Qed.

Lemma create_patches_Ok image_array target_array patch_size g
    image_stack target_stack g' :
  create_patches cast image_array target_array patch_size g
  = (Ok (image_stack, target_stack), g') ->
  exists n_samples es,
    shape_at (shape image_array) 0 = Ok n_samples
    /\ Forall (extraction_ok cast image_array target_array patch_size) es
    /\ map ex_sample es
       = flat_map (fun s => repeat s (patch_count image_array patch_size))
           (seq 0 n_samples)
    /\ np_stack (map ex_patch es) = Ok image_stack
    /\ np_stack (map ex_target es) = Ok target_stack.
Proof.
  unfold create_patches. intros H.
  apply bind_Ok in H as (n & g1 & Hn & H).
  apply lift_Ok in Hn as [Hn ->].
  apply bind_Ok in H as ([ips tps] & g2 & Hloop & H).
  apply samples_loop_Ok in Hloop as (es & Hes & Hidx & Hfst & Hsnd).
  simpl in Hfst, Hsnd. subst ips tps.
  apply bind_Ok in H as (istack & g3 & Hi & H).
  apply lift_Ok in Hi as [Hi ->].
  apply bind_Ok in H as (tstack & g4 & Ht & H).
  apply lift_Ok in Ht as [Ht ->].
  apply ret_Ok in H as [H _]. inversion H; subst.
  exists n, es. auto.
Qed.

End CreatePatches.

(** ** The number of patches per sample *)

Lemma wrap64_small z :
  (- 2 ^ 63 <= z < 2 ^ 63)%Z -> wrap64 z = z.
Proof.
  intros H. unfold wrap64. rewrite Z.mod_small; lia.
Qed.

Lemma wrap64_mul_l a x : wrap64 (wrap64 a * x) = wrap64 (a * x).
Proof.
  unfold wrap64. f_equal.
  rewrite (Z.mod_eq (a + 2 ^ 63) (2 ^ 64)) by lia.
  replace ((a + 2 ^ 63 - 2 ^ 64 * ((a + 2 ^ 63) / 2 ^ 64) - 2 ^ 63) * x
           + 2 ^ 63)%Z
    with (a * x + 2 ^ 63 + (- ((a + 2 ^ 63) / 2 ^ 64) * x) * 2 ^ 64)%Z
    by ring.
  apply Z_mod_plus_full.
Qed.

Lemma np_prod_from l a :
  fold_left (fun acc x => wrap64 (acc * x)) l (wrap64 a)
  = wrap64 (a * prodZ l).
Proof.
  revert a. induction l as [| x l IH]; intros a; simpl.
  - rewrite Z.mul_1_r. reflexivity.
  - rewrite wrap64_mul_l, IH. f_equal. ring.
Qed.

Lemma np_prod_wrap l : np_prod l = wrap64 (prodZ l).
Proof.
  unfold np_prod. change 1%Z with (wrap64 1) at 1.
  rewrite np_prod_from. f_equal. ring.
Qed.

Lemma np_prod_exact l :
  (- 2 ^ 63 <= prodZ l < 2 ^ 63)%Z -> np_prod l = prodZ l.
Proof. intros H. rewrite np_prod_wrap. apply wrap64_small, H. Qed.

Lemma prodZ_of_nat sh : prodZ (map Z.of_nat sh) = Z.of_nat (size_of sh).
Proof.
  induction sh as [| d sh IH]; simpl; [reflexivity |].
  rewrite IH. lia.
Qed.

Lemma valid_patch_size_volume sample_shape patch_size :
  valid_patch_size sample_shape patch_size ->
  (1 <= prodZ patch_size <= Z.of_nat (size_of sample_shape))%Z.
Proof.
  intros Hv. induction Hv as [| d p sh rest Hp Hv IH]; simpl; [lia |].
  rewrite Nat2Z.inj_mul. nia.
Qed.

Lemma valid_patch_size_drawable sample_shape patch_size :
  valid_patch_size sample_shape patch_size ->
  (Z.of_nat (size_of sample_shape) <= int64_max)%Z ->
  drawable sample_shape patch_size.
Proof.
  intros Hv. induction Hv as [| d p sh rest Hp Hv IH]; intros Hsz.
  - constructor.
  - pose proof (valid_patch_size_volume _ _ Hv) as Hvol.
    simpl in Hsz. rewrite Nat2Z.inj_mul in Hsz.
    constructor; [nia |]. apply IH. nia.
Qed.

Lemma Qceiling_div a b :
  (0 < b)%Z -> Qceiling (inject_Z a / inject_Z b) = (- (- a / b))%Z.
Proof.
  intros Hb. destruct b as [| b | b]; try lia.
  unfold Qceiling, Qfloor, Qdiv, Qmult, Qinv, Qopp, inject_Z. simpl.
  rewrite Z.mul_1_r. reflexivity.
Qed.

Lemma n_patches_valid sample_shape patch_size :
  valid_patch_size sample_shape patch_size ->
  (Z.of_nat (size_of sample_shape) < 2 ^ 53)%Z ->
  is_ceiling (n_patches sample_shape patch_size)
    (Z.of_nat (size_of sample_shape)) (prodZ patch_size)
  /\ (1 <= n_patches sample_shape patch_size)%Z.
Proof.
  intros Hv Hsz. pose proof (valid_patch_size_volume _ _ Hv) as Hvol.
  unfold n_patches.
  rewrite !np_prod_exact; rewrite ?prodZ_of_nat; try lia.
  destruct (Z.eqb_spec (prodZ patch_size) 0) as [H0 | _]; [lia |].
  rewrite Qceiling_div by lia.
  set (a := Z.of_nat (size_of sample_shape)) in *.
  set (b := prodZ patch_size) in *.
  pose proof (Z.div_mod (- a) b ltac:(lia)) as Hdm.
  pose proof (Z.mod_pos_bound (- a) b ltac:(lia)) as Hmb.
  unfold is_ceiling. split; nia.
Qed.

(** ** Extraction with a valid patch size succeeds *)

Section CreatePatchesRuns.

Variable cast : np_dtype -> Q -> Q.

Lemma drawn_pair_shapes sample target_sample patch_size crop
    patch target_patch :
  valid_patch_size (shape sample) patch_size ->
  shape target_sample = shape sample ->
  drawn_pair cast sample target_sample patch_size crop patch target_patch ->
  shape patch = map Z.to_nat patch_size
  /\ shape target_patch = map Z.to_nat patch_size.
Proof.
  intros Hv Hsh ((g & g' & Hcrop) & Hp & Ht).
  apply crop_coords_from_Ok in Hcrop as (Hr & _).
  pose proof (valid_patch_size_length _ _ Hv) as Hlen.
  pose proof (valid_patch_size_nonneg _ _ Hv) as Hpos.
  destruct (extract_patch_fits cast sample crop patch_size Hr Hlen Hpos)
    as (p & Hp' & Hshape).
  rewrite <- Hsh in Hr, Hlen.
  destruct (extract_patch_fits cast target_sample crop patch_size
              Hr Hlen Hpos) as (t & Ht' & Hshape').
  split; congruence.
Qed.

Lemma patch_pair_run sample target_sample patch_size g :
  valid_patch_size (shape sample) patch_size ->
  drawable (shape sample) patch_size ->
  shape target_sample = shape sample ->
  exists pair g',
    patch_pair cast sample target_sample patch_size g = (Ok pair, g').
Proof.
  intros Hv Hdr Hsh.
  destruct (crop_coords_run _ _ g Hdr) as (crop & g' & Hcrop).
  pose proof Hcrop as Hr. apply crop_coords_from_Ok in Hr as (Hr & _).
  pose proof (valid_patch_size_length _ _ Hv) as Hlen.
  pose proof (valid_patch_size_nonneg _ _ Hv) as Hpos.
  destruct (extract_patch_fits cast sample crop patch_size Hr Hlen Hpos)
    as (p & Hp & _).
  rewrite <- Hsh in Hr, Hlen.
  destruct (extract_patch_fits cast target_sample crop patch_size
              Hr Hlen Hpos) as (t & Ht & _).
  exists (p, t), g'. unfold patch_pair.
  rewrite (bind_run_Ok _ _ _ _ _ Hcrop).
  unfold bind, lift, ret. rewrite Hp, Ht. reflexivity.
Qed.

Lemma patches_loop_run n sample target_sample patch_size acc g :
  valid_patch_size (shape sample) patch_size ->
  drawable (shape sample) patch_size ->
  shape target_sample = shape sample ->
  exists acc' g',
    patches_loop cast n sample target_sample patch_size acc g
    = (Ok acc', g').
Proof.
  intros Hv Hdr Hsh. revert acc g.
  induction n as [| n IH]; intros acc g; simpl.
  - eexists _, _. reflexivity.
  - destruct (patch_pair_run _ _ _ g Hv Hdr Hsh) as ([p t] & g1 & Hpair).
    rewrite (bind_run_Ok _ _ _ _ _ Hpair). apply IH.
Qed.

Lemma samples_loop_run ss image_array target_array patch_size acc g
    n sample_shape :
  shape image_array = n :: sample_shape ->
  shape target_array = n :: sample_shape ->
  valid_patch_size sample_shape patch_size ->
  drawable sample_shape patch_size ->
  Forall (fun s => (s < n)%nat) ss ->
  exists acc' g',
    samples_loop cast ss image_array target_array patch_size acc g
    = (Ok acc', g').
Proof.
  intros Hi Ht Hv Hdr Hss. revert acc g.
  induction Hss as [| s ss Hs Hss IH]; intros acc g; simpl.
  - eexists _, _. reflexivity.
  - destruct (getitem0_run _ _ _ s Hi Hs) as (sample & Hsample & Hshape).
    destruct (getitem0_run _ _ _ s Ht Hs) as (tsample & Htsample & Htshape).
    unfold bind at 1. unfold lift at 1. rewrite Hsample.
    unfold bind at 1. unfold lift at 1. rewrite Htsample.
    rewrite <- Hshape in Hv, Hdr. rewrite <- Hshape in Htshape.
    destruct (patches_loop_run
                (Z.to_nat (n_patches (shape sample) patch_size))
                sample tsample patch_size acc g Hv Hdr Htshape)
      as (acc1 & g1 & Hloop).
    rewrite (bind_run_Ok _ _ _ _ _ Hloop). apply IH.
Qed.

Lemma extraction_ok_shapes image_array target_array patch_size e :
  valid_patch_size (tl (shape image_array)) patch_size ->
  shape target_array = shape image_array ->
  extraction_ok cast image_array target_array patch_size e ->
  shape (ex_patch e) = map Z.to_nat patch_size
  /\ shape (ex_target e) = map Z.to_nat patch_size.
Proof.
  intros Hv Hsh (sample & tsample & Hs & Ht & Hpair).
  apply getitem0_Ok in Hs as [Hs _]. apply getitem0_Ok in Ht as [Ht _].
  eapply drawn_pair_shapes; [| | exact Hpair].
  - rewrite Hs. exact Hv.
  - congruence.
Qed.

Lemma length_flat_map_repeat (ss : list nat) (k : nat) :
  length (flat_map (fun s => repeat s k) ss) = (length ss * k)%nat.
Proof.
  induction ss as [| s ss IH]; simpl; [reflexivity |].
  rewrite length_app, repeat_length, IH. reflexivity.
Qed.

Lemma total_patch_count_mul image_array patch_size n_samples :
  total_patch_count image_array patch_size n_samples
  = (n_samples * patch_count image_array patch_size)%nat.
Proof.
  unfold total_patch_count. generalize 0%nat.
  induction n_samples as [| n IH]; intros start; simpl; [reflexivity |].
  rewrite IH. reflexivity.
Qed.

Lemma create_patches_run image_array target_array patch_size g
    n sample_shape :
  shape image_array = n :: sample_shape ->
  shape target_array = n :: sample_shape ->
  (1 <= n)%nat ->
  valid_patch_size sample_shape patch_size ->
  (Z.of_nat (size_of sample_shape) < 2 ^ 53)%Z ->
  exists image_stack target_stack g',
    create_patches cast image_array target_array patch_size g
    = (Ok (image_stack, target_stack), g')
    /\ shape image_stack
       = total_patch_count image_array patch_size n
         :: map Z.to_nat patch_size
    /\ shape target_stack
       = total_patch_count image_array patch_size n
         :: map Z.to_nat patch_size.
Proof.
  intros Hi Ht Hn Hv Hsz.
  assert (Hss : Forall (fun s => (s < n)%nat) (seq 0 n)).
  { apply Forall_forall. intros s Hs. apply in_seq in Hs. lia. }
  assert (Hdr : drawable sample_shape patch_size).
  { apply valid_patch_size_drawable; [exact Hv |]. unfold int64_max. lia. }
  destruct (samples_loop_run (seq 0 n) image_array target_array patch_size
              ([], []) g n sample_shape Hi Ht Hv Hdr Hss)
    as ([ips tps] & g1 & Hloop).
  pose proof Hloop as Htrace.
  apply samples_loop_Ok in Htrace as (es & Hes & Hidx & Hfst & Hsnd).
  simpl in Hfst, Hsnd. subst ips tps.
  assert (Hlen : length es = total_patch_count image_array patch_size n).
  { rewrite <- (length_map ex_sample), Hidx, length_flat_map_repeat.
    rewrite length_seq, total_patch_count_mul. reflexivity. }
  assert (Hcount : (1 <= patch_count image_array patch_size)%nat).
  { unfold patch_count. rewrite Hi. simpl.
    destruct (n_patches_valid _ _ Hv Hsz) as [_ H1]. lia. }
  assert (Hne : es <> []).
  { intros ->. simpl in Hlen. rewrite total_patch_count_mul in Hlen. nia. }
  assert (Hshapes : Forall (fun e =>
            shape (ex_patch e) = map Z.to_nat patch_size
            /\ shape (ex_target e) = map Z.to_nat patch_size) es).
  { eapply Forall_impl; [| exact Hes]. intros e He.
    eapply extraction_ok_shapes; [| | exact He].
    - rewrite Hi. exact Hv.
    - congruence. }
  destruct (np_stack_run (map ex_patch es) (map Z.to_nat patch_size))
    as (istack & Histack & Hishape & _).
  { destruct es; [congruence | discriminate]. }
  { apply Forall_map. eapply Forall_impl; [| exact Hshapes].
    intros e [H _]. exact H. }
  destruct (np_stack_run (map ex_target es) (map Z.to_nat patch_size))
    as (tstack & Htstack & Htshape & _).
  { destruct es; [congruence | discriminate]. }
  { apply Forall_map. eapply Forall_impl; [| exact Hshapes].
    intros e [_ H]. exact H. }
  exists istack, tstack, g1. split; [| split].
  - unfold create_patches. rewrite Hi. unfold shape_at.
    cbn [nth_error]. unfold bind at 1. unfold lift at 1.
    rewrite (bind_run_Ok _ _ _ _ _ Hloop).
    unfold bind, lift, ret. rewrite Histack, Htstack. reflexivity.
  - rewrite Hishape, length_map, Hlen. reflexivity.
  - rewrite Htshape, length_map, Hlen. reflexivity.
Qed.

End CreatePatchesRuns.

(** ** A patch size that exceeds the sample *)

Lemma crop_coords_from_raise pre sh1 d sh2 ps1 p ps2 g :
  drawable sh1 ps1 ->
  (Z.of_nat d < p)%Z ->
  crop_coords_from (length pre) (pre ++ sh1 ++ d :: sh2) (ps1 ++ p :: ps2) g
  = (Raise ValueError, mkGenerator (raw g) (pos g + length ps1)).
Proof.
  intros Hv Hd. revert pre g.
  induction Hv as [| d1 p1 sh1 ps1 Hp Hv IH]; intros pre g; simpl.
  - unfold shape_at. rewrite nth_error_middle.
    unfold bind at 1. unfold lift at 1.
    assert (Hlt : (Z.of_nat d - p < 0)%Z) by lia.
    rewrite (bind_run_Raise _ _ _ _ _ (integers_run_Raise 0 _ g Hlt)).
    rewrite Nat.add_0_r. destruct g; reflexivity.
  - unfold shape_at. rewrite nth_error_middle.
    unfold bind at 1. unfold lift at 1.
    destruct (integers_run_Ok 0 (Z.of_nat d1 - p1) g) as (c & Hc & _);
      [unfold int64_min; lia | lia |].
    rewrite (bind_run_Ok _ _ _ _ _ Hc).
    specialize (IH (pre ++ [d1]) (mkGenerator (raw g) (S (pos g)))).
    rewrite <- app_assoc in IH. simpl in IH.
    rewrite length_app in IH. simpl in IH. rewrite Nat.add_1_r in IH.
    rewrite (bind_run_Raise _ _ _ _ _ IH). f_equal. f_equal. lia.
Qed.

Section OversizedPatch.

Variable cast : np_dtype -> Q -> Q.

Lemma patches_loop_raise n sample target_sample patch_size acc g e g' :
  crop_coords (shape sample) patch_size g = (Raise e, g') ->
  patches_loop cast (S n) sample target_sample patch_size acc g
  = (Raise e, g').
Proof.
  intros H. simpl. unfold patch_pair.
  rewrite (bind_run_Raise _ _ _ _ _
             (bind_run_Raise _ _ _ _ _ H)).
  reflexivity.
Qed.

Lemma samples_loop_no_patch ss image_array target_array patch_size acc g
    n sample_shape :
  shape image_array = n :: sample_shape ->
  shape target_array = n :: sample_shape ->
  Z.to_nat (n_patches sample_shape patch_size) = 0%nat ->
  Forall (fun s => (s < n)%nat) ss ->
  samples_loop cast ss image_array target_array patch_size acc g
  = (Ok acc, g).
Proof.
  intros Hi Ht Hcount Hss.
  induction Hss as [| s ss Hs Hss IH]; simpl; [reflexivity |].
  destruct (getitem0_run _ _ _ s Hi Hs) as (sample & Hsample & Hshape).
  destruct (getitem0_run _ _ _ s Ht Hs) as (tsample & Htsample & _).
  unfold bind at 1. unfold lift at 1. rewrite Hsample.
  unfold bind at 1. unfold lift at 1. rewrite Htsample.
  rewrite Hshape, Hcount. simpl. unfold bind at 1. unfold ret at 1.
  exact IH.
Qed.

Lemma samples_loop_raise n_samples image_array target_array patch_size
    acc g e g' n sample_shape :
  shape image_array = n :: sample_shape ->
  shape target_array = n :: sample_shape ->
  (1 <= n)%nat ->
  (1 <= n_patches sample_shape patch_size)%Z ->
  crop_coords sample_shape patch_size g = (Raise e, g') ->
  samples_loop cast (seq 0 (S n_samples)) image_array target_array
    patch_size acc g
  = (Raise e, g').
Proof.
  intros Hi Ht Hn Hcount Hcrop. simpl.
  destruct (getitem0_run _ _ _ 0%nat Hi Hn) as (sample & Hsample & Hshape).
  destruct (getitem0_run _ _ _ 0%nat Ht Hn) as (tsample & Htsample & _).
  unfold bind at 1. unfold lift at 1. simpl in Hsample. rewrite Hsample.
  unfold bind at 1. unfold lift at 1. simpl in Htsample. rewrite Htsample.
  rewrite Hshape.
  destruct (Z.to_nat (n_patches sample_shape patch_size)) as [| k] eqn:Hk;
    [lia |].
  rewrite <- Hshape in Hcrop.
  rewrite (bind_run_Raise _ _ _ _ _
             (patches_loop_raise k sample tsample patch_size acc g e g'
                Hcrop)).
  reflexivity.
Qed.

End OversizedPatch.

(** ** Buffers of slices and stacks *)

Lemma slice_bound_le d x : (slice_bound d x <= d)%nat.
Proof.
  unfold slice_bound. destruct (Z.ltb_spec x 0); lia.
Qed.

Lemma axis_range_le d s :
  (fst (axis_range d s) + snd (axis_range d s) <= d)%nat.
Proof.
  destruct s as [[a b] |]; simpl; [| lia].
  pose proof (slice_bound_le d a). pose proof (slice_bound_le d b). lia.
Qed.

Lemma chunks_length sz n l :
  (n * sz <= length l)%nat ->
  length (chunks sz n l) = n
  /\ Forall (fun c => length c = sz) (chunks sz n l).
Proof.
  revert l. induction n as [| n IH]; intros l Hl; simpl.
  - split; [reflexivity | constructor].
  - simpl in Hl. destruct (IH (skipn sz l)) as [Hlen Hall].
    + rewrite length_skipn. lia.
    + split; [congruence |]. constructor; [| exact Hall].
      rewrite length_firstn. lia.
Qed.

Lemma length_flat_map_const {A B : Type} (f : A -> list B) (l : list A) m :
  Forall (fun x => length (f x) = m) l ->
  length (flat_map f l) = (length l * m)%nat.
Proof.
  induction 1 as [| x l Hx Hl IH]; simpl; [reflexivity |].
  rewrite length_app, Hx, IH. reflexivity.
Qed.

Lemma slice_data_length sh sl l :
  length l = size_of sh ->
  length (slice_data sh sl l) = size_of (slice_shape sh sl).
Proof.
  revert sl l. induction sh as [| d sh IH]; intros sl l Hl.
  - destruct sl; exact Hl.
  - destruct sl as [| s sl]; [exact Hl |].
    cbn [slice_data slice_shape].
    pose proof (axis_range_le d s) as Hle.
    destruct (axis_range d s) as [lo len]. cbn [fst snd] in *.
    simpl in Hl.
    destruct (chunks_length (size_of sh) len (skipn (lo * size_of sh) l))
      as [Hn Hall].
    { rewrite length_skipn. nia. }
    rewrite (length_flat_map_const _ _ (size_of (slice_shape sh sl))).
    + rewrite Hn. reflexivity.
    + eapply Forall_impl; [| exact Hall]. intros c Hc. apply IH, Hc.
Qed.

Lemma getitem0_well_formed a index b :
  well_formed a -> getitem0 a index = Ok b -> well_formed b.
Proof.
  unfold well_formed, getitem0. intros Hwf.
  destruct (shape a) as [| n rest]; [discriminate |].
  set (i := (if (index <? 0)%Z then _ else _)).
  destruct (Z.leb_spec 0 i) as [Hlo |]; [| discriminate].
  destruct (Z.ltb_spec i (Z.of_nat n)) as [Hhi |]; [| discriminate].
  simpl. intros H. inversion H; subst b; clear H. simpl.
  rewrite length_firstn, length_skipn. simpl in Hwf. nia.
Qed.

Lemma stack_block (arrays : list ndarray) sz k a :
  Forall (fun b => length (data b) = sz) arrays ->
  nth_error arrays k = Some a ->
  firstn sz (skipn (k * sz) (flat_map data arrays)) = data a.
Proof.
  intros Hall. revert k.
  induction Hall as [| b arrays Hb Hall IH]; intros k Hk.
  - destruct k; discriminate.
  - destruct k as [| k]; simpl in *.
    + injection Hk as <-.
      rewrite firstn_app, Hb, Nat.sub_diag. simpl.
      rewrite app_nil_r, <- Hb. apply firstn_all.
    + rewrite skipn_app, Hb.
      rewrite (skipn_all2 (data b)) by lia. simpl.
      replace (sz + k * sz - sz)%nat with (k * sz)%nat by lia.
      apply IH, Hk.
Qed.

Lemma np_stack_getitem0 arrays stacked k a :
  np_stack arrays = Ok stacked ->
  Forall well_formed arrays ->
  Forall (fun b => dtype b = dtype stacked) arrays ->
  nth_error arrays k = Some a ->
  getitem0 stacked (Z.of_nat k) = Ok a.
Proof.
  intros Hstack Hwf Hdt Hk.
  assert (Hlt : (k < length arrays)%nat).
  { apply nth_error_Some. congruence. }
  unfold np_stack in Hstack.
  destruct arrays as [| a0 rest] eqn:Harr; [discriminate |].
  destruct (forallb _ rest) eqn:Hall; [| discriminate].
  inversion Hstack; subst stacked; clear Hstack.
  assert (Hshapes : Forall (fun b => shape b = shape a0) (a0 :: rest)).
  { constructor; [reflexivity |]. apply Forall_forall. intros b Hb.
    rewrite forallb_forall in Hall. specialize (Hall b Hb).
    destruct (list_eq_dec Nat.eq_dec (shape b) (shape a0));
      [assumption | discriminate]. }
  unfold getitem0. cbn [shape dtype data]. simpl length in *.
  destruct (Z.ltb_spec (Z.of_nat k) 0); [lia |].
  destruct (Z.leb_spec 0 (Z.of_nat k)); [| lia].
  destruct (Z.ltb_spec (Z.of_nat k) (Z.of_nat (S (length rest)))); [| lia].
  cbn [andb]. rewrite Nat2Z.id. f_equal.
  change (data a0 ++ flat_map data rest) with (flat_map data (a0 :: rest)).
  rewrite (stack_block (a0 :: rest) (size_of (shape a0)) k a).
  - rewrite Forall_forall in Hshapes, Hdt.
    pose proof (nth_error_In _ _ Hk) as Hin.
    rewrite <- (Hshapes a Hin). simpl in Hdt. rewrite <- (Hdt a Hin).
    destruct a; reflexivity.
  - rewrite Forall_forall in *. intros b Hb.
    rewrite <- (Hshapes b Hb). apply Hwf, Hb.
  - exact Hk.
Qed.

Section ExtractPatchBuffers.

Variable cast : np_dtype -> Q -> Q.

Lemma extract_patch_well_formed sample crop patch_size patch :
  well_formed sample ->
  extract_patch cast sample crop patch_size = Ok patch ->
  well_formed patch.
Proof.
  unfold well_formed, extract_patch, getitem_ellipsis. intros Hwf.
  destruct (_ <? _)%nat; [discriminate |]. simpl.
  intros H. inversion H; subst; clear H. simpl.
  rewrite length_map. apply slice_data_length, Hwf.
Qed.

(** The patch depends on the shape and the buffer of the sample only. *)
Lemma extract_patch_ext sample sample' crop patch_size :
  shape sample' = shape sample -> data sample' = data sample ->
  extract_patch cast sample' crop patch_size
  = extract_patch cast sample crop patch_size.
Proof.
  intros Hs Hd. unfold extract_patch, getitem_ellipsis.
  rewrite Hs, Hd. destruct (_ <? _)%nat; reflexivity.
Qed.

End ExtractPatchBuffers.

Lemma getitem0_ext a a' index b b' :
  shape a' = shape a -> data a' = data a ->
  getitem0 a index = Ok b -> getitem0 a' index = Ok b' ->
  shape b' = shape b /\ data b' = data b.
Proof.
  unfold getitem0. intros Hs Hd. rewrite Hs, Hd.
  destruct (shape a) as [| n rest]; [discriminate |].
  destruct (_ && _); [| discriminate].
  intros H H'. inversion H; inversion H'. split; reflexivity.
Qed.

(** ** Properties of create_patches *)

Section CreatePatchesClaims.

Variable cast : np_dtype -> Q -> Q.

Lemma extraction_ok_well_formed image_array target_array patch_size e :
  well_formed image_array -> well_formed target_array ->
  extraction_ok cast image_array target_array patch_size e ->
  (well_formed (ex_patch e) /\ dtype (ex_patch e) = float32)
  /\ (well_formed (ex_target e) /\ dtype (ex_target e) = float32).
Proof.
  intros Hi Ht (sample & tsample & Hs & Hts & _ & Hp & Htp).
  split; split.
  - eapply extract_patch_well_formed; [| exact Hp].
    eapply getitem0_well_formed; [exact Hi | exact Hs].
  - eapply extract_patch_dtype, Hp.
  - eapply extract_patch_well_formed; [| exact Htp].
    eapply getitem0_well_formed; [exact Ht | exact Hts].
  - eapply extract_patch_dtype, Htp.
Qed.

Lemma np_stack_float32 arrays stacked :
  np_stack arrays = Ok stacked ->
  Forall (fun a => dtype a = float32) arrays ->
  Forall (fun a => dtype a = dtype stacked) arrays.
Proof.
  intros Hstack Hall.
  destruct (np_stack_Ok _ _ Hstack) as (_ & _ & Hdt).
  destruct arrays as [| a rest]; [constructor |].
  simpl in Hdt. inversion Hall as [| ? ? Ha _]; subst.
  eapply Forall_impl; [| exact Hall]. simpl. intros b Hb. congruence.
Qed.

(** C1. In every run of [create_patches] that returns, the two stacks
    have the same number of patches, and the noisy patch and the target
    patch at the same output index were cut from the same sample index at
    the same offsets.  When the noisy and the target stack have the same
    shape and the same elements, the two returned stacks are equal, so
    that every returned pair satisfies [patch == target] elementwise. *)
Theorem create_patches_pairs_aligned image_array target_array patch_size g
    image_stack target_stack g' :
  well_formed image_array -> well_formed target_array ->
  create_patches cast image_array target_array patch_size g
  = (Ok (image_stack, target_stack), g') ->
  (exists n_pairs,
      shape_at (shape image_stack) 0 = Ok n_pairs
      /\ shape_at (shape target_stack) 0 = Ok n_pairs
      /\ forall k, (k < n_pairs)%nat ->
         exists s crop sample target_sample patch target_patch,
           getitem0 image_array (Z.of_nat s) = Ok sample
           /\ getitem0 target_array (Z.of_nat s) = Ok target_sample
           /\ extract_patch cast sample crop patch_size = Ok patch
           /\ extract_patch cast target_sample crop patch_size
              = Ok target_patch
           /\ getitem0 image_stack (Z.of_nat k) = Ok patch
           /\ getitem0 target_stack (Z.of_nat k) = Ok target_patch)
  /\ (shape target_array = shape image_array ->
      data target_array = data image_array ->
      image_stack = target_stack).
Proof.
  intros Hwi Hwt Hrun.
  apply create_patches_Ok in Hrun
    as (n & es & _ & Hes & _ & Histack & Htstack).
  assert (Hwf : Forall (fun e =>
            (well_formed (ex_patch e) /\ dtype (ex_patch e) = float32)
            /\ (well_formed (ex_target e)
                /\ dtype (ex_target e) = float32)) es).
  { eapply Forall_impl; [| exact Hes]. intros e He.
    exact (extraction_ok_well_formed _ _ _ _ Hwi Hwt He). }
  split.
  - exists (length es).
    destruct (np_stack_Ok _ _ Histack) as (Hsi & _ & _).
    destruct (np_stack_Ok _ _ Htstack) as (Hst & _ & _).
    rewrite length_map in Hsi, Hst.
    split; [rewrite Hsi; reflexivity |].
    split; [rewrite Hst; reflexivity |].
    intros k Hk.
    destruct (nth_error es k) as [e |] eqn:Hnth;
      [| apply nth_error_None in Hnth; lia].
    pose proof (nth_error_In _ _ Hnth) as Hin.
    rewrite Forall_forall in Hes.
    destruct (Hes e Hin) as (sample & tsample & Hs & Hts & _ & Hp & Htp).
    exists (ex_sample e), (ex_crop e), sample, tsample,
      (ex_patch e), (ex_target e).
    repeat (split; [assumption |]). split.
    + apply (np_stack_getitem0 (map ex_patch es)); [assumption | | |].
      * apply Forall_map. eapply Forall_impl; [| exact Hwf].
        intros ? [[H _] _]. exact H.
      * apply np_stack_float32; [assumption |].
        apply Forall_map. eapply Forall_impl; [| exact Hwf].
        intros ? [[_ H] _]. exact H.
      * rewrite nth_error_map, Hnth. reflexivity.
    + apply (np_stack_getitem0 (map ex_target es)); [assumption | | |].
      * apply Forall_map. eapply Forall_impl; [| exact Hwf].
        intros ? [_ [H _]]. exact H.
      * apply np_stack_float32; [assumption |].
        apply Forall_map. eapply Forall_impl; [| exact Hwf].
        intros ? [_ [_ H]]. exact H.
      * rewrite nth_error_map, Hnth. reflexivity.
  - intros Hshape Hdata.
    assert (Heq : map ex_patch es = map ex_target es).
    { apply map_ext_in. intros e Hin. rewrite Forall_forall in Hes.
      destruct (Hes e Hin) as (sample & tsample & Hs & Hts & _ & Hp & Htp).
      destruct (getitem0_ext _ _ _ _ _ Hshape Hdata Hs Hts) as [Hs' Hd'].
      rewrite (extract_patch_ext cast _ _ _ _ Hs' Hd') in Htp.
      congruence. }
    rewrite Heq in Histack. congruence.
Qed.

(** C2. For a stack with at least one sample (and fewer than 2^53
    elements per sample) and a valid patch size, the number of patches
    per sample is the ceiling of the sample volume over the patch volume,
    [create_patches] returns, and the number of pairs it returns, which
    [__len__] reports, is the sum of that number over the samples. *)
Theorem create_patches_count image_array target_array patch_size g
    n sample_shape :
  shape image_array = n :: sample_shape ->
  shape target_array = n :: sample_shape ->
  (1 <= n)%nat ->
  valid_patch_size sample_shape patch_size ->
  (Z.of_nat (size_of sample_shape) < 2 ^ 53)%Z ->
  is_ceiling (n_patches sample_shape patch_size)
    (Z.of_nat (size_of sample_shape)) (prodZ patch_size)
  /\ exists image_stack target_stack g',
       create_patches cast image_array target_array patch_size g
       = (Ok (image_stack, target_stack), g')
       /\ __len__ (__init__ image_stack target_stack false)
          = Ok (list_sum
                  (map (fun _ =>
                          Z.to_nat (n_patches sample_shape patch_size))
                     (seq 0 n)))
       /\ shape_at (shape target_stack) 0
          = __len__ (__init__ image_stack target_stack false).
Proof.
  intros Hi Ht Hn Hv Hsz. split.
  - apply n_patches_valid; assumption.
  - destruct (create_patches_run cast image_array target_array patch_size
                g n sample_shape Hi Ht Hn Hv Hsz)
      as (istack & tstack & g' & Hrun & Hsi & Hst).
    exists istack, tstack, g'. split; [exact Hrun |].
    unfold __len__, __init__. cbn [image_data].
    rewrite Hsi, Hst. unfold total_patch_count, patch_count.
    rewrite Hi. split; reflexivity.
Qed.

(** C3. In every run of [create_patches] that returns, the offsets drawn
    for a patch lie, axis by axis, between 0 and the axis length minus
    the patch length, both included; the offset is 0 on an axis as long
    as the patch; with one non-negative patch length per axis the patch
    has exactly the shape of the patch size, so it lies inside the
    sample; and for (5,5) samples and patch size (2,2) every offset is
    one of 0, 1, 2, 3. *)
Theorem create_patches_offsets_in_range image_array target_array
    patch_size g image_stack target_stack g' :
  create_patches cast image_array target_array patch_size g
  = (Ok (image_stack, target_stack), g') ->
  exists es,
    np_stack (map ex_patch es) = Ok image_stack
    /\ np_stack (map ex_target es) = Ok target_stack
    /\ Forall (fun e =>
         extraction_ok cast image_array target_array patch_size e
         /\ length (ex_crop e) = length patch_size
         /\ (forall i c p d,
               nth_error (ex_crop e) i = Some c ->
               nth_error patch_size i = Some p ->
               nth_error (tl (shape image_array)) i = Some d ->
               (0 <= c <= Z.of_nat d - p)%Z
               /\ (Z.of_nat d = p -> c = 0%Z))
         /\ (length (tl (shape image_array)) = length patch_size ->
             Forall (fun p => (0 <= p)%Z) patch_size ->
             shape (ex_patch e) = map Z.to_nat patch_size)
         /\ (tl (shape image_array) = [5; 5]%nat ->
             patch_size = [2; 2]%Z ->
             Forall (fun c => In c [0; 1; 2; 3]%Z) (ex_crop e))) es.
Proof.
  intros Hrun.
  apply create_patches_Ok in Hrun
    as (n & es & _ & Hes & _ & Histack & Htstack).
  exists es. split; [exact Histack |]. split; [exact Htstack |].
  eapply Forall_impl; [| exact Hes]. intros e He.
  split; [exact He |].
  destruct He as (sample & tsample & Hs & _ & (g1 & g2 & Hcrop) & Hp & _).
  apply getitem0_Ok in Hs as [Hshape _].
  apply crop_coords_from_Ok in Hcrop as (Hr & _).
  rewrite <- Hshape.
  assert (Hbounds : forall i c p d,
             nth_error (ex_crop e) i = Some c ->
             nth_error patch_size i = Some p ->
             nth_error (shape sample) i = Some d ->
             (0 <= c <= Z.of_nat d - p)%Z).
  { intros i c p d Hc Hpi Hd.
    eapply (offsets_in_range_nth 0); eassumption. }
  split; [eapply offsets_in_range_length; eassumption |].
  split; [| split].
  - intros i c p d Hc Hpi Hd.
    specialize (Hbounds i c p d Hc Hpi Hd). split; [exact Hbounds | lia].
  - intros Hlen Hpos.
    destruct (extract_patch_fits cast sample (ex_crop e) patch_size
                Hr Hlen Hpos) as (patch & Hp' & Hsh).
    congruence.
  - intros H55 H22. subst patch_size. rewrite H55 in *.
    destruct (ex_crop e) as [| c0 [| c1 [| c2 crop]]];
      simpl in Hr; try tauto.
    pose proof (Hbounds 0%nat c0 2%Z 5%nat eq_refl eq_refl eq_refl) as H0.
    pose proof (Hbounds 1%nat c1 2%Z 5%nat eq_refl eq_refl eq_refl) as H1.
    simpl in H0, H1.
    constructor; [simpl; lia |]. constructor; [simpl; lia |]. constructor.
Qed.

(** C4, as the code has it.  When the patch is longer than the sample on
    some axis, [create_patches] raises numpy's [ValueError] and returns no
    patch; there is no check of the patch size before the loops.  With at
    least one sample and a positive patch count the error comes from the
    draw on the first such axis, after one draw for each axis before it;
    otherwise no patch is requested and [np.stack] raises on the empty
    list.  The patch volume is taken non-zero: for a zero volume the patch
    count is the conversion of [inf] or [nan] to an integer, which depends
    on the platform.  The entries of the patch size fit 64-bit signed
    integers: beyond them numpy does not multiply in int64, and the patch
    count is another. *)
Theorem create_patches_oversized_patch image_array target_array g
    n sh1 d sh2 ps1 p ps2 :
  shape image_array = n :: sh1 ++ d :: sh2 ->
  shape target_array = shape image_array ->
  drawable sh1 ps1 ->
  (Z.of_nat d < p)%Z ->
  int64_tuple (ps1 ++ p :: ps2) ->
  np_prod (ps1 ++ p :: ps2) <> 0%Z ->
  create_patches cast image_array target_array (ps1 ++ p :: ps2) g
  = (Raise ValueError,
     if ((1 <=? n)%nat
         && (1 <=? n_patches (sh1 ++ d :: sh2) (ps1 ++ p :: ps2))%Z)%bool
     then mkGenerator (raw g) (pos g + length ps1)
     else g).
Proof.
  intros Hi Ht Hv Hd _ _. rewrite Hi in Ht.
  unfold create_patches. rewrite Hi. unfold shape_at. cbn [nth_error].
  unfold bind at 1. unfold lift at 1.
  destruct (Nat.leb_spec 1 n) as [Hn | Hn];
    [destruct (Z.leb_spec 1 (n_patches (sh1 ++ d :: sh2)
                               (ps1 ++ p :: ps2))) as [Hc | Hc] |];
    cbn [andb].
  - destruct n as [| n']; [lia |].
    rewrite (bind_run_Raise _ _ _ _ _
               (samples_loop_raise cast n' image_array target_array
                  (ps1 ++ p :: ps2) ([], []) g ValueError
                  (mkGenerator (raw g) (pos g + length ps1))
                  (S n') (sh1 ++ d :: sh2) Hi Ht Hn Hc
                  (crop_coords_from_raise [] sh1 d sh2 ps1 p ps2 g Hv Hd))).
    reflexivity.
  - rewrite (bind_run_Ok _ _ _ _ _
               (samples_loop_no_patch cast (seq 0 n) image_array
                  target_array (ps1 ++ p :: ps2) ([], []) g
                  n (sh1 ++ d :: sh2) Hi Ht ltac:(lia)
                  ltac:(apply Forall_forall; intros s Hs;
                        apply in_seq in Hs; lia))).
    reflexivity.
  - assert (n = 0%nat) by lia. subst n. reflexivity.
Qed.

End CreatePatchesClaims.

(** ** Indexing the first axis *)

Lemma getitem0_in_range a n rest index :
  shape a = n :: rest ->
  (- Z.of_nat n <= index < Z.of_nat n)%Z ->
  exists b, getitem0 a index = Ok b /\ shape b = rest /\ dtype b = dtype a.
Proof.
  intros Hsh Hidx. unfold getitem0. rewrite Hsh.
  destruct (Z.ltb_spec index 0).
  - destruct (Z.leb_spec 0 (index + Z.of_nat n)); [| lia].
    destruct (Z.ltb_spec (index + Z.of_nat n) (Z.of_nat n)); [| lia].
    simpl. eexists. repeat split.
  - destruct (Z.leb_spec 0 index); [| lia].
    destruct (Z.ltb_spec index (Z.of_nat n)); [| lia].
    simpl. eexists. repeat split.
Qed.

Lemma getitem0_out_of_range a n rest index :
  shape a = n :: rest ->
  (Z.of_nat n <= index \/ index < - Z.of_nat n)%Z ->
  getitem0 a index = Raise IndexError.
Proof.
  intros Hsh Hidx. unfold getitem0. rewrite Hsh.
  destruct (Z.ltb_spec index 0).
  - destruct (Z.leb_spec 0 (index + Z.of_nat n)); [lia | reflexivity].
  - destruct (Z.ltb_spec index (Z.of_nat n)); [lia |].
    rewrite andb_false_r. reflexivity.
Qed.

Lemma getitem0_negative a n rest index :
  shape a = n :: rest ->
  (- Z.of_nat n <= index < 0)%Z ->
  getitem0 a index = getitem0 a (index + Z.of_nat n).
Proof.
  intros Hsh Hidx. unfold getitem0. rewrite Hsh.
  destruct (Z.ltb_spec index 0); [| lia].
  destruct (Z.ltb_spec (index + Z.of_nat n) 0); [lia |]. reflexivity.
Qed.

Lemma len_Ok self n :
  __len__ self = Ok n -> exists rest, shape (image_data self) = n :: rest.
Proof.
  unfold __len__, shape_at.
  destruct (shape (image_data self)) as [| m rest]; simpl; [discriminate |].
  intros H. inversion H. exists rest. reflexivity.
Qed.

(** ** normalize *)

Lemma normalize_run array mean std :
  ~ std == 0 ->
  normalize array mean std
  = Ok (mk_ndarray (shape array) float64
          (map (fun x => (x - mean) / std) (data array))).
Proof.
  intros Hs. unfold normalize.
  destruct (Qeq_bool std 0) eqn:Hb; [| reflexivity].
  apply Qeq_bool_iff in Hb. contradiction.
Qed.

Lemma normalize_degenerate array mean std :
  std == 0 -> normalize array mean std = Raise DegenerateStatisticsError.
Proof.
  intros Hs. unfold normalize.
  apply Qeq_bool_iff in Hs. rewrite Hs. reflexivity.
Qed.

(** ** Properties of the dataset *)

Section DatasetClaims.

Variable cast : np_dtype -> Q -> Q.
Variable augment_batch : ndarray -> ndarray -> M (ndarray * ndarray).

Lemma getitem_run env self index n rest rest' g :
  patch_augment self = false ->
  shape (image_data self) = n :: rest ->
  shape (target_data self) = n :: rest' ->
  (- Z.of_nat n <= index < Z.of_nat n)%Z ->
  ~ train_std env == 0 -> ~ target_std env == 0 ->
  exists patch0 target0 patch1 target1,
    getitem0 (image_data self) index = Ok patch0
    /\ getitem0 (target_data self) index = Ok target0
    /\ normalize patch0 (train_mean env) (train_std env) = Ok patch1
    /\ normalize target0 (target_mean env) (target_std env) = Ok target1
    /\ shape patch1 = rest /\ shape target1 = rest'
    /\ __getitem__ cast augment_batch env self index g
       = (Ok (astype cast float32 (newaxis patch1),
              astype cast float32 (newaxis target1)), g).
Proof.
  intros Haug Hi Ht Hidx Hs Hs'.
  destruct (getitem0_in_range _ _ _ index Hi Hidx) as (p0 & Hp0 & Hsp & _).
  destruct (getitem0_in_range _ _ _ index Ht Hidx) as (t0 & Ht0 & Hst & _).
  pose proof (normalize_run p0 (train_mean env) _ Hs) as Hp1.
  pose proof (normalize_run t0 (target_mean env) _ Hs') as Ht1.
  eexists p0, t0, _, _.
  split; [exact Hp0 |]. split; [exact Ht0 |].
  split; [exact Hp1 |]. split; [exact Ht1 |].
  split; [exact Hsp |]. split; [exact Hst |].
  unfold __getitem__, bind, lift, ret.
  rewrite Hp0, Ht0, Haug, Hp1, Ht1. reflexivity.
Qed.

Lemma create_patches_shapes image_array target_array patch_size g
    image_stack target_stack g' :
  create_patches cast image_array target_array patch_size g
  = (Ok (image_stack, target_stack), g') ->
  valid_patch_size (tl (shape image_array)) patch_size ->
  shape target_array = shape image_array ->
  exists n_pairs,
    shape image_stack = n_pairs :: map Z.to_nat patch_size
    /\ shape target_stack = n_pairs :: map Z.to_nat patch_size.
Proof.
  intros Hrun Hv Hsh.
  apply create_patches_Ok in Hrun
    as (n & es & _ & Hes & _ & Histack & Htstack).
  assert (Hshapes : Forall (fun e =>
            shape (ex_patch e) = map Z.to_nat patch_size
            /\ shape (ex_target e) = map Z.to_nat patch_size) es).
  { eapply Forall_impl; [| exact Hes]. intros e He.
    exact (extraction_ok_shapes cast _ _ _ _ Hv Hsh He). }
  destruct es as [| e es]; [discriminate Histack |].
  destruct (np_stack_run (map ex_patch (e :: es))
              (map Z.to_nat patch_size)) as (s1 & Hs1 & Hshape1 & _).
  { discriminate. }
  { apply Forall_map. eapply Forall_impl; [| exact Hshapes].
    intros ? [H _]. exact H. }
  destruct (np_stack_run (map ex_target (e :: es))
              (map Z.to_nat patch_size)) as (s2 & Hs2 & Hshape2 & _).
  { discriminate. }
  { apply Forall_map. eapply Forall_impl; [| exact Hshapes].
    intros ? [_ H]. exact H. }
  exists (length (e :: es)). rewrite !length_map in *.
  split; congruence.
Qed.

Lemma getitem_shapes env self index n rest rest' g :
  (patch_augment self = true -> shape_preserving augment_batch) ->
  shape (image_data self) = n :: rest ->
  shape (target_data self) = n :: rest' ->
  (0 <= index < Z.of_nat n)%Z ->
  ~ train_std env == 0 -> ~ target_std env == 0 ->
  exists patch target g',
    __getitem__ cast augment_batch env self index g
    = (Ok (patch, target), g')
    /\ shape patch = 1%nat :: rest /\ dtype patch = float32
    /\ shape target = 1%nat :: rest' /\ dtype target = float32.
Proof.
  intros Haug Hi Ht Hidx Hs Hs'.
  destruct (getitem0_in_range _ _ _ index Hi ltac:(lia))
    as (p0 & Hp0 & Hsp & _).
  destruct (getitem0_in_range _ _ _ index Ht ltac:(lia))
    as (t0 & Ht0 & Hst & _).
  assert (Hstep : exists p1 t1 g1,
             (if patch_augment self then augment_batch p0 t0
              else ret (p0, t0)) g = (Ok (p1, t1), g1)
             /\ shape p1 = rest /\ shape t1 = rest').
  { destruct (patch_augment self).
    - destruct (Haug eq_refl p0 t0 g) as (p1 & t1 & g1 & Hrun & H1 & H2).
      exists p1, t1, g1. split; [exact Hrun |]. split; congruence.
    - exists p0, t0, g. split; [reflexivity |]. split; assumption. }
  destruct Hstep as (p1 & t1 & g1 & Hrun & Hsp1 & Hst1).
  pose proof (normalize_run p1 (train_mean env) _ Hs) as Hp2.
  pose proof (normalize_run t1 (target_mean env) _ Hs') as Ht2.
  eexists _, _, g1. split.
  - unfold __getitem__. unfold bind at 1. unfold lift at 1. rewrite Hp0.
    unfold bind at 1. unfold lift at 1. rewrite Ht0.
    rewrite (bind_run_Ok _ _ _ _ _ Hrun).
    unfold bind, lift, ret. rewrite Hp2, Ht2. reflexivity.
  - simpl. rewrite Hsp1, Hst1. repeat split.
Qed.

(** C5. With augmentation disabled, [__getitem__] at an in-range index
    returns the stored patch pair at that index, normalized, and draws
    nothing: the result is the same for every state of the random
    generator, which is left as it was.  (The standard deviations are
    taken non-zero, as [normalize] requires.) *)
Theorem getitem_deterministic env self index n rest rest' :
  patch_augment self = false ->
  shape (image_data self) = n :: rest ->
  shape (target_data self) = n :: rest' ->
  (0 <= index < Z.of_nat n)%Z ->
  ~ train_std env == 0 -> ~ target_std env == 0 ->
  exists patch0 target0 patch1 target1,
    getitem0 (image_data self) index = Ok patch0
    /\ getitem0 (target_data self) index = Ok target0
    /\ normalize patch0 (train_mean env) (train_std env) = Ok patch1
    /\ normalize target0 (target_mean env) (target_std env) = Ok target1
    /\ forall g,
         __getitem__ cast augment_batch env self index g
         = (Ok (astype cast float32 (newaxis patch1),
                astype cast float32 (newaxis target1)), g).
Proof.
  intros Haug Hi Ht Hidx Hs Hs'.
  destruct (getitem_run env self index n rest rest'
              (mkGenerator (fun _ => 0%Z) 0) Haug Hi Ht
              ltac:(lia) Hs Hs')
    as (p0 & t0 & p1 & t1 & Hp0 & Ht0 & Hp1 & Ht1 & _ & _ & _).
  exists p0, t0, p1, t1. repeat (split; [assumption |]).
  intros g. unfold __getitem__, bind, lift, ret.
  rewrite Hp0, Ht0, Haug, Hp1, Ht1. reflexivity.
Qed.

(** C6, as the code has it.  At an in-range index, with augmentation
    disabled or an augmentation that keeps shapes, [__getitem__] returns
    two float32 arrays whose shapes are a leading 1 followed by the shape
    of one element of the image stack and of the target stack that the
    dataset holds.  For the stacks that [create_patches] returns for a
    valid patch size, with one size per axis of the samples, this is
    [(1, *patch_size)]. *)
Theorem getitem_shape_dtype :
  (forall env self index n rest rest' g,
      (patch_augment self = true -> shape_preserving augment_batch) ->
      shape (image_data self) = n :: rest ->
      shape (target_data self) = n :: rest' ->
      (0 <= index < Z.of_nat n)%Z ->
      ~ train_std env == 0 -> ~ target_std env == 0 ->
      exists patch target g',
        __getitem__ cast augment_batch env self index g
        = (Ok (patch, target), g')
        /\ shape patch = 1%nat :: rest /\ dtype patch = float32
        /\ shape target = 1%nat :: rest' /\ dtype target = float32)
  /\ (forall env image_array target_array patch_size g0
             image_stack target_stack g1 apply_augmentations index g,
        create_patches cast image_array target_array patch_size g0
        = (Ok (image_stack, target_stack), g1) ->
        valid_patch_size (tl (shape image_array)) patch_size ->
        shape target_array = shape image_array ->
        (apply_augmentations = true -> shape_preserving augment_batch) ->
        (0 <= index)%Z ->
        (exists n,
            __len__ (__init__ image_stack target_stack apply_augmentations)
            = Ok n
            /\ (index < Z.of_nat n)%Z) ->
        ~ train_std env == 0 -> ~ target_std env == 0 ->
        exists patch target g',
          __getitem__ cast augment_batch env
            (__init__ image_stack target_stack apply_augmentations) index g
          = (Ok (patch, target), g')
          /\ shape patch = 1%nat :: map Z.to_nat patch_size
          /\ dtype patch = float32
          /\ shape target = 1%nat :: map Z.to_nat patch_size
          /\ dtype target = float32).
Proof.
  split.
  - intros env self index n rest rest' g Haug Hi Ht Hidx Hs Hs'.
    apply getitem_shapes with (n := n); assumption.
  - intros env image_array target_array patch_size g0 istack tstack g1
      aug index g Hrun Hv Hsh Haug Hlo (n & Hlen & Hhi) Hs Hs'.
    destruct (create_patches_shapes _ _ _ _ _ _ _ Hrun Hv Hsh)
      as (m & Hsi & Hst).
    unfold __len__, __init__, shape_at in Hlen. cbn [image_data] in Hlen.
    rewrite Hsi in Hlen. simpl in Hlen. inversion Hlen; subst m.
    apply getitem_shapes with (n := n); auto.
Qed.

(** C7, as the code has it.  With [n] the length of the dataset, an index
    [>= n] or [< -n] makes [__getitem__] raise [IndexError] without
    returning a pair; an index in [[-n, 0)] is accepted, as everywhere in
    numpy, and, with as many targets as images, stands for the index
    plus [n]. *)
Theorem getitem_out_of_range env self index n g :
  __len__ self = Ok n ->
  ((Z.of_nat n <= index \/ index < - Z.of_nat n)%Z ->
   __getitem__ cast augment_batch env self index g = (Raise IndexError, g))
  /\ ((- Z.of_nat n <= index < 0)%Z ->
      shape_at (shape (target_data self)) 0 = Ok n ->
      __getitem__ cast augment_batch env self index g
      = __getitem__ cast augment_batch env self (index + Z.of_nat n) g).
Proof.
  intros Hlen. apply len_Ok in Hlen as (rest & Hsh). split.
  - intros Hidx. unfold __getitem__, bind, lift.
    rewrite (getitem0_out_of_range _ _ _ index Hsh Hidx). reflexivity.
  - intros Hidx Ht. unfold shape_at in Ht.
    destruct (shape (target_data self)) as [| m rest'] eqn:Hsh';
      simpl in Ht; [discriminate |].
    inversion Ht; subst m. unfold __getitem__.
    rewrite (getitem0_negative _ _ _ index Hsh Hidx).
    rewrite (getitem0_negative _ _ _ index Hsh' Hidx).
    reflexivity.
Qed.

(** C10. The length of a dataset is the size of the first axis of its
    image stack, whatever the target stack: the constructor stores both
    stacks as they are and [__len__] reads the image stack only. *)
Theorem len_is_image_count images targets apply_augmentations n rest :
  shape images = n :: rest ->
  __len__ (__init__ images targets apply_augmentations) = Ok n
  /\ image_data (__init__ images targets apply_augmentations) = images
  /\ target_data (__init__ images targets apply_augmentations) = targets.
Proof.
  intros Hsh. unfold __len__, __init__, shape_at. simpl.
  rewrite Hsh. repeat split.
Qed.

End DatasetClaims.

(** ** Properties of the normalization *)

(** C8. For a non-zero [std], [normalize] returns and [denormalize] of its
    result, with the same mean and [std], has the shape of the array and,
    in exact arithmetic, its elements. *)
Theorem normalize_denormalize_roundtrip array mean std :
  ~ std == 0 ->
  exists normalized,
    normalize array mean std = Ok normalized
    /\ shape (denormalize normalized mean std) = shape array
    /\ Forall2 Qeq (data (denormalize normalized mean std)) (data array).
Proof.
  intros Hs. eexists. split; [apply normalize_run, Hs |].
  split; [reflexivity |]. simpl.
  induction (data array) as [| x l IH]; simpl; constructor.
  - field. exact Hs.
  - exact IH.
Qed.

(** ** The statistics *)

Lemma pairwise_sum_fuel fuel1 fuel2 l :
  (length l <= fuel1)%nat -> (length l <= fuel2)%nat ->
  pairwise_sum fuel1 l = pairwise_sum fuel2 l.
Proof.
  revert fuel2 l.
  induction fuel1 as [| fuel1 IH]; intros fuel2 l H1 H2.
  - destruct l; [| simpl in H1; lia]. destruct fuel2; reflexivity.
  - destruct fuel2 as [| fuel2].
    { destruct l; [reflexivity | simpl in H2; lia]. }
    cbn [pairwise_sum].
    destruct (length l <? 8)%nat; [reflexivity |].
    destruct (Nat.leb_spec (length l) 128) as [| Hbig]; [reflexivity |].
    set (n := length l) in *.
    pose proof (Nat.div_mod_eq n 2) as Hn.
    pose proof (Nat.mod_upper_bound n 2 ltac:(lia)) as Hn2.
    pose proof (Nat.div_mod_eq (n / 2) 8) as Hh.
    pose proof (Nat.mod_upper_bound (n / 2) 8 ltac:(lia)) as Hh8.
    f_equal; apply IH;
      rewrite ?length_firstn, ?length_skipn; fold n; lia.
Qed.





Lemma arange25_run :
  create_patches exact_cast arange25 arange25 [2; 2]%Z rng_example
  = (Ok (arange25_patches, arange25_patches),
     mkGenerator (raw rng_example) 14).
Proof. vm_compute. reflexivity. Qed.

Lemma one_nonzero : ~ 1 == 0.
Proof. unfold Qeq. simpl. lia. Qed.

(** ** The theorems at the example inputs *)

Lemma create_patches_pairs_aligned_witness :
  well_formed arange25
  /\ exists n_pairs,
       shape_at (shape arange25_patches) 0 = Ok n_pairs
       /\ forall k, (k < n_pairs)%nat ->
          exists s crop sample target_sample patch target_patch,
            getitem0 arange25 (Z.of_nat s) = Ok sample
            /\ getitem0 arange25 (Z.of_nat s) = Ok target_sample
            /\ extract_patch exact_cast sample crop [2; 2]%Z = Ok patch
            /\ extract_patch exact_cast target_sample crop [2; 2]%Z
               = Ok target_patch
            /\ getitem0 arange25_patches (Z.of_nat k) = Ok patch
            /\ getitem0 arange25_patches (Z.of_nat k) = Ok target_patch.
Proof.
  split; [reflexivity |].
  destruct (create_patches_pairs_aligned exact_cast arange25 arange25
              [2; 2]%Z rng_example arange25_patches arange25_patches
              (mkGenerator (raw rng_example) 14)
              eq_refl eq_refl arange25_run) as [(n & Hi & _ & Hk) _].
  exists n. split; [exact Hi | exact Hk].
Defined.

Lemma create_patches_count_witness :
  valid_patch_size [5; 5]%nat [2; 2]%Z
  /\ is_ceiling (n_patches [5; 5]%nat [2; 2]%Z) 25 4
  /\ n_patches [5; 5]%nat [2; 2]%Z = 7%Z.
Proof.
  assert (Hv : valid_patch_size [5; 5]%nat [2; 2]%Z).
  { repeat constructor; simpl; lia. }
  split; [exact Hv |]. split; [| reflexivity].
  apply (create_patches_count exact_cast arange25 arange25 [2; 2]%Z
           rng_example 1 [5; 5]%nat eq_refl eq_refl (le_n 1) Hv).
  vm_compute. reflexivity.
Defined.

Lemma create_patches_offsets_in_range_witness :
  exists es,
    np_stack (map ex_patch es) = Ok arange25_patches
    /\ Forall (fun e => Forall (fun c => In c [0; 1; 2; 3]%Z) (ex_crop e)) es.
Proof.
  destruct (create_patches_offsets_in_range exact_cast arange25 arange25
              [2; 2]%Z rng_example arange25_patches arange25_patches
              (mkGenerator (raw rng_example) 14) arange25_run)
    as (es & Hi & _ & Hall).
  exists es. split; [exact Hi |].
  eapply Forall_impl; [| exact Hall].
  intros e (_ & _ & _ & _ & H). apply H; reflexivity.
Defined.

Lemma create_patches_oversized_patch_witness :
  create_patches exact_cast arange25 arange25 [2; 6]%Z rng_example
  = (Raise ValueError, mkGenerator (raw rng_example) 1).
Proof.
  assert (Hv : drawable [5%nat] [2%Z]).
  { repeat constructor; unfold int64_max; simpl; lia. }
  assert (Hd : (Z.of_nat 5 < 6)%Z) by (simpl; lia).
  assert (H64 : int64_tuple ([2%Z] ++ [6%Z])).
  { repeat constructor; unfold int64_min, int64_max; lia. }
  assert (Hp : np_prod ([2%Z] ++ [6%Z]) <> 0%Z) by (vm_compute; lia).
  exact (create_patches_oversized_patch exact_cast arange25 arange25
           rng_example 1 [5%nat] 5 [] [2%Z] 6 [] eq_refl eq_refl Hv Hd H64
           Hp).
Defined.

(** One draw is made before a patch size of (2, 6) fails on a (5, 5)
    sample: the generator does not stand where it stood. *)
Lemma oversized_patch_draws_before_failing :
  (Z.of_nat 5 < 6)%Z
  /\ fst (create_patches exact_cast arange25 arange25 [2; 6]%Z rng_example)
     = Raise ValueError
  /\ pos (snd (create_patches exact_cast arange25 arange25 [2; 6]%Z
                 rng_example))
     <> pos rng_example.
Proof.
  split; [simpl; lia |]. split; [vm_compute; reflexivity |].
  vm_compute. discriminate.
Qed.

Lemma getitem_deterministic_witness :
  exists patch target,
    forall g,
      __getitem__ exact_cast no_augment unit_stats two_patch_dataset 1 g
      = (Ok (patch, target), g).
Proof.
  destruct (getitem_deterministic exact_cast no_augment unit_stats
              two_patch_dataset 1 2 [2; 2]%nat [2; 2]%nat
              eq_refl eq_refl eq_refl ltac:(simpl; lia)
              one_nonzero one_nonzero)
    as (p0 & t0 & p1 & t1 & _ & _ & _ & _ & H).
  eexists _, _. exact H.
Defined.

Lemma no_augment_shape_preserving : shape_preserving no_augment.
Proof.
  intros patch target g. exists patch, target, g. repeat split.
Qed.

Lemma getitem_shape_dtype_witness :
  exists patch target g',
    __getitem__ exact_cast no_augment unit_stats
      (__init__ two_patches two_patches true) 1 rng_example
    = (Ok (patch, target), g')
    /\ shape patch = [1; 2; 2]%nat /\ dtype patch = float32
    /\ shape target = [1; 2; 2]%nat /\ dtype target = float32.
Proof.
  assert (Hidx : (0 <= 1 < Z.of_nat 2)%Z) by (simpl; lia).
  exact (proj1 (getitem_shape_dtype exact_cast no_augment)
           unit_stats (__init__ two_patches two_patches true) 1%Z 2%nat
           [2; 2]%nat [2; 2]%nat rng_example
           (fun _ => no_augment_shape_preserving) eq_refl eq_refl
           Hidx one_nonzero one_nonzero).
Defined.

(** A dataset built from the patches of a two-channel sample returns
    arrays of shape (1, 2, 2, 2) for the patch size (2, 2); and a dataset
    built from whole images, as the notebook's [test_dataset] is, returns
    arrays of the shape of an image, here (1, 5, 5). *)
Lemma getitem_shape_keeps_leading_axes :
  (exists image_stack target_stack g' patch target,
      create_patches exact_cast two_channels two_channels [2; 2]%Z
        rng_example
      = (Ok (image_stack, target_stack), g')
      /\ __getitem__ exact_cast no_augment unit_stats
           (__init__ image_stack target_stack false) 0 rng_example
         = (Ok (patch, target), rng_example)
      /\ shape patch = [1; 2; 2; 2]%nat
      /\ shape patch <> 1%nat :: map Z.to_nat [2; 2]%Z)
  /\ (exists patch target,
        __getitem__ exact_cast no_augment unit_stats
          (__init__ arange25 arange25 false) 0 rng_example
        = (Ok (patch, target), rng_example)
        /\ shape patch = [1; 5; 5]%nat
        /\ shape patch <> 1%nat :: map Z.to_nat [2; 2]%Z).
Proof.
  split.
  - eexists _, _, _, _, _.
    split; [vm_compute; reflexivity |].
    split; [vm_compute; reflexivity |].
    split; [reflexivity | discriminate].
  - eexists _, _.
    split; [vm_compute; reflexivity |].
    split; [reflexivity | discriminate].
Qed.

Lemma getitem_out_of_range_witness :
  __getitem__ exact_cast no_augment unit_stats two_patch_dataset 2
    rng_example
  = (Raise IndexError, rng_example).
Proof.
  apply (proj1 (getitem_out_of_range exact_cast no_augment unit_stats
                  two_patch_dataset 2 2 rng_example eq_refl)).
  left. simpl. lia.
Defined.

(** The index -1 lies outside [[0, 2)], and [__getitem__] returns the last
    pair of a dataset of length 2 for it. *)
Lemma getitem_negative_index_returns :
  __len__ two_patch_dataset = Ok 2%nat
  /\ ~ (0 <= -1 < 2)%Z
  /\ exists patch target,
       __getitem__ exact_cast no_augment unit_stats two_patch_dataset (-1)
         rng_example
       = (Ok (patch, target), rng_example)
       /\ __getitem__ exact_cast no_augment unit_stats two_patch_dataset 1
            rng_example
          = (Ok (patch, target), rng_example).
Proof.
  split; [reflexivity |]. split; [lia |].
  eexists _, _. split; vm_compute; reflexivity.
Qed.

Lemma len_is_image_count_witness :
  __len__ (__init__ three_patches two_patches false) = Ok 3%nat
  /\ shape_at (shape (target_data (__init__ three_patches two_patches false)))
       0 = Ok 2%nat.
Proof.
  split; [| reflexivity].
  exact (proj1 (len_is_image_count three_patches two_patches false
                  3 [2; 2]%nat eq_refl)).
Defined.

Lemma normalize_denormalize_roundtrip_witness :
  ~ 7 == 0
  /\ exists normalized,
       normalize arange25 12 7 = Ok normalized
       /\ shape (denormalize normalized 12 7) = shape arange25
       /\ Forall2 Qeq (data (denormalize normalized 12 7)) (data arange25).
Proof.
  assert (H7 : ~ 7 == 0) by (unfold Qeq; simpl; lia).
  split; [exact H7 |].
  exact (normalize_denormalize_roundtrip arange25 12 7 H7).
Defined.



(** * Further properties of create_patches *)

(** ** The draws of a run *)

Section CreatePatchesDraws.

Variable cast : np_dtype -> Q -> Q.

Lemma patch_pair_pos sample target_sample patch_size g pair g' :
  patch_pair cast sample target_sample patch_size g = (Ok pair, g') ->
  raw g' = raw g /\ pos g' = (pos g + length patch_size)%nat.
Proof.
  unfold patch_pair. intros H.
  apply bind_Ok in H as (crop & g1 & Hcrop & H).
  apply bind_Ok in H as (p & g2 & Hp & H).
  apply lift_Ok in Hp as [_ ->].
  apply bind_Ok in H as (t & g3 & Ht & H).
  apply lift_Ok in Ht as [_ ->].
  apply ret_Ok in H as [_ ->].
  apply crop_coords_from_Ok in Hcrop as (_ & Hraw & Hpos). auto.
Qed.

Lemma patches_loop_pos n sample target_sample patch_size acc g acc' g' :
  patches_loop cast n sample target_sample patch_size acc g
  = (Ok acc', g') ->
  raw g' = raw g /\ pos g' = (pos g + n * length patch_size)%nat.
Proof.
  revert acc g. induction n as [| n IH]; intros acc g H; simpl in H.
  - apply ret_Ok in H as [_ ->]. split; [reflexivity | lia].
  - apply bind_Ok in H as ([p t] & g1 & Hpair & H).
    apply patch_pair_pos in Hpair as [Hraw Hpos].
    apply IH in H as [Hraw' Hpos']. split; [congruence | lia].
Qed.

Lemma samples_loop_pos ss image_array target_array patch_size acc g acc' g' :
  samples_loop cast ss image_array target_array patch_size acc g
  = (Ok acc', g') ->
  raw g' = raw g
  /\ pos g'
     = (pos g
        + length ss * patch_count image_array patch_size
          * length patch_size)%nat.
Proof.
  revert acc g. induction ss as [| s ss IH]; intros acc g H; simpl in H.
  - apply ret_Ok in H as [_ ->]. split; [reflexivity | simpl; lia].
  - apply bind_Ok in H as (sample & g1 & Hs & H).
    apply lift_Ok in Hs as [Hs ->].
    apply bind_Ok in H as (tsample & g2 & Ht & H).
    apply lift_Ok in Ht as [_ ->].
    apply bind_Ok in H as (acc1 & g3 & Hloop & H).
    apply patches_loop_pos in Hloop as [Hraw Hpos].
    apply IH in H as [Hraw' Hpos'].
    destruct (getitem0_Ok _ _ _ Hs) as [Hshape _].
    rewrite Hshape in Hpos. fold (patch_count image_array patch_size) in Hpos.
    split; [congruence |]. simpl length. nia.
Qed.

(** X1. A run of [create_patches] that returns has made exactly one draw
    per patch and per entry of the patch size, in this order, and none
    else: the generator has advanced by the number of returned pairs times
    [len(patch_size)], over the same entropy. *)
Theorem create_patches_draws image_array target_array patch_size g
    image_stack target_stack g' :
  create_patches cast image_array target_array patch_size g
  = (Ok (image_stack, target_stack), g') ->
  exists n_pairs,
    shape_at (shape image_stack) 0 = Ok n_pairs
    /\ raw g' = raw g
    /\ pos g' = (pos g + n_pairs * length patch_size)%nat.
Proof.
  intros Hrun. pose proof Hrun as Htrace.
  apply create_patches_Ok in Htrace
    as (n & es & Hn & _ & Hidx & Histack & _).
  unfold create_patches in Hrun.
  apply bind_Ok in Hrun as (n' & g1 & Hn' & H).
  apply lift_Ok in Hn' as [Hn' ->].
  assert (n' = n) by congruence. subst n'.
  apply bind_Ok in H as ([ips tps] & g2 & Hloop & H).
  apply samples_loop_pos in Hloop as [Hraw Hpos].
  apply bind_Ok in H as (istack & g3 & Hi & H).
  apply lift_Ok in Hi as [_ ->].
  apply bind_Ok in H as (tstack & g4 & Ht & H).
  apply lift_Ok in Ht as [_ ->].
  apply ret_Ok in H as [_ ->].
  exists (length es).
  destruct (np_stack_Ok _ _ Histack) as (Hsh & _ & _).
  rewrite length_map in Hsh. split; [rewrite Hsh; reflexivity |].
  split; [exact Hraw |].
  rewrite Hpos, length_seq.
  rewrite <- (length_map ex_sample es), Hidx, length_flat_map_repeat.
  rewrite length_seq. reflexivity.
Qed.

End CreatePatchesDraws.

Lemma create_patches_draws_witness :
  exists n_pairs,
    shape_at (shape arange25_patches) 0 = Ok n_pairs
    /\ raw (mkGenerator (raw rng_example) 14) = raw rng_example
    /\ pos (mkGenerator (raw rng_example) 14)
       = (pos rng_example + n_pairs * length [2; 2]%Z)%nat.
Proof.
  exact (create_patches_draws exact_cast arange25 arange25 [2; 2]%Z
           rng_example arange25_patches arange25_patches
           (mkGenerator (raw rng_example) 14) arange25_run).
Defined.

(** ** The order and the form of the output *)

Lemma nth_error_flat_map_repeat (a n c k : nat) :
  (k < n * c)%nat ->
  nth_error (flat_map (fun s => repeat s c) (seq a n)) k
  = Some (a + k / c)%nat.
Proof.
  revert a k. induction n as [| n IH]; intros a k Hk; [lia |].
  assert (Hc : (0 < c)%nat) by (destruct c; lia).
  simpl. destruct (Nat.lt_ge_cases k c) as [Hlt | Hge].
  - rewrite nth_error_app1 by (rewrite repeat_length; exact Hlt).
    rewrite Nat.div_small by exact Hlt. rewrite Nat.add_0_r.
    apply nth_error_repeat, Hlt.
  - rewrite nth_error_app2 by (rewrite repeat_length; exact Hge).
    rewrite repeat_length, IH by (simpl in Hk; lia). f_equal.
    replace k with ((k - c) + 1 * c)%nat at 2 by lia.
    rewrite Nat.div_add by lia. lia.
Qed.

Lemma slice_shape_length sh sl : length (slice_shape sh sl) = length sh.
Proof.
  revert sl. induction sh as [| d sh IH]; intros [| s sl]; simpl;
    try reflexivity.
  rewrite IH. reflexivity.
Qed.

Lemma np_stack_shapes arrays stacked :
  np_stack arrays = Ok stacked ->
  Forall (fun a => shape a = tl (shape stacked)) arrays.
Proof.
  unfold np_stack. destruct arrays as [| a rest]; [discriminate |].
  destruct (forallb _ rest) eqn:Hall; [| discriminate].
  intros H. inversion H; subst; clear H. simpl.
  constructor; [reflexivity |]. apply Forall_forall. intros b Hb.
  rewrite forallb_forall in Hall. specialize (Hall b Hb).
  destruct (list_eq_dec Nat.eq_dec (shape b) (shape a));
    [assumption | discriminate].
Qed.

Lemma np_stack_well_formed arrays stacked :
  np_stack arrays = Ok stacked ->
  Forall well_formed arrays ->
  well_formed stacked.
Proof.
  intros Hstack Hwf.
  pose proof (np_stack_shapes _ _ Hstack) as Hsh.
  destruct (np_stack_Ok _ _ Hstack) as (Hshape & Hdata & _).
  unfold well_formed. rewrite Hdata, Hshape. simpl.
  apply length_flat_map_const.
  rewrite Forall_forall in *. intros a Ha.
  rewrite <- (Hsh a Ha). apply Hwf, Ha.
Qed.

Lemma getitem0_cons a index b :
  getitem0 a index = Ok b -> exists n, shape a = n :: shape b.
Proof.
  unfold getitem0. destruct (shape a) as [| n rest]; [discriminate |].
  destruct (_ && _); [| discriminate].
  intros H. inversion H. exists n. reflexivity.
Qed.

Section CreatePatchesOutput.

Variable cast : np_dtype -> Q -> Q.

Lemma extract_patch_rank sample crop patch_size patch :
  extract_patch cast sample crop patch_size = Ok patch ->
  length (shape patch) = length (shape sample).
Proof.
  unfold extract_patch, getitem_ellipsis.
  destruct (_ <? _)%nat; [discriminate |]. simpl.
  intros H. inversion H. simpl. apply slice_shape_length.
Qed.

(** X2. The output of [create_patches] is in sample-major order, with the
    same number of patches for every sample: with [count] patches per
    sample, the pair at output index [k] was cut from sample [k // count]
    of both stacks, at the same offsets. *)
Theorem create_patches_sample_major image_array target_array patch_size g
    image_stack target_stack g' :
  well_formed image_array -> well_formed target_array ->
  create_patches cast image_array target_array patch_size g
  = (Ok (image_stack, target_stack), g') ->
  exists n_samples,
    shape_at (shape image_array) 0 = Ok n_samples
    /\ shape_at (shape image_stack) 0
       = Ok (n_samples * patch_count image_array patch_size)%nat
    /\ forall k,
         (k < n_samples * patch_count image_array patch_size)%nat ->
         exists crop sample target_sample patch target_patch,
           getitem0 image_array
             (Z.of_nat (k / patch_count image_array patch_size)) = Ok sample
           /\ getitem0 target_array
                (Z.of_nat (k / patch_count image_array patch_size))
              = Ok target_sample
           /\ extract_patch cast sample crop patch_size = Ok patch
           /\ extract_patch cast target_sample crop patch_size
              = Ok target_patch
           /\ getitem0 image_stack (Z.of_nat k) = Ok patch
           /\ getitem0 target_stack (Z.of_nat k) = Ok target_patch.
Proof.
  intros Hwi Hwt Hrun.
  apply create_patches_Ok in Hrun
    as (n & es & Hn & Hes & Hidx & Histack & Htstack).
  assert (Hlen : length es = (n * patch_count image_array patch_size)%nat).
  { rewrite <- (length_map ex_sample es), Hidx, length_flat_map_repeat.
    rewrite length_seq. reflexivity. }
  assert (Hwf : Forall (fun e =>
            (well_formed (ex_patch e) /\ dtype (ex_patch e) = float32)
            /\ (well_formed (ex_target e)
                /\ dtype (ex_target e) = float32)) es).
  { eapply Forall_impl; [| exact Hes]. intros e He.
    exact (extraction_ok_well_formed cast _ _ _ _ Hwi Hwt He). }
  exists n. split; [exact Hn |]. split.
  - destruct (np_stack_Ok _ _ Histack) as (Hsh & _ & _).
    rewrite length_map, Hlen in Hsh. rewrite Hsh. reflexivity.
  - intros k Hk.
    destruct (nth_error es k) as [e |] eqn:Hnth;
      [| apply nth_error_None in Hnth; lia].
    assert (Hs : ex_sample e
                 = (k / patch_count image_array patch_size)%nat).
    { pose proof (nth_error_flat_map_repeat 0 n _ k Hk) as Hk'.
      rewrite <- Hidx, nth_error_map, Hnth in Hk'. simpl in Hk'.
      congruence. }
    pose proof (nth_error_In _ _ Hnth) as Hin.
    rewrite Forall_forall in Hes.
    destruct (Hes e Hin) as (sample & tsample & Hsm & Hts & _ & Hp & Htp).
    rewrite Hs in Hsm, Hts.
    exists (ex_crop e), sample, tsample, (ex_patch e), (ex_target e).
    repeat (split; [assumption |]). split.
    + apply (np_stack_getitem0 (map ex_patch es)); [assumption | | |].
      * apply Forall_map. eapply Forall_impl; [| exact Hwf].
        intros ? [[H _] _]. exact H.
      * apply np_stack_float32; [assumption |].
        apply Forall_map. eapply Forall_impl; [| exact Hwf].
        intros ? [[_ H] _]. exact H.
      * rewrite nth_error_map, Hnth. reflexivity.
    + apply (np_stack_getitem0 (map ex_target es)); [assumption | | |].
      * apply Forall_map. eapply Forall_impl; [| exact Hwf].
        intros ? [_ [H _]]. exact H.
      * apply np_stack_float32; [assumption |].
        apply Forall_map. eapply Forall_impl; [| exact Hwf].
        intros ? [_ [_ H]]. exact H.
      * rewrite nth_error_map, Hnth. reflexivity.
Qed.

(** X3. Whatever the dtypes of the input stacks, the two stacks that
    [create_patches] returns are float32 arrays, well formed, and of the
    rank of the noisy stack and of the target stack: the slices cut the
    trailing axes and keep the leading ones. *)
Theorem create_patches_output_form image_array target_array patch_size g
    image_stack target_stack g' :
  well_formed image_array -> well_formed target_array ->
  create_patches cast image_array target_array patch_size g
  = (Ok (image_stack, target_stack), g') ->
  (dtype image_stack = float32 /\ dtype target_stack = float32)
  /\ (well_formed image_stack /\ well_formed target_stack)
  /\ (length (shape image_stack) = length (shape image_array)
      /\ length (shape target_stack) = length (shape target_array)).
Proof.
  intros Hwi Hwt Hrun.
  apply create_patches_Ok in Hrun
    as (n & es & Hn & Hes & _ & Histack & Htstack).
  assert (Hwf : Forall (fun e =>
            (well_formed (ex_patch e) /\ dtype (ex_patch e) = float32)
            /\ (well_formed (ex_target e)
                /\ dtype (ex_target e) = float32)) es).
  { eapply Forall_impl; [| exact Hes]. intros e He.
    exact (extraction_ok_well_formed cast _ _ _ _ Hwi Hwt He). }
  destruct es as [| e es]; [discriminate Histack |].
  inversion Hwf as [| ? ? [[_ Hde] [_ Hdt]] _]; subst.
  inversion Hes as [| ? ? (sample & tsample & Hs & Hts & _ & Hp & Htp) _];
    subst.
  destruct (np_stack_Ok _ _ Histack) as (Hsi & _ & Hdi).
  destruct (np_stack_Ok _ _ Htstack) as (Hst & _ & Hdt').
  pose proof (np_stack_shapes _ _ Histack) as Hshi.
  pose proof (np_stack_shapes _ _ Htstack) as Hsht.
  inversion Hshi as [| ? ? Hei _]; inversion Hsht as [| ? ? Het _]; subst.
  simpl in Hdi, Hdt'. split; [split; congruence |]. split.
  - split; eapply np_stack_well_formed; try eassumption;
      apply Forall_map; (eapply Forall_impl; [| exact Hwf]).
    + intros ? [[H _] _]. exact H.
    + intros ? [_ [H _]]. exact H.
  - apply getitem0_cons in Hs as (n1 & Hs).
    apply getitem0_cons in Hts as (n2 & Hts).
    apply extract_patch_rank in Hp, Htp.
    rewrite Hsi, Hst, Hs, Hts. simpl. rewrite <- Hei, <- Het, Hp, Htp.
    split; reflexivity.
Qed.

(** X4. A stack without samples is refused with numpy's [ValueError], the
    one of [np.stack] on the empty list of patches: the loop over the
    samples is not entered, nothing is drawn, and the target is not
    looked at. *)
Theorem create_patches_empty_stack image_array target_array patch_size g
    sample_shape :
  shape image_array = 0%nat :: sample_shape ->
  create_patches cast image_array target_array patch_size g
  = (Raise ValueError, g).
Proof.
  intros Hsh. unfold create_patches. rewrite Hsh. reflexivity.
Qed.

End CreatePatchesOutput.

(** ** A target stack of another shape *)

Lemma offsets_in_range_larger pre pre' sh sh' crop patch_size :
  length pre = length pre' ->
  Forall2 (fun d d' => (d <= d')%nat) sh sh' ->
  offsets_in_range (length pre) (pre ++ sh) crop patch_size ->
  offsets_in_range (length pre') (pre' ++ sh') crop patch_size.
Proof.
  intros Hpre Hle. revert pre pre' Hpre crop patch_size.
  induction Hle as [| d d' sh sh' Hd Hle IH];
    intros pre pre' Hpre crop patch_size Hr.
  - destruct crop as [| c crop], patch_size as [| p rest];
      simpl in *; try contradiction; [exact I |].
    destruct Hr as [(d & Hd & _) _].
    rewrite app_nil_r in Hd.
    assert (Hnone : nth_error pre (length pre) = None)
      by (apply nth_error_None; lia).
    congruence.
  - destruct crop as [| c crop], patch_size as [| p rest];
      simpl in *; try contradiction; [exact I |].
    destruct Hr as [(d0 & Hd0 & Hc) Hr].
    rewrite nth_error_middle in Hd0. inversion Hd0; subst d0. split.
    + exists d'. rewrite nth_error_middle. split; [reflexivity | lia].
    + specialize (IH (pre ++ [d]) (pre' ++ [d'])).
      rewrite !length_app, <- !app_assoc in IH. simpl in IH.
      rewrite !Nat.add_1_r in IH. apply IH; [congruence | exact Hr].
Qed.

Section OtherTarget.

Variable cast : np_dtype -> Q -> Q.

Lemma extract_patch_run sample crop patch_size :
  (length (crop_slices crop patch_size) <= length (shape sample))%nat ->
  exists patch, extract_patch cast sample crop patch_size = Ok patch.
Proof.
  intros Hlen. unfold extract_patch, getitem_ellipsis.
  destruct (Nat.ltb_spec (length (shape sample))
              (length (crop_slices crop patch_size))); [lia |].
  simpl. eexists. reflexivity.
Qed.

Lemma crop_slices_length crop patch_size :
  (length (crop_slices crop patch_size) <= length patch_size)%nat.
Proof.
  unfold crop_slices. rewrite length_map, length_combine. lia.
Qed.

Lemma patch_pair_run_any sample target_sample patch_size g :
  valid_patch_size (shape sample) patch_size ->
  drawable (shape sample) patch_size ->
  (length patch_size <= length (shape target_sample))%nat ->
  exists pair g',
    patch_pair cast sample target_sample patch_size g = (Ok pair, g').
Proof.
  intros Hv Hdr Hrank.
  destruct (crop_coords_run _ _ g Hdr) as (crop & g' & Hcrop).
  pose proof (crop_slices_length crop patch_size) as Hcl.
  pose proof (valid_patch_size_length _ _ Hv) as Hlen.
  destruct (extract_patch_run sample crop patch_size) as (p & Hp); [lia |].
  destruct (extract_patch_run target_sample crop patch_size) as (t & Ht);
    [lia |].
  exists (p, t), g'. unfold patch_pair.
  rewrite (bind_run_Ok _ _ _ _ _ Hcrop).
  unfold bind, lift, ret. rewrite Hp, Ht. reflexivity.
Qed.

Lemma patches_loop_run_any n sample target_sample patch_size acc g :
  valid_patch_size (shape sample) patch_size ->
  drawable (shape sample) patch_size ->
  (length patch_size <= length (shape target_sample))%nat ->
  exists acc' g',
    patches_loop cast n sample target_sample patch_size acc g
    = (Ok acc', g').
Proof.
  intros Hv Hdr Hrank. revert acc g.
  induction n as [| n IH]; intros acc g; simpl.
  - eexists _, _. reflexivity.
  - destruct (patch_pair_run_any _ _ _ g Hv Hdr Hrank)
      as ([p t] & g1 & Hpair).
    rewrite (bind_run_Ok _ _ _ _ _ Hpair). apply IH.
Qed.

Lemma samples_loop_run_any ss image_array target_array patch_size acc g
    n m sample_shape target_shape :
  shape image_array = n :: sample_shape ->
  shape target_array = m :: target_shape ->
  valid_patch_size sample_shape patch_size ->
  drawable sample_shape patch_size ->
  (length patch_size <= length target_shape)%nat ->
  Forall (fun s => (s < n)%nat /\ (s < m)%nat) ss ->
  exists acc' g',
    samples_loop cast ss image_array target_array patch_size acc g
    = (Ok acc', g').
Proof.
  intros Hi Ht Hv Hdr Hrank Hss. revert acc g.
  induction Hss as [| s ss [Hs Hs'] Hss IH]; intros acc g; simpl.
  - eexists _, _. reflexivity.
  - destruct (getitem0_run _ _ _ s Hi Hs) as (sample & Hsample & Hshape).
    destruct (getitem0_run _ _ _ s Ht Hs') as (tsample & Htsample & Htshape).
    unfold bind at 1. unfold lift at 1. rewrite Hsample.
    unfold bind at 1. unfold lift at 1. rewrite Htsample.
    rewrite <- Hshape in Hv, Hdr. rewrite <- Htshape in Hrank.
    destruct (patches_loop_run_any
                (Z.to_nat (n_patches (shape sample) patch_size))
                sample tsample patch_size acc g Hv Hdr Hrank)
      as (acc1 & g1 & Hloop).
    rewrite (bind_run_Ok _ _ _ _ _ Hloop). apply IH.
Qed.

Lemma samples_loop_app ss1 ss2 image_array target_array patch_size acc g :
  samples_loop cast (ss1 ++ ss2) image_array target_array patch_size acc g
  = match samples_loop cast ss1 image_array target_array patch_size acc g
    with
    | (Ok acc', g') =>
        samples_loop cast ss2 image_array target_array patch_size acc' g'
    | (Raise e, g') => (Raise e, g')
    end.
Proof.
  revert acc g. induction ss1 as [| s ss1 IH]; intros acc g.
  - reflexivity.
  - cbn [app samples_loop]. unfold bind, lift.
    destruct (getitem0 image_array (Z.of_nat s)) as [sample |];
      [| reflexivity].
    destruct (getitem0 target_array (Z.of_nat s)) as [tsample |];
      [| reflexivity].
    destruct (patches_loop cast _ sample tsample patch_size acc g)
      as [[acc1 |] g1]; [| reflexivity].
    apply IH.
Qed.

(** X5. A target stack with fewer samples than the noisy stack makes
    [create_patches] fail with [IndexError], at the first sample that the
    target lacks: the patches of the samples before it have been drawn by
    then, and none is returned.  (Valid patch size, samples below 2^53
    elements, target samples of at least as many axes as the patch
    size.) *)
Theorem create_patches_short_target image_array target_array patch_size g
    n m sample_shape target_shape :
  shape image_array = n :: sample_shape ->
  shape target_array = m :: target_shape ->
  (m < n)%nat ->
  valid_patch_size sample_shape patch_size ->
  (Z.of_nat (size_of sample_shape) < 2 ^ 53)%Z ->
  (length patch_size <= length target_shape)%nat ->
  exists g',
    create_patches cast image_array target_array patch_size g
    = (Raise IndexError, g')
    /\ pos g'
       = (pos g
          + m * patch_count image_array patch_size
            * length patch_size)%nat.
Proof.
  intros Hi Ht Hmn Hv Hsz Hrank.
  assert (Hdr : drawable sample_shape patch_size).
  { apply valid_patch_size_drawable; [exact Hv |]. unfold int64_max. lia. }
  assert (Hss : Forall (fun s => (s < n)%nat /\ (s < m)%nat) (seq 0 m)).
  { apply Forall_forall. intros s Hs. apply in_seq in Hs. lia. }
  destruct (samples_loop_run_any (seq 0 m) image_array target_array
              patch_size ([], []) g n m sample_shape target_shape
              Hi Ht Hv Hdr Hrank Hss) as (acc1 & g1 & Hloop).
  destruct (samples_loop_pos cast _ _ _ _ _ _ _ _ Hloop) as [_ Hpos].
  rewrite length_seq in Hpos.
  exists g1. split; [| exact Hpos].
  unfold create_patches. rewrite Hi. unfold shape_at. cbn [nth_error].
  unfold bind at 1. unfold lift at 1. cbv beta iota.
  replace (seq 0 n) with (seq 0 m ++ seq m (n - m))
    by (rewrite <- seq_app; f_equal; lia).
  unfold bind at 1. rewrite samples_loop_app, Hloop.
  destruct (n - m)%nat as [| k] eqn:Hk; [lia |].
  cbn [seq samples_loop].
  destruct (getitem0_run _ _ _ m Hi Hmn) as (sample & Hsample & _).
  unfold bind at 1. unfold lift at 1. rewrite Hsample.
  unfold bind at 1. unfold lift at 1.
  rewrite (getitem0_out_of_range _ _ _ (Z.of_nat m) Ht) by lia.
  reflexivity.
Qed.

Lemma extraction_ok_shapes_larger image_array target_array patch_size e :
  valid_patch_size (tl (shape image_array)) patch_size ->
  Forall2 (fun d d' => (d <= d')%nat)
    (tl (shape image_array)) (tl (shape target_array)) ->
  extraction_ok cast image_array target_array patch_size e ->
  shape (ex_patch e) = map Z.to_nat patch_size
  /\ shape (ex_target e) = map Z.to_nat patch_size.
Proof.
  intros Hv Hle (sample & tsample & Hs & Ht & (g & g' & Hcrop) & Hp & Htp).
  apply getitem0_Ok in Hs as [Hs _]. apply getitem0_Ok in Ht as [Ht _].
  apply crop_coords_from_Ok in Hcrop as (Hr & _).
  pose proof (valid_patch_size_length _ _ Hv) as Hlen.
  pose proof (valid_patch_size_nonneg _ _ Hv) as Hpos.
  rewrite <- Hs in Hv, Hle, Hlen. rewrite <- Ht in Hle.
  destruct (extract_patch_fits cast sample (ex_crop e) patch_size
              Hr Hlen Hpos) as (p & Hp' & Hshape).
  pose proof (offsets_in_range_larger [] [] _ _ _ _ eq_refl Hle Hr) as Hr'.
  assert (Hlen' : length (shape tsample) = length patch_size).
  { rewrite <- Hlen. symmetry. eapply Forall2_length, Hle. }
  destruct (extract_patch_fits cast tsample (ex_crop e) patch_size
              Hr' Hlen' Hpos) as (t & Ht' & Hshape').
  split; congruence.
Qed.

(** X6. [create_patches] does not compare the shapes of its two stacks.
    A target stack with more samples, or with larger samples, than the
    noisy stack is accepted: for a valid patch size the call returns, with
    as many target patches as noisy patches, all of the shape of the patch
    size; the target is cut at the offsets drawn for the noisy sample. *)
Theorem create_patches_larger_target image_array target_array patch_size g
    n m sample_shape target_shape :
  shape image_array = n :: sample_shape ->
  shape target_array = m :: target_shape ->
  (1 <= n <= m)%nat ->
  Forall2 (fun d d' => (d <= d')%nat) sample_shape target_shape ->
  valid_patch_size sample_shape patch_size ->
  (Z.of_nat (size_of sample_shape) < 2 ^ 53)%Z ->
  exists image_stack target_stack g',
    create_patches cast image_array target_array patch_size g
    = (Ok (image_stack, target_stack), g')
    /\ shape image_stack
       = (n * patch_count image_array patch_size)%nat
         :: map Z.to_nat patch_size
    /\ shape target_stack
       = (n * patch_count image_array patch_size)%nat
         :: map Z.to_nat patch_size.
Proof.
  intros Hi Ht Hn Hle Hv Hsz.
  assert (Hdr : drawable sample_shape patch_size).
  { apply valid_patch_size_drawable; [exact Hv |]. unfold int64_max. lia. }
  assert (Hrank : (length patch_size <= length target_shape)%nat).
  { rewrite <- (valid_patch_size_length _ _ Hv).
    rewrite (Forall2_length Hle). lia. }
  assert (Hss : Forall (fun s => (s < n)%nat /\ (s < m)%nat) (seq 0 n)).
  { apply Forall_forall. intros s Hs. apply in_seq in Hs. lia. }
  destruct (samples_loop_run_any (seq 0 n) image_array target_array
              patch_size ([], []) g n m sample_shape target_shape
              Hi Ht Hv Hdr Hrank Hss) as ([ips tps] & g1 & Hloop).
  pose proof Hloop as Htrace.
  apply samples_loop_Ok in Htrace as (es & Hes & Hidx & Hfst & Hsnd).
  simpl in Hfst, Hsnd. subst ips tps.
  assert (Hlen : length es
                 = (n * patch_count image_array patch_size)%nat).
  { rewrite <- (length_map ex_sample), Hidx, length_flat_map_repeat.
    rewrite length_seq. reflexivity. }
  assert (Hcount : (1 <= patch_count image_array patch_size)%nat).
  { unfold patch_count. rewrite Hi. simpl.
    destruct (n_patches_valid _ _ Hv Hsz) as [_ H1]. lia. }
  assert (Hne : es <> []).
  { intros ->. simpl in Hlen. nia. }
  assert (Hshapes : Forall (fun e =>
            shape (ex_patch e) = map Z.to_nat patch_size
            /\ shape (ex_target e) = map Z.to_nat patch_size) es).
  { eapply Forall_impl; [| exact Hes]. intros e He.
    eapply extraction_ok_shapes_larger; [| | exact He].
    - rewrite Hi. exact Hv.
    - rewrite Hi, Ht. exact Hle. }
  destruct (np_stack_run (map ex_patch es) (map Z.to_nat patch_size))
    as (istack & Histack & Hishape & _).
  { destruct es; [congruence | discriminate]. }
  { apply Forall_map. eapply Forall_impl; [| exact Hshapes].
    intros e [H _]. exact H. }
  destruct (np_stack_run (map ex_target es) (map Z.to_nat patch_size))
    as (tstack & Htstack & Htshape & _).
  { destruct es; [congruence | discriminate]. }
  { apply Forall_map. eapply Forall_impl; [| exact Hshapes].
    intros e [_ H]. exact H. }
  exists istack, tstack, g1. split; [| split].
  - unfold create_patches. rewrite Hi. unfold shape_at.
    cbn [nth_error]. unfold bind at 1. unfold lift at 1.
    rewrite (bind_run_Ok _ _ _ _ _ Hloop).
    unfold bind, lift, ret. rewrite Histack, Htstack. reflexivity.
  - rewrite Hishape, length_map, Hlen. reflexivity.
  - rewrite Htshape, length_map, Hlen. reflexivity.
Qed.

End OtherTarget.

(** ** Patches as large as the samples *)

Lemma chunks_concat sz n (l : list Q) :
  length l = (n * sz)%nat -> concat (chunks sz n l) = l.
Proof.
  revert l. induction n as [| n IH]; intros l Hl; simpl.
  - destruct l; [reflexivity | discriminate].
  - rewrite IH by (rewrite length_skipn; simpl in Hl; lia).
    apply firstn_skipn.
Qed.

Lemma flat_map_id_on {A : Type} (f : list A -> list A) (cs : list (list A)) :
  Forall (fun c => f c = c) cs -> flat_map f cs = concat cs.
Proof.
  induction 1 as [| c cs Hc Hcs IH]; simpl; [reflexivity |].
  rewrite Hc, IH. reflexivity.
Qed.

Lemma slice_bound_full d : slice_bound d (Z.of_nat d) = d.
Proof.
  unfold slice_bound. destruct (Z.ltb_spec (Z.of_nat d) 0); lia.
Qed.

Lemma slice_bound_zero d : slice_bound d 0 = 0%nat.
Proof. unfold slice_bound. simpl. lia. Qed.

Lemma slice_data_full sh l :
  length l = size_of sh ->
  slice_data sh (map (fun d => Some (0%Z, Z.of_nat d)) sh) l = l.
Proof.
  revert l. induction sh as [| d sh IH]; intros l Hl; [reflexivity |].
  cbn [map slice_data axis_range slice_range fst snd].
  rewrite slice_bound_full, slice_bound_zero.
  rewrite Nat.sub_0_r. cbn [Nat.mul skipn].
  simpl in Hl.
  destruct (chunks_length (size_of sh) d l) as [_ Hall]; [lia |].
  rewrite flat_map_id_on.
  - apply chunks_concat. exact Hl.
  - eapply Forall_impl; [| exact Hall]. intros c Hc. apply IH, Hc.
Qed.

Lemma slice_shape_full sh :
  slice_shape sh (map (fun d => Some (0%Z, Z.of_nat d)) sh) = sh.
Proof.
  induction sh as [| d sh IH]; [reflexivity |].
  cbn [map slice_shape axis_range slice_range fst snd].
  rewrite slice_bound_full, slice_bound_zero.
  rewrite Nat.sub_0_r, IH. reflexivity.
Qed.

Lemma crop_slices_full pre sh crop :
  offsets_in_range (length pre) (pre ++ sh) crop (map Z.of_nat sh) ->
  map Some (crop_slices crop (map Z.of_nat sh))
  = map (fun d => Some (0%Z, Z.of_nat d)) sh.
Proof.
  revert pre crop. induction sh as [| d sh IH]; intros pre crop Hr.
  - destruct crop; [reflexivity | contradiction].
  - destruct crop as [| c crop]; [contradiction |].
    simpl in Hr. destruct Hr as [(d0 & Hd0 & Hc) Hr].
    rewrite nth_error_middle in Hd0. inversion Hd0; subst d0.
    assert (c = 0%Z) by lia. subst c.
    unfold crop_slices. cbn [map combine fst snd]. f_equal.
    apply (IH (pre ++ [d])).
    rewrite length_app, <- app_assoc. simpl. rewrite Nat.add_1_r. exact Hr.
Qed.

Lemma blocks_concat sz (l : list Q) a n :
  ((a + n) * sz <= length l)%nat ->
  flat_map (fun s => firstn sz (skipn (s * sz) l)) (seq a n)
  = firstn (n * sz) (skipn (a * sz) l).
Proof.
  revert a. induction n as [| n IH]; intros a Hl; [reflexivity |].
  cbn [seq flat_map]. rewrite IH by lia.
  replace (S a * sz)%nat with (sz + a * sz)%nat by lia.
  rewrite <- skipn_skipn.
  set (r := skipn (a * sz) l).
  replace (S n * sz)%nat with (sz + n * sz)%nat by lia.
  rewrite <- (firstn_skipn sz r) at 3.
  rewrite firstn_app, length_firstn.
  assert (Hr : (sz <= length r)%nat)
    by (unfold r; rewrite length_skipn; nia).
  rewrite Nat.min_l by exact Hr.
  replace (sz + n * sz - sz)%nat with (n * sz)%nat by lia.
  rewrite firstn_firstn, Nat.min_r by lia. reflexivity.
Qed.

Lemma flat_map_repeat_one (ss : list nat) :
  flat_map (fun s => repeat s 1) ss = ss.
Proof.
  induction ss as [| s ss IH]; [reflexivity |].
  simpl. f_equal. exact IH.
Qed.

Lemma getitem0_data a n rest s b :
  shape a = n :: rest -> (s < n)%nat ->
  getitem0 a (Z.of_nat s) = Ok b ->
  shape b = rest
  /\ data b = firstn (size_of rest) (skipn (s * size_of rest) (data a)).
Proof.
  intros Hsh Hs. unfold getitem0. rewrite Hsh.
  destruct (Z.ltb_spec (Z.of_nat s) 0) as [Hneg | _]; [lia |].
  destruct (_ && _); [| discriminate].
  intros Hb. inversion Hb. simpl. rewrite Nat2Z.id. split; reflexivity.
Qed.

Section FullSizePatch.

Variable cast : np_dtype -> Q -> Q.

Lemma extract_patch_full sample crop :
  well_formed sample ->
  offsets_in_range 0 (shape sample) crop (map Z.of_nat (shape sample)) ->
  extract_patch cast sample crop (map Z.of_nat (shape sample))
  = Ok (mk_ndarray (shape sample) float32
          (map (cast float32) (data sample))).
Proof.
  intros Hwf Hr.
  pose proof (offsets_in_range_length _ _ _ _ Hr) as Hcl.
  pose proof (crop_slices_full [] _ _ Hr) as Hsl.
  unfold extract_patch, getitem_ellipsis.
  assert (Hlen : length (crop_slices crop (map Z.of_nat (shape sample)))
                 = length (shape sample)).
  { unfold crop_slices. rewrite length_map, length_combine, Hcl.
    rewrite Nat.min_id, length_map. reflexivity. }
  rewrite Hlen, Nat.ltb_irrefl, Nat.sub_diag. cbn [repeat app].
  rewrite Hsl, slice_shape_full, slice_data_full by exact Hwf.
  reflexivity.
Qed.

(** X7. With a patch size equal to the shape of the samples there is one
    patch per sample, its offset is 0 on every axis, and it is the whole
    sample: [create_patches] returns the two stacks themselves, converted
    to float32.  (Same shape for both stacks, at least one sample, no
    empty axis, samples below 2^53 elements.) *)
Theorem create_patches_full_size image_array target_array g
    n sample_shape :
  well_formed image_array -> well_formed target_array ->
  shape image_array = n :: sample_shape ->
  shape target_array = n :: sample_shape ->
  (1 <= n)%nat ->
  Forall (fun d => (1 <= d)%nat) sample_shape ->
  (Z.of_nat (size_of sample_shape) < 2 ^ 53)%Z ->
  exists g',
    create_patches cast image_array target_array
      (map Z.of_nat sample_shape) g
    = (Ok (astype cast float32 image_array,
           astype cast float32 target_array), g').
Proof.
  intros Hwi Hwt Hi Ht Hn Hdims Hsz.
  set (ps := map Z.of_nat sample_shape).
  assert (Hv : valid_patch_size sample_shape ps).
  { unfold valid_patch_size, ps. clear - Hdims.
    induction Hdims as [| d sh Hd Hdims IH]; simpl; constructor;
      [lia | exact IH]. }
  destruct (create_patches_run cast image_array target_array ps g
              n sample_shape Hi Ht Hn Hv Hsz)
    as (istack & tstack & g' & Hrun & _ & _).
  exists g'. rewrite Hrun. f_equal. 
  apply create_patches_Ok in Hrun
    as (n' & es & Hn' & Hes & Hidx & Histack & Htstack).
  rewrite Hi in Hn'. unfold shape_at in Hn'. simpl in Hn'.
  inversion Hn'; subst n'; clear Hn'.
  assert (Hcount : patch_count image_array ps = 1%nat).
  { unfold patch_count. rewrite Hi. simpl.
    destruct (n_patches_valid _ _ Hv Hsz) as [Hceil H1].
    unfold is_ceiling in Hceil. unfold ps in *.
    rewrite prodZ_of_nat in Hceil. nia. }
  rewrite Hcount, flat_map_repeat_one in Hidx.
  assert (Hall : Forall (fun e =>
            (ex_sample e < n)%nat ->
            ex_patch e
            = mk_ndarray sample_shape float32
                (map (cast float32)
                   (firstn (size_of sample_shape)
                      (skipn (ex_sample e * size_of sample_shape)
                         (data image_array))))
            /\ ex_target e
               = mk_ndarray sample_shape float32
                   (map (cast float32)
                      (firstn (size_of sample_shape)
                         (skipn (ex_sample e * size_of sample_shape)
                            (data target_array))))) es).
  { eapply Forall_impl; [| exact Hes].
    intros e (sample & tsample & Hs & Hts & (g1 & g2 & Hcrop) & Hp & Htp)
      Hlt.
    pose proof (getitem0_well_formed _ _ _ Hwi Hs) as Hws.
    pose proof (getitem0_well_formed _ _ _ Hwt Hts) as Hwts.
    destruct (getitem0_data _ _ _ _ _ Hi Hlt Hs) as [Hss Hsd].
    destruct (getitem0_data _ _ _ _ _ Ht Hlt Hts) as [Htss Htsd].
    apply crop_coords_from_Ok in Hcrop as (Hr & _).
    destruct sample as [ssh sdt sdata]. destruct tsample as [tsh tdt tdata].
    cbn [shape data] in Hss, Hsd, Htss, Htsd, Hr. subst ssh tsh sdata tdata.
    pose proof (extract_patch_full _ (ex_crop e) Hws Hr) as Hfp.
    pose proof (extract_patch_full _ (ex_crop e) Hwts Hr) as Hft.
    cbn [shape data] in Hfp, Hft. fold ps in Hfp, Hft.
    rewrite Hfp in Hp. rewrite Hft in Htp.
    inversion Hp; inversion Htp. split; reflexivity. }
  assert (Hmaps :
            map ex_patch es
            = map (fun s => mk_ndarray sample_shape float32
                     (map (cast float32)
                        (firstn (size_of sample_shape)
                           (skipn (s * size_of sample_shape)
                              (data image_array))))) (seq 0 n)
            /\ map ex_target es
               = map (fun s => mk_ndarray sample_shape float32
                        (map (cast float32)
                           (firstn (size_of sample_shape)
                              (skipn (s * size_of sample_shape)
                                 (data target_array))))) (seq 0 n)).
  { rewrite <- Hidx, !map_map.
    assert (Hin : Forall (fun e => (ex_sample e < n)%nat) es).
    { apply Forall_forall. intros e He.
      apply (in_map ex_sample) in He. rewrite Hidx in He.
      apply in_seq in He. lia. }
    clear - Hall Hin.
    induction Hall as [| e es He Hall IH]; [split; reflexivity |].
    inversion Hin as [| ? ? Hlt Hin']; subst.
    destruct (He Hlt) as [Hp Ht]. destruct (IH Hin') as [IHp IHt].
    simpl. rewrite Hp, Ht, IHp, IHt. split; reflexivity. }
  destruct Hmaps as [Hmp Hmt]. rewrite Hmp in Histack. rewrite Hmt in Htstack.
  assert (Hstack : forall (a : ndarray),
             well_formed a -> shape a = n :: sample_shape ->
             np_stack
               (map (fun s => mk_ndarray sample_shape float32
                       (map (cast float32)
                          (firstn (size_of sample_shape)
                             (skipn (s * size_of sample_shape) (data a)))))
                  (seq 0 n))
             = Ok (astype cast float32 a)).
  { intros a Hwa Ha.
    destruct (np_stack_run
                (map (fun s => mk_ndarray sample_shape float32
                        (map (cast float32)
                           (firstn (size_of sample_shape)
                              (skipn (s * size_of sample_shape) (data a)))))
                   (seq 0 n)) sample_shape)
      as (st & Hst & Hshape & Hdata).
    { destruct n; [lia | discriminate]. }
    { apply Forall_map, Forall_forall. reflexivity. }
    rewrite Hst. f_equal.
    destruct (np_stack_Ok _ _ Hst) as (_ & _ & Hdt).
    destruct n as [| n0]; [lia |]. simpl in Hdt.
    rewrite length_map, length_seq in Hshape.
    unfold astype. rewrite Ha.
    destruct st as [ssh sdt sdata]. simpl in *. subst ssh sdt sdata.
    f_equal.
    change (map (cast float32) (firstn (size_of sample_shape)
              (skipn (0 * size_of sample_shape) (data a)))
            ++ flat_map data (map _ (seq 1 n0)))
      with (flat_map data
              (map (fun s => mk_ndarray sample_shape float32
                      (map (cast float32)
                         (firstn (size_of sample_shape)
                            (skipn (s * size_of sample_shape) (data a)))))
                 (seq 0 (S n0)))).
    rewrite flat_map_concat_map, map_map. cbn [data].
    rewrite <- (map_map (fun s => firstn (size_of sample_shape)
                           (skipn (s * size_of sample_shape) (data a)))
                  (map (cast float32))).
    rewrite <- concat_map, <- flat_map_concat_map.
    unfold well_formed in Hwa. rewrite Ha in Hwa. simpl in Hwa.
    rewrite blocks_concat by lia.
    rewrite <- map_app. f_equal. rewrite Nat.mul_1_l.
    rewrite (firstn_all2 (n := n0 * size_of sample_shape))
      by (rewrite length_skipn; lia).
    apply firstn_skipn. }
  rewrite (Hstack image_array Hwi Hi) in Histack.
  rewrite (Hstack target_array Hwt Ht) in Htstack.
  congruence.
Qed.

End FullSizePatch.

(** * Further properties of the dataset *)

Lemma Forall2_nth_error_pair {A B : Type} (R : A -> B -> Prop) l1 l2 i x y :
  Forall2 R l1 l2 ->
  nth_error l1 i = Some x -> nth_error l2 i = Some y -> R x y.
Proof.
  intros H. revert i. induction H as [| a b l1 l2 Hab H IH]; intros i Hx Hy.
  - destruct i; discriminate.
  - destruct i as [| i]; simpl in *.
    + inversion Hx; inversion Hy; subst. exact Hab.
    + eapply IH; eassumption.
Qed.

Section DatasetEdges.

Variable cast : np_dtype -> Q -> Q.
Variable augment_batch : ndarray -> ndarray -> M (ndarray * ndarray).

(** X8. The length of a dataset says nothing about its target stack: when
    the target stack is shorter than the image stack, [__getitem__] fails
    with [IndexError], before any augmentation, at every index that the
    image stack has and the target stack lacks, although the index is
    below [len(dataset)]. *)
Theorem getitem_short_target env self index n m rest rest' g :
  shape (image_data self) = n :: rest ->
  shape (target_data self) = m :: rest' ->
  (- Z.of_nat n <= index < Z.of_nat n)%Z ->
  (Z.of_nat m <= index \/ index < - Z.of_nat m)%Z ->
  __len__ self = Ok n
  /\ __getitem__ cast augment_batch env self index g = (Raise IndexError, g).
Proof.
  intros Hi Ht Hin Hout. split.
  - unfold __len__, shape_at. rewrite Hi. reflexivity.
  - destruct (getitem0_in_range _ _ _ index Hi Hin) as (p0 & Hp0 & _).
    unfold __getitem__, bind, lift.
    rewrite Hp0, (getitem0_out_of_range _ _ _ index Ht Hout). reflexivity.
Qed.

Variable model : ndarray -> ndarray.

Lemma load_batch_run env self i n rest rest' g :
  patch_augment self = false ->
  shape (image_data self) = n :: rest ->
  shape (target_data self) = n :: rest' ->
  (i < n)%nat ->
  ~ train_std env == 0 -> ~ target_std env == 0 ->
  exists stored normalized target_batch,
    getitem0 (image_data self) (Z.of_nat i) = Ok stored
    /\ shape stored = rest
    /\ normalize stored (train_mean env) (train_std env) = Ok normalized
    /\ load_batch cast augment_batch env self i g
       = (Ok (newaxis (astype cast float32 (newaxis normalized)),
              target_batch), g).
Proof.
  intros Haug Hi Ht Hlt Hs Hs'.
  destruct (getitem_run cast augment_batch env self (Z.of_nat i) n rest rest'
              g Haug Hi Ht ltac:(lia) Hs Hs')
    as (p0 & t0 & p1 & t1 & Hp0 & _ & Hp1 & _ & _ & _ & Hrun).
  destruct (getitem0_in_range _ _ _ (Z.of_nat i) Hi ltac:(lia))
    as (p0' & Hp0' & Hsp & _).
  assert (p0' = p0) by congruence. subst p0'.
  exists p0, p1, (newaxis (astype cast float32 (newaxis t1))).
  repeat (split; [assumption |]).
  unfold load_batch. rewrite (bind_run_Ok _ _ _ _ _ Hrun). reflexivity.
Qed.

Lemma denormalize_batch env stored normalized :
  ~ train_std env == 0 ->
  normalize stored (train_mean env) (train_std env) = Ok normalized ->
  shape (denormalize (newaxis (astype cast float32 (newaxis normalized)))
           (train_mean env) (train_std env))
  = 1%nat :: 1%nat :: shape stored
  /\ data (denormalize (newaxis (astype cast float32 (newaxis normalized)))
             (train_mean env) (train_std env))
     = map (fun x =>
              cast float32 ((x - train_mean env) / train_std env)
              * train_std env + train_mean env)
         (data stored).
Proof.
  intros Hs Hn. rewrite (normalize_run _ _ _ Hs) in Hn.
  inversion Hn; subst normalized; clear Hn. split; [reflexivity |].
  simpl. rewrite !map_map. reflexivity.
Qed.

Lemma denormalize_exact mean std (l : list Q) :
  ~ std == 0 ->
  Forall (fun x => cast float32 ((x - mean) / std) == (x - mean) / std) l ->
  Forall2 Qeq
    (map (fun x => cast float32 ((x - mean) / std) * std + mean) l) l.
Proof.
  intros Hs Hall. induction Hall as [| x l Hx Hall IH]; simpl; constructor.
  - rewrite Hx. field. exact Hs.
  - exact IH.
Qed.

Lemma prediction_loop_over_run env self n rest rest' g :
  patch_augment self = false ->
  shape (image_data self) = n :: rest ->
  shape (target_data self) = n :: rest' ->
  ~ train_std env == 0 -> ~ target_std env == 0 ->
  forall batches acc,
    Forall (fun i => (i < n)%nat) batches ->
    exists test_images predictions,
      prediction_loop_over cast augment_batch model batches env self acc g
      = (Ok (fst acc ++ test_images, snd acc ++ predictions), g)
      /\ length predictions = length batches
      /\ Forall2 (fun i image =>
           exists stored,
             getitem0 (image_data self) (Z.of_nat i) = Ok stored
             /\ shape image = 1%nat :: 1%nat :: rest
             /\ data image
                = map (fun x =>
                         cast float32
                           ((x - train_mean env) / train_std env)
                         * train_std env + train_mean env)
                    (data stored))
           batches test_images.
Proof.
  intros Haug Hi Ht Hs Hs' batches.
  induction batches as [| i batches IH]; intros acc Hall.
  - exists [], []. simpl. rewrite !app_nil_r. destruct acc.
    repeat split. constructor.
  - inversion Hall as [| ? ? Hlt Hall']; subst.
    destruct (load_batch_run env self i n rest rest' g Haug Hi Ht Hlt Hs Hs')
      as (stored & normalized & tb & Hst & Hshape & Hnorm & Hload).
    destruct (denormalize_batch env stored normalized Hs Hnorm)
      as [Hdsh Hdd].
    cbn [prediction_loop_over]. rewrite (bind_run_Ok _ _ _ _ _ Hload).
    destruct (IH (fst acc
                  ++ [denormalize
                        (newaxis (astype cast float32 (newaxis normalized)))
                        (train_mean env) (train_std env)],
                  snd acc
                  ++ [denormalize
                        (model
                           (newaxis
                              (astype cast float32 (newaxis normalized))))
                        (train_mean env) (train_std env)]) Hall')
      as (imgs & preds & Hrun & Hlen & Hrel).
    cbn [fst snd] in Hrun. rewrite <- !app_assoc in Hrun.
    eexists (_ :: imgs), (_ :: preds). split; [exact Hrun |].
    split; [simpl; congruence |].
    constructor; [| exact Hrel].
    exists stored. rewrite Hdsh, Hshape. auto.
Qed.

(** X9. The prediction loop over a dataset without augmentation gives one
    entry of [test_images] and one of [predictions] per item, in order,
    and draws nothing, whatever the conversion to float32 does.  Entry [i]
    of [test_images] has a batch axis and a channel axis before the shape
    of the stored image [i]; its elements are those of the stored image,
    normalized, converted to float32 and denormalized with the training
    statistics.  They are the stored elements themselves when the
    conversion leaves the normalized values of that image as they are
    ([normalize] and [denormalize] in exact arithmetic). *)
Theorem prediction_loop_recovers_images env test_dataset n rest rest' g :
  patch_augment test_dataset = false ->
  shape (image_data test_dataset) = n :: rest ->
  shape (target_data test_dataset) = n :: rest' ->
  ~ train_std env == 0 -> ~ target_std env == 0 ->
  exists test_images predictions,
    prediction_loop cast augment_batch model env test_dataset g
    = (Ok (test_images, predictions), g)
    /\ length test_images = n /\ length predictions = n
    /\ forall i, (i < n)%nat ->
       exists image stored,
         nth_error test_images i = Some image
         /\ getitem0 (image_data test_dataset) (Z.of_nat i) = Ok stored
         /\ shape image = 1%nat :: 1%nat :: rest
         /\ data image
            = map (fun x =>
                     cast float32 ((x - train_mean env) / train_std env)
                     * train_std env + train_mean env)
                (data stored)
         /\ (Forall (fun x =>
                       cast float32 ((x - train_mean env) / train_std env)
                       == (x - train_mean env) / train_std env)
                (data stored) ->
             Forall2 Qeq (data image) (data stored)).
Proof.
  intros Haug Hi Ht Hs Hs'.
  assert (Hall : Forall (fun i => (i < n)%nat) (seq 0 n)).
  { apply Forall_forall. intros i Hin. apply in_seq in Hin. lia. }
  destruct (prediction_loop_over_run env test_dataset n rest rest' g
              Haug Hi Ht Hs Hs' (seq 0 n) ([], []) Hall)
    as (imgs & preds & Hrun & Hlen & Hrel).
  simpl in Hrun.
  pose proof (Forall2_length Hrel) as Hlen'. rewrite length_seq in Hlen, Hlen'.
  exists imgs, preds. split.
  - unfold prediction_loop, __len__, shape_at. rewrite Hi. cbn [nth_error].
    unfold bind at 1. unfold lift at 1. exact Hrun.
  - split; [congruence |]. split; [exact Hlen |].
    intros i Hlt.
    destruct (nth_error imgs i) as [image |] eqn:Hnth;
      [| apply nth_error_None in Hnth; lia].
    assert (Hseq : nth_error (seq 0 n) i = Some i).
    { rewrite nth_error_seq. destruct (Nat.ltb_spec i n); [reflexivity | lia]. }
    destruct (Forall2_nth_error_pair _ _ _ _ _ _ Hrel Hseq Hnth)
      as (stored & Hst & Hsh & Hdd).
    exists image, stored. split; [reflexivity |].
    repeat (split; [assumption |]).
    intros Hexact. rewrite Hdd.
    exact (denormalize_exact _ _ _ Hs Hexact).
Qed.

End DatasetEdges.

(** * The split of the training files *)

Lemma take_Passed {A : Type} (a : list A) indices xs :
  take a indices = Passed xs ->
  Forall2 (fun i x => nth_error a i = Some x) indices xs.
Proof.
  revert xs. induction indices as [| i rest IH]; intros xs H; simpl in H.
  - inversion H. constructor.
  - destruct (nth_error a i) as [x |] eqn:Hx; [| discriminate].
    destruct (take a rest) as [ys | e]; [| discriminate].
    inversion H; subst. constructor; [exact Hx | apply IH; reflexivity].
Qed.

Lemma take_run {A : Type} (a : list A) indices :
  Forall (fun i => (i < List.length a)%nat) indices ->
  exists xs, take a indices = Passed xs.
Proof.
  induction 1 as [| i rest Hi Hrest (xs & IH)]; simpl.
  - eexists. reflexivity.
  - destruct (nth_error a i) as [x |] eqn:Hx;
      [| apply nth_error_None in Hx; lia].
    rewrite IH. eexists. reflexivity.
Qed.

Lemma take_same_failure {A : Type} (a b : list A) indices :
  List.length a = List.length b ->
  (exists xs, take a indices = Passed xs)
  -> exists ys, take b indices = Passed ys.
Proof.
  intros Hlen (xs & Hxs). apply take_run.
  apply take_Passed in Hxs.
  induction Hxs as [| i x rest xs Hi Hxs IH]; constructor; [| exact IH].
  rewrite <- Hlen. apply nth_error_Some. congruence.
Qed.

Lemma nth_error_seq_all {A : Type} (a : list A) :
  map (nth_error a) (seq 0 (List.length a)) = map Some a.
Proof.
  induction a as [| x a IH]; [reflexivity |].
  simpl. f_equal. rewrite <- seq_shift, map_map. exact IH.
Qed.

Lemma take_permutation {A : Type} (a : list A) indices xs :
  Permutation indices (seq 0 (List.length a)) ->
  take a indices = Passed xs ->
  Permutation xs a.
Proof.
  intros Hperm Htake. apply take_Passed in Htake.
  assert (Hmap : map (nth_error a) indices = map Some xs).
  { clear Hperm. induction Htake as [| i x rest xs Hi _ IH]; simpl;
      congruence. }
  pose proof (Permutation_map (nth_error a) Hperm) as Hp.
  rewrite Hmap, nth_error_seq_all in Hp.
  apply Permutation_map_inv in Hp as (l3 & Heq & Hp).
  assert (l3 = xs).
  { clear - Heq. revert xs Heq.
    induction l3 as [| y l3 IH]; intros [| x xs] Heq; simpl in Heq;
      try discriminate; [reflexivity |].
    inversion Heq; subst. f_equal. apply IH. assumption. }
  subst l3. symmetry. exact Hp.
Qed.

Section SplitFilesProperties.

Variable Path : Type.
Variable name : Path -> string.
Variable split_index : nat -> Z.

Lemma names_match_nth a b :
  names_match name a b = true <->
  forall i x y, nth_error a i = Some x -> nth_error b i = Some y ->
                name x = name y.
Proof.
  unfold names_match. revert b.
  induction a as [| x0 a IH]; intros b; simpl.
  - split; [| reflexivity]. intros _ i x y Hx. destruct i; discriminate.
  - destruct b as [| y0 b]; simpl.
    + split; [| reflexivity]. intros _ i x y _ Hy. destruct i; discriminate.
    + rewrite andb_true_iff, String.eqb_eq, IH. split.
      * intros [H0 H] [| i] x y Hx Hy; simpl in *.
        -- inversion Hx; inversion Hy; subst. exact H0.
        -- eapply H; eassumption.
      * intros H. split.
        -- apply (H 0%nat); reflexivity.
        -- intros i x y Hx Hy. apply (H (S i)); assumption.
Qed.

Lemma names_match_take a b indices a' b' :
  names_match name a b = true ->
  take a indices = Passed a' -> take b indices = Passed b' ->
  names_match name a' b' = true.
Proof.
  intros Hm Ha Hb. apply take_Passed in Ha, Hb.
  rewrite names_match_nth in *. intros i x y Hx Hy.
  destruct (nth_error indices i) as [j |] eqn:Hj.
  - pose proof (Forall2_nth_error_pair _ _ _ _ _ _ Ha Hj Hx) as Hax.
    pose proof (Forall2_nth_error_pair _ _ _ _ _ _ Hb Hj Hy) as Hby.
    exact (Hm j x y Hax Hby).
  - apply nth_error_None in Hj. rewrite (Forall2_length Ha) in Hj.
    apply nth_error_None in Hj. congruence.
Qed.

Lemma names_match_slices a b k :
  names_match name a b = true ->
  names_match name (firstn k a) (firstn k b) = true
  /\ names_match name (skipn k a) (skipn k b) = true.
Proof.
  intros Hm. rewrite !names_match_nth in *. split; intros i x y Hx Hy.
  - destruct (Nat.lt_ge_cases i k) as [Hlt | Hge].
    + rewrite nth_error_firstn in Hx, Hy.
      destruct (Nat.ltb_spec i k); [| lia]. eapply Hm; eassumption.
    + assert (Hnone : nth_error (firstn k a) i = None).
      { apply nth_error_None. rewrite length_firstn. lia. }
      congruence.
  - rewrite nth_error_skipn in Hx, Hy. eapply Hm; eassumption.
Qed.

Lemma take_length {A : Type} (a : list A) indices xs :
  take a indices = Passed xs -> List.length xs = List.length indices.
Proof.
  intros H. apply take_Passed in H. symmetry. eapply Forall2_length, H.
Qed.

(** X10. The last two assertions of the cell cannot fail: once the file
    names match pairwise after the shuffle, they match in the training
    part and in the validation part, the two lists being cut at the same
    index.  Whatever the listings, the permutation and the split
    fraction, the cell never stops with "Train files do not match" or
    "Val files do not match". *)
Theorem split_files_late_assertions image_files target_files
    shuffled_indices :
  split_files name split_index image_files target_files shuffled_indices
  <> Failed (AssertionError Train_files_do_not_match)
  /\ split_files name split_index image_files target_files shuffled_indices
     <> Failed (AssertionError Val_files_do_not_match).
Proof.
  unfold split_files.
  destruct (negb _); [split; discriminate |].
  destruct (take image_files shuffled_indices) as [a | e] eqn:Ha.
  2: { destruct e as [m |]; [| split; discriminate].
       exfalso. clear - Ha. revert Ha.
       generalize shuffled_indices as l. induction l as [| i l IH].
       - discriminate.
       - simpl. destruct (nth_error image_files i); [| discriminate].
         destruct (take image_files l) eqn:Hl; [discriminate |].
         intros H. inversion H; subst. apply IH. reflexivity. }
  destruct (take target_files shuffled_indices) as [b | e] eqn:Hb.
  2: { destruct e as [m |]; [| split; discriminate].
       exfalso. clear - Hb. revert Hb.
       generalize shuffled_indices as l. induction l as [| i l IH].
       - discriminate.
       - simpl. destruct (nth_error target_files i); [| discriminate].
         destruct (take target_files l) eqn:Hl; [discriminate |].
         intros H. inversion H; subst. apply IH. reflexivity. }
  destruct (names_match name a b) eqn:Hm; cbn [negb];
    [| split; discriminate].
  assert (Hlen : List.length a = List.length b).
  { rewrite (take_length _ _ _ Ha), (take_length _ _ _ Hb). reflexivity. }
  unfold slice_to, slice_from. rewrite <- Hlen.
  destruct (names_match_slices a b
              (slice_bound (List.length a) (split_index (List.length a))) Hm)
    as [Ht Hv].
  rewrite Ht, Hv. cbn [negb]. split; discriminate.
Qed.

(** X11. When the two listings go pair by pair (as many target files as
    image files, the same name at the same position) and the shuffled
    indices are within bounds, the cell passes all its assertions,
    whatever the split fraction. *)
Theorem split_files_passes image_files target_files shuffled_indices :
  List.length image_files = List.length target_files ->
  names_match name image_files target_files = true ->
  Forall (fun i => (i < List.length image_files)%nat) shuffled_indices ->
  exists split,
    split_files name split_index image_files target_files shuffled_indices
    = Passed split.
Proof.
  intros Hlen Hm Hidx.
  destruct (take_run image_files shuffled_indices Hidx) as (a & Ha).
  destruct (take_same_failure image_files target_files shuffled_indices
              Hlen (ex_intro _ a Ha)) as (b & Hb).
  pose proof (names_match_take _ _ _ _ _ Hm Ha Hb) as Hm'.
  assert (Hlen' : List.length a = List.length b).
  { rewrite (take_length _ _ _ Ha), (take_length _ _ _ Hb). reflexivity. }
  destruct (names_match_slices a b
              (slice_bound (List.length a) (split_index (List.length a)))
              Hm') as [Ht Hv].
  unfold split_files. rewrite Hlen, Nat.eqb_refl, Ha, Hb, Hm'. cbn [negb].
  unfold slice_to, slice_from. rewrite <- Hlen', Ht, Hv. cbn [negb].
  eexists. reflexivity.
Qed.

(** X12. When the cell passes and the shuffled indices are a permutation
    of [range(len(image_files))], the training and the validation files
    together are the listed files, each once, for the images and for the
    targets; the image list and the target list of each part have the
    same length, and the training part has [int(fraction * n)] files,
    clipped to [[0, n]]. *)
Theorem split_files_partition image_files target_files shuffled_indices
    split :
  Permutation shuffled_indices (seq 0 (List.length image_files)) ->
  split_files name split_index image_files target_files shuffled_indices
  = Passed split ->
  Permutation (train_image_files split ++ val_image_files split) image_files
  /\ Permutation (train_target_files split ++ val_target_files split)
       target_files
  /\ List.length (train_image_files split)
     = List.length (train_target_files split)
  /\ List.length (val_image_files split)
     = List.length (val_target_files split)
  /\ List.length (train_image_files split)
     = slice_bound (List.length image_files)
         (split_index (List.length image_files)).
Proof.
  intros Hperm. unfold split_files.
  destruct (Nat.eqb_spec (List.length image_files)
              (List.length target_files)) as [Hlen | Hlen];
    cbn [negb]; [| discriminate].
  destruct (take image_files shuffled_indices) as [a | e] eqn:Ha;
    [| discriminate].
  destruct (take target_files shuffled_indices) as [b | e] eqn:Hb;
    [| discriminate].
  destruct (negb (names_match name a b)); [discriminate |].
  destruct (negb (names_match name (slice_to a _) (slice_to b _)));
    [discriminate |].
  destruct (negb (names_match name (slice_from a _) (slice_from b _)));
    [discriminate |].
  intros H. inversion H; subst split; clear H. cbn.
  pose proof (take_length _ _ _ Ha) as Hla.
  pose proof (take_length _ _ _ Hb) as Hlb.
  pose proof (Permutation_length Hperm) as Hlp. rewrite length_seq in Hlp.
  unfold slice_to, slice_from. rewrite !firstn_skipn.
  split; [apply (take_permutation _ _ _ Hperm Ha) |].
  split; [rewrite Hlen in Hperm; apply (take_permutation _ _ _ Hperm Hb) |].
  assert (Hab : List.length a = List.length b) by congruence.
  rewrite <- Hab, !length_firstn, !length_skipn, <- Hab.
  pose proof (slice_bound_le (List.length a) (split_index (List.length a))).
  repeat split; try lia.
  rewrite Hla, Hlp in *. lia.
Qed.

End SplitFilesProperties.

(** * The training loop *)

Section TrainingProperties.

Variable Params : Type.
Variable train_step : Params -> ndarray -> ndarray -> Params * ndarray.
Variable forward_eval : Params -> ndarray -> ndarray.
Variable loss : ndarray -> ndarray -> Q.
Variable train_dataloader : nat -> list (ndarray * ndarray).
Variable val_dataloader : list (ndarray * ndarray).
Variable len_train_dataloader : nat.

Lemma train_epoch_keeps batches vars :
  model_params (train_epoch Params train_step loss batches vars)
  = fold_left (fun p b => fst (train_step p (fst b) (snd b))) batches
      (model_params vars)
  /\ tb_logger (train_epoch Params train_step loss batches vars)
     = tb_logger vars
  /\ train_losses (train_epoch Params train_step loss batches vars)
     = train_losses vars
  /\ val_losses (train_epoch Params train_step loss batches vars)
     = val_losses vars.
Proof.
  revert vars. induction batches as [| [ib tb] rest IH]; intros vars.
  - repeat split.
  - cbn [train_epoch fold_left fst snd].
    destruct (train_step (model_params vars) ib tb) as [p o] eqn:Hstep.
    destruct (IH (mk_loop_vars Params p (Some (loss o tb))
                    (Some (ib, tb, o)) (tb_logger vars)
                    (train_losses vars) (val_losses vars)))
      as (H1 & H2 & H3 & H4).
    cbn [model_params tb_logger train_losses val_losses] in *.
    repeat split; assumption.
Qed.

Lemma train_epoch_bound batches vars :
  batches <> [] ->
  exists l b, train_loss (train_epoch Params train_step loss batches vars)
              = Some l
              /\ batch_target_output
                   (train_epoch Params train_step loss batches vars)
                 = Some b.
Proof.
  revert vars. induction batches as [| [ib tb] rest IH]; intros vars Hne;
    [congruence |].
  cbn [train_epoch].
  destruct (train_step (model_params vars) ib tb) as [p o].
  destruct rest as [| b' rest'].
  - simpl. eauto.
  - apply IH. discriminate.
Qed.

Lemma train_epoch_nil vars :
  train_epoch Params train_step loss [] vars = vars.
Proof. reflexivity. Qed.

Lemma validate_keeps batches vars val_loss :
  model_params (fst (validate Params forward_eval loss batches vars val_loss))
  = model_params vars
  /\ train_loss (fst (validate Params forward_eval loss batches vars val_loss))
     = train_loss vars
  /\ tb_logger (fst (validate Params forward_eval loss batches vars val_loss))
     = tb_logger vars
  /\ train_losses
       (fst (validate Params forward_eval loss batches vars val_loss))
     = train_losses vars
  /\ val_losses
       (fst (validate Params forward_eval loss batches vars val_loss))
     = val_losses vars.
Proof.
  revert vars val_loss.
  induction batches as [| [b t] rest IH]; intros vars val_loss.
  - repeat split.
  - cbn [validate].
    destruct (IH (mk_loop_vars Params (model_params vars) (train_loss vars)
                    (Some (b, t, forward_eval (model_params vars) b))
                    (tb_logger vars) (train_losses vars) (val_losses vars))
                (LossTensor (loss (forward_eval (model_params vars) b) t)))
      as (H1 & H2 & H3 & H4 & H5).
    cbn [model_params train_loss tb_logger train_losses val_losses] in *.
    repeat split; assumption.
Qed.

Lemma validate_last batches batch target vars val_loss :
  snd (validate Params forward_eval loss (batches ++ [(batch, target)])
         vars val_loss)
  = LossTensor (loss (forward_eval (model_params vars) batch) target)
  /\ batch_target_output
       (fst (validate Params forward_eval loss (batches ++ [(batch, target)])
               vars val_loss))
     = Some (batch, target, forward_eval (model_params vars) batch).
Proof.
  revert vars val_loss.
  induction batches as [| [b t] rest IH]; intros vars val_loss.
  - split; reflexivity.
  - cbn [app validate].
    destruct (IH (mk_loop_vars Params (model_params vars) (train_loss vars)
                    (Some (b, t, forward_eval (model_params vars) b))
                    (tb_logger vars) (train_losses vars) (val_losses vars))
                (LossTensor (loss (forward_eval (model_params vars) b) t)))
      as [H1 H2].
    cbn [model_params] in *. split; assumption.
Qed.

Lemma run_epoch_Finished epoch vars batches batch target :
  train_dataloader epoch <> [] ->
  val_dataloader = batches ++ [(batch, target)] ->
  exists vars',
    run_epoch Params train_step forward_eval loss train_dataloader
      val_dataloader len_train_dataloader epoch vars
    = Finished vars'
    /\ model_params vars'
       = params_after_epoch Params train_step train_dataloader epoch
           (model_params vars)
    /\ length (tb_logger vars') = (length (tb_logger vars) + 5)%nat
    /\ length (train_losses vars') = S (length (train_losses vars))
    /\ val_losses vars'
       = val_losses vars
         ++ [loss (forward_eval
                     (params_after_epoch Params train_step train_dataloader
                        epoch (model_params vars)) batch) target].
Proof.
  intros Htrain Hval. unfold run_epoch.
  set (v1 := train_epoch Params train_step loss (train_dataloader epoch) vars).
  destruct (train_epoch_keeps (train_dataloader epoch) vars)
    as (Hp1 & Hl1 & Ht1 & Hv1). fold v1 in Hp1, Hl1, Ht1, Hv1.
  destruct (train_epoch_bound (train_dataloader epoch) vars Htrain)
    as (l & b0 & Hloss1 & _). fold v1 in Hloss1.
  rewrite Hval.
  destruct (validate_keeps (batches ++ [(batch, target)]) v1 (PyInt 0))
    as (Hp2 & Hloss2 & Hl2 & Ht2 & Hv2).
  destruct (validate_last batches batch target v1 (PyInt 0)) as [Hvl Hbto].
  destruct (validate Params forward_eval loss (batches ++ [(batch, target)])
              v1 (PyInt 0)) as [v2 vl].
  cbn [fst snd] in *. subst vl.
  rewrite Hloss2, Hloss1, Hbto. eexists. split; [reflexivity |].
  cbn [model_params tb_logger train_losses val_losses].
  unfold params_after_epoch. rewrite Hp2, Hp1, Hl2, Hl1, Ht2, Ht1, Hv2, Hv1.
  repeat split.
  - rewrite !length_app. simpl. lia.
  - rewrite length_app. simpl. lia.
Qed.

Lemma epochs_loop_Finished batches batch target n start vars :
  (forall epoch, (epoch < start + n)%nat -> train_dataloader epoch <> []) ->
  val_dataloader = batches ++ [(batch, target)] ->
  forall params,
    model_params vars
    = params_after Params train_step train_dataloader start params ->
    exists vars',
      epochs_loop Params train_step forward_eval loss train_dataloader
        val_dataloader len_train_dataloader (seq start n) vars
      = Finished vars'
      /\ model_params vars'
         = params_after Params train_step train_dataloader (start + n) params
      /\ length (tb_logger vars') = (length (tb_logger vars) + 5 * n)%nat
      /\ length (train_losses vars') = (length (train_losses vars) + n)%nat
      /\ val_losses vars'
         = val_losses vars
           ++ map (fun epoch =>
                     loss (forward_eval
                             (params_after Params train_step train_dataloader
                                (S epoch) params) batch) target)
                (seq start n).
Proof.
  intros Htrain Hval params. revert start vars Htrain.
  induction n as [| n IH]; intros start vars Htrain Hp.
  - exists vars. simpl. rewrite Nat.add_0_r, app_nil_r.
    repeat split; [exact Hp | lia | lia].
  - cbn [seq epochs_loop].
    destruct (run_epoch_Finished start vars batches batch target
                (Htrain start ltac:(lia)) Hval)
      as (v1 & Hrun & Hp1 & Hl1 & Ht1 & Hv1).
    rewrite Hrun.
    destruct (IH (S start) v1) as (v2 & Hloop & Hp2 & Hl2 & Ht2 & Hv2).
    { intros epoch He. apply Htrain. lia. }
    { rewrite Hp1, Hp. reflexivity. }
    exists v2. split; [exact Hloop |].
    split; [rewrite Hp2; f_equal; lia |].
    split; [lia |]. split; [lia |].
    rewrite Hv2, Hv1, Hp, <- app_assoc. reflexivity.
Qed.

(** X13. With at least one training batch in every epoch and at least one
    validation batch, the training loop runs its [n_epochs] epochs and
    records one training loss and one validation loss per epoch and five
    tensorboard events.  The validation loss of an epoch is the loss on
    the last validation batch alone, under the weights at the end of the
    epoch: the losses on the other validation batches are overwritten. *)
Theorem training_loop_records n_epochs params batches batch target :
  (forall epoch, (epoch < n_epochs)%nat -> train_dataloader epoch <> []) ->
  val_dataloader = batches ++ [(batch, target)] ->
  exists vars,
    training_loop Params train_step forward_eval loss train_dataloader
      val_dataloader len_train_dataloader n_epochs params
    = Finished vars
    /\ model_params vars
       = params_after Params train_step train_dataloader n_epochs params
    /\ length (train_losses vars) = n_epochs
    /\ length (tb_logger vars) = (5 * n_epochs)%nat
    /\ val_losses vars
       = map (fun epoch =>
                loss (forward_eval
                        (params_after Params train_step train_dataloader
                           (S epoch) params) batch) target)
           (seq 0 n_epochs).
Proof.
  intros Htrain Hval. unfold training_loop.
  destruct (epochs_loop_Finished batches batch target n_epochs 0
              (mk_loop_vars Params params None None [] [] [])
              Htrain Hval params eq_refl)
    as (vars & Hloop & Hp & Hl & Ht & Hv).
  exists vars. simpl in *. auto.
Qed.

(** X14. An empty validation loader stops the training loop at the end of
    the first epoch: [val_loss] is still the integer 0 it was set to, and
    [val_loss.item()] raises [AttributeError].  By then the model has been
    trained for one epoch and the five tensorboard events of the epoch
    are written; no loss has been recorded. *)
Theorem training_loop_empty_validation n_epochs params :
  (1 <= n_epochs)%nat ->
  train_dataloader 0%nat <> [] ->
  val_dataloader = [] ->
  exists vars,
    training_loop Params train_step forward_eval loss train_dataloader
      val_dataloader len_train_dataloader n_epochs params
    = Crashed (AttributeError "item") vars
    /\ model_params vars
       = params_after Params train_step train_dataloader 1 params
    /\ length (tb_logger vars) = 5%nat
    /\ train_losses vars = [] /\ val_losses vars = [].
Proof.
  intros Hn Htrain Hval. unfold training_loop.
  destruct n_epochs as [| n]; [lia |]. cbn [seq epochs_loop].
  unfold run_epoch. rewrite Hval. cbn [validate].
  set (v0 := mk_loop_vars Params params None None [] [] []).
  set (v1 := train_epoch Params train_step loss (train_dataloader 0%nat) v0).
  destruct (train_epoch_keeps (train_dataloader 0%nat) v0)
    as (Hp1 & Hl1 & Ht1 & Hv1). fold v1 in Hp1, Hl1, Ht1, Hv1.
  destruct (train_epoch_bound (train_dataloader 0%nat) v0 Htrain)
    as (l & [[b t] o] & Hloss1 & Hbto). fold v1 in Hloss1, Hbto.
  rewrite Hloss1, Hbto. eexists. split; [reflexivity |].
  cbn [model_params tb_logger train_losses val_losses params_after].
  unfold params_after_epoch. rewrite Hp1, Hl1, Ht1, Hv1.
  repeat split.
Qed.

(** X15. A training loader that yields no batch in the first epoch stops
    the loop with [NameError]: [train_loss] is read for the tensorboard
    log before it was ever assigned.  The validation batches have been
    evaluated by then, with the weights the loop started from: [batch],
    [target] and [output] are those of the last validation batch, and
    unbound when there is none.  Nothing is logged or recorded. *)
Theorem training_loop_empty_training n_epochs params :
  (1 <= n_epochs)%nat ->
  train_dataloader 0%nat = [] ->
  exists vars,
    training_loop Params train_step forward_eval loss train_dataloader
      val_dataloader len_train_dataloader n_epochs params
    = Crashed (NameError "train_loss") vars
    /\ model_params vars = params
    /\ tb_logger vars = [] /\ train_losses vars = []
    /\ val_losses vars = []
    /\ (val_dataloader = [] -> batch_target_output vars = None)
    /\ (forall batches batch target,
          val_dataloader = batches ++ [(batch, target)] ->
          batch_target_output vars
          = Some (batch, target, forward_eval params batch)).
Proof.
  intros Hn Htrain. unfold training_loop.
  destruct n_epochs as [| n]; [lia |]. cbn [seq epochs_loop].
  unfold run_epoch. rewrite Htrain. cbn [train_epoch].
  set (v0 := mk_loop_vars Params params None None [] [] []).
  destruct (validate_keeps val_dataloader v0 (PyInt 0))
    as (Hp2 & Hloss2 & Hl2 & Ht2 & Hv2).
  assert (Hnone : val_dataloader = [] ->
                  batch_target_output
                    (fst (validate Params forward_eval loss val_dataloader
                            v0 (PyInt 0))) = None).
  { intros ->. reflexivity. }
  assert (Hlast : forall batches batch target,
             val_dataloader = batches ++ [(batch, target)] ->
             batch_target_output
               (fst (validate Params forward_eval loss val_dataloader
                       v0 (PyInt 0)))
             = Some (batch, target, forward_eval params batch)).
  { intros batches batch target ->.
    exact (proj2 (validate_last batches batch target v0 (PyInt 0))). }
  destruct (validate Params forward_eval loss val_dataloader v0 (PyInt 0))
    as [v2 vl].
  cbn [fst] in *. rewrite Hloss2. cbn [train_loss v0].
  eexists. split; [reflexivity |]. repeat (split; [assumption |]).
  exact Hlast.
Qed.

End TrainingProperties.

(** * The further properties at example inputs *)

Lemma two_samples_run :
  create_patches exact_cast two_samples two_samples [2; 2]%Z rng_example
  = (Ok (two_samples_patches, two_samples_patches),
     mkGenerator (raw rng_example) 12).
Proof. vm_compute. reflexivity. Qed.

Lemma create_patches_sample_major_witness :
  shape_at (shape two_samples_patches) 0 = Ok 6%nat
  /\ exists crop sample patch,
       getitem0 two_samples 1 = Ok sample
       /\ extract_patch exact_cast sample crop [2; 2]%Z = Ok patch
       /\ getitem0 two_samples_patches 4 = Ok patch.
Proof.
  destruct (create_patches_sample_major exact_cast two_samples two_samples
              [2; 2]%Z rng_example two_samples_patches two_samples_patches
              (mkGenerator (raw rng_example) 12)
              eq_refl eq_refl two_samples_run) as (n & Hn & Hs & Hk).
  injection Hn as <-.
  split; [exact Hs |].
  destruct (Hk 4%nat ltac:(vm_compute; lia))
    as (crop & sample & tsample & patch & tpatch
        & Hsample & _ & Hpatch & _ & Hstack & _).
  exists crop, sample, patch. repeat split; assumption.
Defined.

Lemma create_patches_output_form_witness :
  (dtype arange25_patches = float32 /\ dtype arange25_patches = float32)
  /\ (well_formed arange25_patches /\ well_formed arange25_patches)
  /\ (length (shape arange25_patches) = length (shape arange25)
      /\ length (shape arange25_patches) = length (shape arange25)).
Proof.
  exact (create_patches_output_form exact_cast arange25 arange25 [2; 2]%Z
           rng_example arange25_patches arange25_patches
           (mkGenerator (raw rng_example) 14) eq_refl eq_refl arange25_run).
Defined.

Lemma create_patches_empty_stack_witness :
  create_patches exact_cast no_samples no_samples [2; 2]%Z rng_example
  = (Raise ValueError, rng_example).
Proof.
  exact (create_patches_empty_stack exact_cast no_samples no_samples
           [2; 2]%Z rng_example [5; 5]%nat eq_refl).
Defined.

Lemma valid_2_2_in_5_5 : valid_patch_size [5; 5]%nat [2; 2]%Z.
Proof. repeat constructor; simpl; lia. Qed.

Lemma small_5_5 : (Z.of_nat (size_of [5; 5]%nat) < 2 ^ 53)%Z.
Proof. vm_compute. reflexivity. Qed.

Lemma create_patches_short_target_witness :
  exists g',
    create_patches exact_cast arange25 no_samples [2; 2]%Z rng_example
    = (Raise IndexError, g')
    /\ pos g'
       = (pos rng_example
          + 0 * patch_count arange25 [2; 2]%Z * length [2; 2]%Z)%nat.
Proof.
  exact (create_patches_short_target exact_cast arange25 no_samples
           [2; 2]%Z rng_example 1 0 [5; 5]%nat [5; 5]%nat
           eq_refl eq_refl (le_n 1) valid_2_2_in_5_5 small_5_5 (le_n 2)).
Defined.

Lemma create_patches_larger_target_witness :
  exists image_stack target_stack g',
    create_patches exact_cast arange25 two_larger_samples [2; 2]%Z
      rng_example
    = (Ok (image_stack, target_stack), g')
    /\ shape image_stack
       = (1 * patch_count arange25 [2; 2]%Z)%nat :: map Z.to_nat [2; 2]%Z
    /\ shape target_stack
       = (1 * patch_count arange25 [2; 2]%Z)%nat :: map Z.to_nat [2; 2]%Z.
Proof.
  assert (Hle : Forall2 (fun d d' => (d <= d')%nat) [5; 5]%nat [6; 6]%nat).
  { repeat constructor. }
  assert (Hn : (1 <= 1 <= 2)%nat) by lia.
  exact (create_patches_larger_target exact_cast arange25 two_larger_samples
           [2; 2]%Z rng_example 1 2 [5; 5]%nat [6; 6]%nat
           eq_refl eq_refl Hn Hle valid_2_2_in_5_5 small_5_5).
Defined.

Lemma create_patches_full_size_witness :
  exists g',
    create_patches exact_cast arange25 arange25 (map Z.of_nat [5; 5]%nat)
      rng_example
    = (Ok (astype exact_cast float32 arange25,
           astype exact_cast float32 arange25), g').
Proof.
  assert (Hdims : Forall (fun d => (1 <= d)%nat) [5; 5]%nat).
  { repeat constructor; lia. }
  exact (create_patches_full_size exact_cast arange25 arange25 rng_example
           1 [5; 5]%nat eq_refl eq_refl eq_refl eq_refl (le_n 1) Hdims
           small_5_5).
Defined.

Lemma getitem_short_target_witness :
  __len__ (__init__ three_patches two_patches false) = Ok 3%nat
  /\ __getitem__ exact_cast no_augment unit_stats
       (__init__ three_patches two_patches false) 2 rng_example
     = (Raise IndexError, rng_example).
Proof.
  assert (Hin : (- Z.of_nat 3 <= 2 < Z.of_nat 3)%Z) by (simpl; lia).
  assert (Hout : (Z.of_nat 2 <= 2 \/ 2 < - Z.of_nat 2)%Z)
    by (left; simpl; lia).
  exact (getitem_short_target exact_cast no_augment unit_stats
           (__init__ three_patches two_patches false) 2 3 2
           [2; 2]%nat [2; 2]%nat rng_example eq_refl eq_refl Hin Hout).
Defined.

Lemma two_nonzero : ~ 2 == 0.
Proof. unfold Qeq. simpl. lia. Qed.

Lemma prediction_loop_recovers_images_witness :
  ~ rounding_cast float32 16777217 == 16777217
  /\ exists test_images predictions image,
       prediction_loop rounding_cast no_augment identity_model odd_stats
         two_patch_dataset rng_example
       = (Ok (test_images, predictions), rng_example)
       /\ length test_images = 2%nat /\ length predictions = 2%nat
       /\ nth_error test_images 1 = Some image
       /\ shape image = [1; 1; 2; 2]%nat
       /\ Forall2 Qeq (data image) [4; 5; 6; 7].
Proof.
  split; [vm_compute; congruence |].
  destruct (prediction_loop_recovers_images rounding_cast no_augment
              identity_model odd_stats two_patch_dataset 2
              [2; 2]%nat [2; 2]%nat rng_example eq_refl
              eq_refl eq_refl two_nonzero two_nonzero)
    as (imgs & preds & Hrun & Hl & Hl' & Hitems).
  destruct (Hitems 1%nat ltac:(lia))
    as (image & stored & Hnth & Hst & Hsh & _ & Hexact).
  vm_compute in Hst. injection Hst as <-.
  exists imgs, preds, image. repeat (split; [assumption |]).
  apply Hexact. repeat constructor; vm_compute; reflexivity.
Defined.

Lemma split_files_passes_witness :
  exists split,
    split_files (fun p : string => p) four_fifths low_files gt_files
      [1; 0]%nat
    = Passed split.
Proof.
  assert (Hidx : Forall (fun i => (i < List.length low_files)%nat)
                   [1; 0]%nat).
  { repeat constructor. }
  exact (split_files_passes string (fun p : string => p) four_fifths
           low_files gt_files [1; 0]%nat eq_refl eq_refl Hidx).
Defined.

Lemma split_files_partition_witness :
  Permutation (["img_1.tif"%string] ++ ["img_0.tif"%string]) low_files
  /\ Permutation (["img_1.tif"%string] ++ ["img_0.tif"%string]) gt_files.
Proof.
  destruct (split_files_partition string (fun p : string => p) four_fifths
              low_files gt_files [1; 0]%nat
              (mk_file_split ["img_1.tif"%string] ["img_1.tif"%string]
                 ["img_0.tif"%string] ["img_0.tif"%string])
              (perm_swap 0%nat 1%nat []) eq_refl)
    as (Hi & Ht & _).
  split; assumption.
Defined.

Lemma one_batch_nonempty : one_batch <> [].
Proof. discriminate. Qed.

Lemma training_loop_records_witness :
  exists vars,
    training_loop nat counting_step (fun _ b => b) first_pixel_loss
      (fun _ => one_batch) one_batch 1 3 0%nat
    = Finished vars
    /\ model_params vars = 3%nat
    /\ length (train_losses vars) = 3%nat
    /\ length (val_losses vars) = 3%nat.
Proof.
  destruct (training_loop_records nat counting_step (fun _ b => b)
              first_pixel_loss (fun _ => one_batch) one_batch 1 3 0%nat
              [] two_patches two_patches
              (fun _ _ => one_batch_nonempty) eq_refl)
    as (vars & Hrun & Hp & Hl & _ & Hv).
  exists vars. split; [exact Hrun |]. split; [exact Hp |].
  split; [exact Hl |]. rewrite Hv. reflexivity.
Defined.

Lemma training_loop_empty_validation_witness :
  exists vars,
    training_loop nat counting_step (fun _ b => b) first_pixel_loss
      (fun _ => one_batch) [] 1 3 0%nat
    = Crashed (AttributeError "item") vars
    /\ model_params vars = 1%nat.
Proof.
  assert (Hn : (1 <= 3)%nat) by lia.
  destruct (training_loop_empty_validation nat counting_step (fun _ b => b)
              first_pixel_loss (fun _ => one_batch) [] 1 3 0%nat
              Hn one_batch_nonempty eq_refl)
    as (vars & Hrun & Hp & _).
  exists vars. split; assumption.
Defined.

Lemma training_loop_empty_training_witness :
  exists vars,
    training_loop nat counting_step (fun _ b => b) first_pixel_loss
      (fun _ => []) one_batch 1 3 0%nat
    = Crashed (NameError "train_loss") vars
    /\ model_params vars = 0%nat
    /\ batch_target_output vars
       = Some (two_patches, two_patches, two_patches).
Proof.
  assert (Hn : (1 <= 3)%nat) by lia.
  destruct (training_loop_empty_training nat counting_step (fun _ b => b)
              first_pixel_loss (fun _ => []) one_batch 1 3 0%nat
              Hn eq_refl)
    as (vars & Hrun & Hp & _ & _ & _ & _ & Hlast).
  exists vars. split; [exact Hrun |]. split; [exact Hp |].
  exact (Hlast [] two_patches two_patches eq_refl).
Defined.

(** * The content of a patch *)






Section PatchContent.

Variable cast : np_dtype -> Q -> Q.



End PatchContent.


(** * The training losses *)

Section TrainingLosses.

Variable Params : Type.
Variable train_step : Params -> ndarray -> ndarray -> Params * ndarray.
Variable forward_eval : Params -> ndarray -> ndarray.
Variable loss : ndarray -> ndarray -> Q.
Variable train_dataloader : nat -> list (ndarray * ndarray).
Variable val_dataloader : list (ndarray * ndarray).
Variable len_train_dataloader : nat.

Lemma train_epoch_last batches image_batch target_batch vars :
  train_loss (train_epoch Params train_step loss
                (batches ++ [(image_batch, target_batch)]) vars)
  = Some (loss (snd (train_step
                       (fold_left
                          (fun p b => fst (train_step p (fst b) (snd b)))
                          batches (model_params vars))
                       image_batch target_batch)) target_batch).
Proof.
  revert vars. induction batches as [| [ib tb] rest IH]; intros vars.
  - cbn [app train_epoch fold_left].
    destruct (train_step (model_params vars) image_batch target_batch).
    reflexivity.
  - cbn [app train_epoch fold_left fst snd].
    destruct (train_step (model_params vars) ib tb) as [p o].
    rewrite IH. reflexivity.
Qed.

Lemma run_epoch_Finished_inv epoch vars vars' :
  run_epoch Params train_step forward_eval loss train_dataloader
    val_dataloader len_train_dataloader epoch vars
  = Finished vars' ->
  model_params vars'
  = params_after_epoch Params train_step train_dataloader epoch
      (model_params vars)
  /\ exists l,
       train_loss (train_epoch Params train_step loss
                     (train_dataloader epoch) vars) = Some l
       /\ train_losses vars' = train_losses vars ++ [l].
Proof.
  unfold run_epoch.
  set (v1 := train_epoch Params train_step loss (train_dataloader epoch) vars).
  destruct (train_epoch_keeps Params train_step loss
              (train_dataloader epoch) vars) as (Hp1 & _ & Ht1 & _).
  fold v1 in Hp1, Ht1.
  destruct (validate_keeps Params forward_eval loss val_dataloader v1
              (PyInt 0)) as (Hp2 & Hloss2 & _ & Ht2 & _).
  destruct (validate Params forward_eval loss val_dataloader v1 (PyInt 0))
    as [v2 vl].
  cbn [fst] in *. rewrite Hloss2.
  destruct (train_loss v1) as [l |]; [| discriminate].
  destruct (batch_target_output v2) as [[[b t] o] |]; [| discriminate].
  destruct vl as [z | q]; [discriminate |].
  intros H. injection H as <-.
  cbn [model_params train_losses]. unfold params_after_epoch.
  rewrite Hp2, Hp1, Ht2, Ht1. split; [reflexivity |].
  exists l. split; reflexivity.
Qed.

Lemma epochs_loop_train_losses params n start vars vars' :
  model_params vars
  = params_after Params train_step train_dataloader start params ->
  length (train_losses vars) = start ->
  epochs_loop Params train_step forward_eval loss train_dataloader
    val_dataloader len_train_dataloader (seq start n) vars
  = Finished vars' ->
  (forall epoch x,
      nth_error (train_losses vars) epoch = Some x ->
      nth_error (train_losses vars') epoch = Some x)
  /\ forall epoch batches image_batch target_batch,
       (start <= epoch < start + n)%nat ->
       train_dataloader epoch = batches ++ [(image_batch, target_batch)] ->
       nth_error (train_losses vars') epoch
       = Some (loss (snd (train_step
                            (fold_left
                               (fun p b => fst (train_step p (fst b) (snd b)))
                               batches
                               (params_after Params train_step
                                  train_dataloader epoch params))
                            image_batch target_batch)) target_batch).
Proof.
  revert start vars. induction n as [| n IH]; intros start vars Hp Hlen Hrun.
  - cbn [seq epochs_loop] in Hrun. injection Hrun as <-.
    split; [auto | intros; lia].
  - cbn [seq epochs_loop] in Hrun.
    destruct (run_epoch Params train_step forward_eval loss train_dataloader
                val_dataloader len_train_dataloader start vars)
      as [v1 | e v1] eqn:Hepoch; [| discriminate].
    apply run_epoch_Finished_inv in Hepoch as (Hp1 & l & Hl & Ht1).
    destruct (IH (S start) v1) as [Hkeep Hnew].
    { rewrite Hp1, Hp. reflexivity. }
    { rewrite Ht1, length_app. simpl. lia. }
    { exact Hrun. }
    split.
    + intros epoch x Hx. apply Hkeep. rewrite Ht1.
      rewrite nth_error_app1; [exact Hx |].
      apply nth_error_Some. congruence.
    + intros epoch batches ib tb He Hb.
      destruct (Nat.eq_dec epoch start) as [-> | Hne].
      * apply Hkeep. rewrite Ht1, nth_error_app2 by lia.
        rewrite Hlen, Nat.sub_diag. cbn [nth_error].
        rewrite Hb, train_epoch_last, Hp in Hl. congruence.
      * apply Hnew; [lia | exact Hb].
Qed.

(** X17. When the training loop finishes, the training loss it recorded
    for an epoch is the loss on the last training batch of that epoch
    alone, computed with the weights the model had before the step on
    that batch: the losses on the earlier batches of the epoch are
    overwritten, not averaged. *)
Theorem training_loop_train_losses n_epochs params vars epoch batches
    image_batch target_batch :
  training_loop Params train_step forward_eval loss train_dataloader
    val_dataloader len_train_dataloader n_epochs params
  = Finished vars ->
  (epoch < n_epochs)%nat ->
  train_dataloader epoch = batches ++ [(image_batch, target_batch)] ->
  nth_error (train_losses vars) epoch
  = Some (loss (snd (train_step
                       (fold_left
                          (fun p b => fst (train_step p (fst b) (snd b)))
                          batches
                          (params_after Params train_step train_dataloader
                             epoch params))
                       image_batch target_batch)) target_batch).
Proof.
  intros Hrun He Hb. unfold training_loop in Hrun.
  destruct (epochs_loop_train_losses params n_epochs 0
              (mk_loop_vars Params params None None [] [] []) vars
              eq_refl eq_refl Hrun) as [_ Hnew].
  apply Hnew; [lia | exact Hb].
Qed.

End TrainingLosses.

Lemma three_epochs_run :
  training_loop nat scaling_step (fun _ b => b) first_pixel_loss
    (fun _ => two_batches) one_batch 2 3 0%nat
  = Finished three_epochs_vars.
Proof. vm_compute. reflexivity. Qed.

Lemma training_loop_train_losses_witness :
  nth_error (train_losses three_epochs_vars) 1
  = Some (first_pixel_loss (snd (scaling_step 3 last_batch last_batch))
            last_batch)
  /\ first_pixel_loss (snd (scaling_step 3 last_batch last_batch)) last_batch
     == 10
  /\ ~ first_pixel_loss (snd (scaling_step 2 first_batch first_batch))
         first_batch == 10
  /\ ~ first_pixel_loss (snd (scaling_step 4 last_batch last_batch))
         last_batch == 10.
Proof.
  split.
  - apply (training_loop_train_losses nat scaling_step (fun _ b => b)
             first_pixel_loss (fun _ => two_batches) one_batch 2 3 0%nat
             three_epochs_vars 1 [(first_batch, first_batch)]
             last_batch last_batch three_epochs_run); [lia | reflexivity].
  - repeat split; vm_compute; congruence.
Defined.

(** * The values of the patches *)

Lemma In_firstn {A : Type} n (l : list A) x : In x (firstn n l) -> In x l.
Proof.
  intros H. rewrite <- (firstn_skipn n l). apply in_or_app. left. exact H.
Qed.

Lemma In_skipn {A : Type} n (l : list A) x : In x (skipn n l) -> In x l.
Proof.
  intros H. rewrite <- (firstn_skipn n l). apply in_or_app. right. exact H.
Qed.

Lemma chunks_incl sz n (l c : list Q) :
  In c (chunks sz n l) -> incl c l.
Proof.
  revert l. induction n as [| n IH]; intros l Hc; [contradiction |].
  destruct Hc as [<- | Hc].
  - intros x Hx. exact (In_firstn sz l x Hx).
  - intros x Hx. apply (In_skipn sz l x). exact (IH _ Hc x Hx).
Qed.

Lemma slice_data_incl sh sl l : incl (slice_data sh sl l) l.
Proof.
  revert sl l. induction sh as [| d sh IH]; intros sl l;
    [apply incl_refl |].
  destruct sl as [| s sl]; [apply incl_refl |].
  cbn [slice_data]. destruct (axis_range d s) as [lo len].
  intros x Hx. apply in_flat_map in Hx as (c & Hc & Hx).
  apply IH in Hx. apply chunks_incl in Hc. apply Hc in Hx.
  exact (In_skipn _ l x Hx).
Qed.

Lemma getitem0_incl a index b :
  getitem0 a index = Ok b -> incl (data b) (data a).
Proof.
  unfold getitem0. destruct (shape a) as [| n rest]; [discriminate |].
  destruct (_ && _); [| discriminate].
  intros H. injection H as <-. cbn [data]. intros x Hx.
  apply In_firstn in Hx. exact (In_skipn _ _ x Hx).
Qed.

Section PatchValues.

Variable cast : np_dtype -> Q -> Q.

Lemma extract_patch_values sample crop patch_size patch x :
  extract_patch cast sample crop patch_size = Ok patch ->
  In x (data patch) ->
  exists y, In y (data sample) /\ x = cast float32 y.
Proof.
  unfold extract_patch, getitem_ellipsis.
  destruct (_ <? _)%nat; [discriminate |]. cbn [rbind].
  intros H. injection H as <-. cbn [data astype copy]. intros Hx.
  apply in_map_iff in Hx as (y & <- & Hy).
  exists y. split; [| reflexivity]. exact (slice_data_incl _ _ _ y Hy).
Qed.

(** X18. Whatever the patch size and the shapes, the stacks that
    [create_patches] returns hold no value of their own: every element of
    the stack of noisy patches is the float32 conversion of an element of
    the noisy input stack, and every element of the stack of target
    patches that of an element of the target input stack. *)
Theorem create_patches_values image_array target_array patch_size g
    image_stack target_stack g' :
  create_patches cast image_array target_array patch_size g
  = (Ok (image_stack, target_stack), g') ->
  (forall x, In x (data image_stack) ->
             exists y, In y (data image_array) /\ x = cast float32 y)
  /\ (forall x, In x (data target_stack) ->
                exists y, In y (data target_array) /\ x = cast float32 y).
Proof.
  intros Hrun.
  apply create_patches_Ok in Hrun
    as (n & es & _ & Hes & _ & Histack & Htstack).
  destruct (np_stack_Ok _ _ Histack) as (_ & Hid & _).
  destruct (np_stack_Ok _ _ Htstack) as (_ & Htd & _).
  rewrite Forall_forall in Hes.
  split; intros x Hx.
  - rewrite Hid in Hx. apply in_flat_map in Hx as (p & Hp & Hx).
    apply in_map_iff in Hp as (e & <- & He).
    destruct (Hes e He) as (sample & tsample & Hs & _ & _ & Hpatch & _).
    destruct (extract_patch_values _ _ _ _ x Hpatch Hx) as (y & Hy & ->).
    exists y. split; [| reflexivity]. exact (getitem0_incl _ _ _ Hs y Hy).
  - rewrite Htd in Hx. apply in_flat_map in Hx as (p & Hp & Hx).
    apply in_map_iff in Hp as (e & <- & He).
    destruct (Hes e He) as (sample & tsample & _ & Hts & _ & _ & Htpatch).
    destruct (extract_patch_values _ _ _ _ x Htpatch Hx) as (y & Hy & ->).
    exists y. split; [| reflexivity]. exact (getitem0_incl _ _ _ Hts y Hy).
Qed.

End PatchValues.

Lemma create_patches_values_witness :
  exists y, In y (data arange25)
            /\ hd 0 (data arange25_patches) = exact_cast float32 y.
Proof.
  apply (proj1 (create_patches_values exact_cast arange25 arange25 [2; 2]%Z
                  rng_example arange25_patches arange25_patches
                  (mkGenerator (raw rng_example) 14) arange25_run)).
  simpl. left. reflexivity.
Defined.
